(** * amazon-scraper: a shallow embedding of the extraction logic

    The scraper reads a product page and (optionally) a seller page, fills in
    a [SellerInfo] and a [Product] record, and prints or saves them.  This
    development embeds the Python sources [utils.py], [models.py],
    [config.py] and [scraper.py] as Rocq functions and proves properties of
    them.

    Conventions.
    - A Python [str] is a [string]: the list of its characters, a character
      being its Unicode code point.  Lengths and slices count characters;
      white space and decimal digits are those of Python 3.11 (Unicode 14).
    - A Python value that may be [None] is a [pyval]; a number is a [pynum]
      (an [int] of any size or a binary64 [float]).
    - Parsed documents (BeautifulSoup objects) are records holding the answer
      of every query the code makes of them; each field names its query.
    - The libraries and the network that the code calls but does not define
      (urljoin, json.loads, requests) are fields of a [Host] record over
      which every function and theorem is parameterised; a call that may
      raise returns an [option]. *)

From Stdlib Require Import Bool Arith List ZArith NArith Lia.
From Stdlib Require Import Floats.SpecFloat.
From Stdlib Require Import QArith Qabs Lqa.
From Stdlib Require Strings.Byte.
Import ListNotations.

#[local] Set Warnings "-register-all".
Close Scope Q_scope.
Local Open Scope list_scope.
(* ================================================================= *)
(** * Characters and strings *)

(** A character: its code point. *)
Inductive char : Set := Code (n : N).

Definition code (c : char) : N := match c with Code n => n end.

(** A [str]: its characters in order. *)
Inductive string : Set :=
| EmptyString
| String (c : char) (s : string).

Declare Scope char_scope.
Delimit Scope char_scope with char.
Bind Scope char_scope with char.
Declare Scope string_scope.
Delimit Scope string_scope with string.
Bind Scope string_scope with string.

(** The literals of this file are written in UTF-8; a literal stands for
    the characters that its bytes encode. *)
Module Utf8.

Local Open Scope N_scope.

(** The payload of a continuation byte. *)
Definition continuation (b : Byte.byte) : option N :=
  let n := Byte.to_N b in
  if (128 <=? n) && (n <? 192) then Some (n - 128) else None.

Fixpoint decode (fuel : nat) (l : list Byte.byte) : option string :=
  match fuel, l with
  | _, [] => Some EmptyString
  | O, _ :: _ => None
  | S fuel', b :: l1 =>
      let n := Byte.to_N b in
      if n <? 128 then option_map (String (Code n)) (decode fuel' l1)
      else if (192 <=? n) && (n <? 224) then
        match l1 with
        | b1 :: l2 =>
            match continuation b1 with
            | Some c1 =>
                option_map (String (Code ((n - 192) * 64 + c1)))
                           (decode fuel' l2)
            | None => None
            end
        | _ => None
        end
      else if (224 <=? n) && (n <? 240) then
        match l1 with
        | b1 :: b2 :: l3 =>
            match continuation b1, continuation b2 with
            | Some c1, Some c2 =>
                option_map (String (Code (((n - 224) * 64 + c1) * 64 + c2)))
                           (decode fuel' l3)
            | _, _ => None
            end
        | _ => None
        end
      else if (240 <=? n) && (n <? 248) then
        match l1 with
        | b1 :: b2 :: b3 :: l4 =>
            match continuation b1, continuation b2, continuation b3 with
            | Some c1, Some c2, Some c3 =>
                option_map
                  (String (Code ((((n - 240) * 64 + c1) * 64 + c2) * 64 + c3)))
                  (decode fuel' l4)
            | _, _, _ => None
            end
        | _ => None
        end
      else None
  end.

Definition byte_of (n : N) : Byte.byte :=
  match Byte.of_N n with Some b => b | None => Byte.x00 end.

Definition encode_char (n : N) : list Byte.byte :=
  if n <? 128 then [byte_of n]
  else if n <? 2048 then [byte_of (192 + n / 64); byte_of (128 + n mod 64)]
  else if n <? 65536 then
    [byte_of (224 + n / 4096); byte_of (128 + (n / 64) mod 64);
     byte_of (128 + n mod 64)]
  else
    [byte_of (240 + n / 262144); byte_of (128 + (n / 4096) mod 64);
     byte_of (128 + (n / 64) mod 64); byte_of (128 + n mod 64)].

Fixpoint encode (s : string) : list Byte.byte :=
  match s with
  | EmptyString => []
  | String c s' => encode_char (code c) ++ encode s'
  end.

Definition parse (l : list Byte.byte) : option string :=
  decode (List.length l) l.

Definition parse_char (l : list Byte.byte) : option char :=
  match parse l with
  | Some (String c EmptyString) => Some c
  | _ => None
  end.

Definition print_char (c : char) : list Byte.byte := encode_char (code c).

End Utf8.

String Notation string Utf8.parse Utf8.encode : string_scope.
String Notation char Utf8.parse_char Utf8.print_char : char_scope.

(** Equality of characters. *)
Module Char.

Definition eqb (a b : char) : bool := N.eqb (code a) (code b).

Lemma eqb_reflect (a b : char) : reflect (a = b) (eqb a b).
Proof.
  destruct a as [m], b as [n]. unfold eqb. simpl.
  destruct (N.eqb_spec m n) as [->|H]; constructor; [reflexivity|].
  intros E. apply H. now injection E.
Qed.

Lemma eqb_same (a : char) : eqb a a = true.
Proof. unfold eqb. apply N.eqb_refl. Qed.

Lemma eqb_sym (a b : char) : eqb a b = eqb b a.
Proof. unfold eqb. apply N.eqb_sym. Qed.

Lemma eqb_true (a b : char) : eqb a b = true <-> a = b.
Proof. destruct (eqb_reflect a b); split; congruence. Qed.

Lemma eqb_false (a b : char) : eqb a b = false <-> a <> b.
Proof. destruct (eqb_reflect a b); split; congruence. Qed.

(** LINE FEED, and the other characters written by their code. *)
Definition LF : char := Code 10.
Definition TAB : char := Code 9.
Definition CR : char := Code 13.

End Char.

(** [a + b], [len(s)], [a == b] and [''.join(l)]. *)
Module String.

Fixpoint append (a b : string) : string :=
  match a with
  | EmptyString => b
  | String c a' => String c (append a' b)
  end.

Fixpoint length (s : string) : nat :=
  match s with
  | EmptyString => O
  | String _ s' => S (length s')
  end.

Fixpoint eqb (a b : string) : bool :=
  match a, b with
  | EmptyString, EmptyString => true
  | String c a', String d b' => Char.eqb c d && eqb a' b'
  | _, _ => false
  end.

Fixpoint concat (sep : string) (l : list string) : string :=
  match l with
  | [] => EmptyString
  | [w] => w
  | w :: l' => append w (append sep (concat sep l'))
  end.

Lemma eqb_spec (a b : string) : reflect (a = b) (eqb a b).
Proof.
  revert b. induction a as [|c a IH]; intros [|d b]; simpl;
    try (constructor; congruence).
  destruct (Char.eqb_reflect c d) as [->|H]; simpl.
  - destruct (IH b) as [->|H]; constructor; congruence.
  - constructor. congruence.
Qed.

Lemma eqb_refl (a : string) : eqb a a = true.
Proof. destruct (eqb_spec a a); congruence. Qed.

Lemma eqb_eq (a b : string) : eqb a b = true <-> a = b.
Proof. destruct (eqb_spec a b); split; congruence. Qed.

Lemma eqb_neq (a b : string) : eqb a b = false <-> a <> b.
Proof. destruct (eqb_spec a b); split; congruence. Qed.

End String.

Infix "++" := String.append (right associativity, at level 60) : string_scope.

Local Open Scope string_scope.

(* ================================================================= *)
(** * Python strings *)

Module Str.

(** [str.isspace] on one character, which is also the white space of
    [str.strip], of [str.split] and of the class [\s] of [re]: TAB..CR,
    FS..US, SPACE, U+0085, U+00A0, U+1680, U+2000..U+200A, U+2028, U+2029,
    U+202F, U+205F and U+3000. *)
Definition isspace (c : char) : bool :=
  let n := code c in
  (((9 <=? n) && (n <=? 13)) || ((28 <=? n) && (n <=? 32)) ||
   (n =? 133) || (n =? 160) || (n =? 5760) ||
   ((8192 <=? n) && (n <=? 8202)) || (n =? 8232) || (n =? 8233) ||
   (n =? 8239) || (n =? 8287) || (n =? 12288))%N.

(** The digits 0 to 9 of ASCII. *)
Definition isdigit (c : char) : bool :=
  let n := code c in ((48 <=? n) && (n <=? 57))%N.

(** The decimal digits of Unicode (category Nd), which the class [\d] of
    [re] and [float] read: each entry is the code point of a digit zero
    and the number of runs of ten digits that start there. *)
Definition decimal_runs : list (N * N) :=
  [ (48, 1)%N; (1632, 1)%N; (1776, 1)%N; (1984, 1)%N; (2406, 1)%N; (2534, 1)%N;
    (2662, 1)%N; (2790, 1)%N; (2918, 1)%N; (3046, 1)%N; (3174, 1)%N; (3302, 1)%N;
    (3430, 1)%N; (3558, 1)%N; (3664, 1)%N; (3792, 1)%N; (3872, 1)%N; (4160, 1)%N;
    (4240, 1)%N; (6112, 1)%N; (6160, 1)%N; (6470, 1)%N; (6608, 1)%N; (6784, 1)%N;
    (6800, 1)%N; (6992, 1)%N; (7088, 1)%N; (7232, 1)%N; (7248, 1)%N; (42528, 1)%N;
    (43216, 1)%N; (43264, 1)%N; (43472, 1)%N; (43504, 1)%N; (43600, 1)%N; (44016, 1)%N;
    (65296, 1)%N; (66720, 1)%N; (68912, 1)%N; (69734, 1)%N; (69872, 1)%N; (69942, 1)%N;
    (70096, 1)%N; (70384, 1)%N; (70736, 1)%N; (70864, 1)%N; (71248, 1)%N; (71360, 1)%N;
    (71472, 1)%N; (71904, 1)%N; (72016, 1)%N; (72784, 1)%N; (73040, 1)%N; (73120, 1)%N;
    (92768, 1)%N; (92864, 1)%N; (93008, 1)%N; (120782, 5)%N; (123200, 1)%N;
    (123632, 1)%N; (125264, 1)%N; (130032, 1)%N ].

Fixpoint decimal_in (runs : list (N * N)) (n : N) : option N :=
  match runs with
  | [] => None
  | (zero, k) :: runs' =>
      if ((zero <=? n) && (n <? zero + 10 * k))%N
      then Some ((n - zero) mod 10)%N
      else decimal_in runs' n
  end.

(** The value of a decimal digit. *)
Definition decimal (c : char) : option N := decimal_in decimal_runs (code c).

Definition isdecimal (c : char) : bool :=
  match decimal c with Some _ => true | None => false end.

Definition is_empty (s : string) : bool :=
  match s with EmptyString => true | String _ _ => false end.

(** [s.startswith(p)] *)
Fixpoint startswith (p s : string) : bool :=
  match p, s with
  | EmptyString, _ => true
  | String a p', String b s' => Char.eqb a b && startswith p' s'
  | String _ _, EmptyString => false
  end.

(** [sub in s] *)
Fixpoint contains (sub s : string) : bool :=
  startswith sub s ||
  match s with
  | EmptyString => false
  | String _ s' => contains sub s'
  end.

(** [s.split(sep)[0]]: the text before the first occurrence of [sep]
    (all of [s] when there is none). *)
Fixpoint before (sep s : string) : string :=
  if startswith sep s then EmptyString
  else match s with
       | EmptyString => EmptyString
       | String c s' => String c (before sep s')
       end.

(** [s[n:]] *)
Fixpoint drop (n : nat) (s : string) : string :=
  match n, s with
  | O, _ => s
  | S n', String _ s' => drop n' s'
  | S _, EmptyString => EmptyString
  end.

(** [s[:n]] *)
Fixpoint take (n : nat) (s : string) : string :=
  match n, s with
  | O, _ => EmptyString
  | S n', String c s' => String c (take n' s')
  | S _, EmptyString => EmptyString
  end.

(** [s.replace(old, new)] for a non-empty [old]: occurrences are replaced
    from the left and do not overlap.  [skip] counts the characters of a
    replaced occurrence that are still to be passed over. *)
Fixpoint replace_aux (old new : string) (skip : nat) (s : string) : string :=
  match s with
  | EmptyString => EmptyString
  | String c s' =>
      match skip with
      | S k => replace_aux old new k s'
      | O =>
          if startswith old s
          then new ++ replace_aux old new (String.length old - 1) s'
          else String c (replace_aux old new 0 s')
      end
  end.

Definition replace (old new s : string) : string := replace_aux old new 0 s.

(** The lower-case form of a letter of ASCII. *)
Definition lower_char (c : char) : char :=
  let n := code c in
  if ((65 <=? n) && (n <=? 90))%N then Code (n + 32) else c.

(** [s.lower()], as the code reads it: its one use is the search for the
    word "amazon", and the letters of that word are the lower-case forms of
    their ASCII capitals only, so the other characters are left as they
    are. *)
Fixpoint lower (s : string) : string :=
  match s with
  | EmptyString => EmptyString
  | String c s' => String (lower_char c) (lower s')
  end.

(** [s.lstrip()] *)
Fixpoint lstrip (s : string) : string :=
  match s with
  | EmptyString => EmptyString
  | String c s' => if isspace c then lstrip s' else s
  end.

(** [s.rstrip()] *)
Fixpoint rstrip (s : string) : string :=
  match s with
  | EmptyString => EmptyString
  | String c s' =>
      let r := rstrip s' in
      if isspace c && is_empty r then EmptyString else String c r
  end.

(** [s.strip()] *)
Definition strip (s : string) : string := rstrip (lstrip s).

(** [s.split()]: the maximal runs of characters that are not white space.
    [w] is the word being read. *)
Fixpoint split_acc (w s : string) : list string :=
  match s with
  | EmptyString => if is_empty w then [] else [w]
  | String c s' =>
      if isspace c
      then (if is_empty w then split_acc EmptyString s'
            else w :: split_acc EmptyString s')
      else split_acc (w ++ String c EmptyString) s'
  end.

Definition split (s : string) : list string := split_acc EmptyString s.

(** [sep.join(l)] *)
Fixpoint join (sep : string) (l : list string) : string :=
  match l with
  | [] => EmptyString
  | [w] => w
  | w :: l' => w ++ sep ++ join sep l'
  end.

(** [x in l] for a list of strings *)
Fixpoint mem (x : string) (l : list string) : bool :=
  match l with
  | [] => false
  | y :: l' => String.eqb x y || mem x l'
  end.

(** [list(dict.fromkeys(l))]: first occurrences, in order. *)
Fixpoint dedup_acc (seen l : list string) : list string :=
  match l with
  | [] => []
  | x :: l' => if mem x seen then dedup_acc seen l'
               else x :: dedup_acc (x :: seen) l'
  end.

Definition dedup (l : list string) : list string := dedup_acc [] l.

End Str.

(* ================================================================= *)
(** * Regular expressions ([re])

    A backtracking matcher for the fragment of [re] syntax that the sources
    use: literals, character classes, greedy and lazy repetition of a
    class, alternation, the anchors, and one capturing group. *)

Module Re.

Inductive re : Type :=
| Eps
| Chr (p : char -> bool)                 (* one character of a class *)
| Star (greedy : bool) (p : char -> bool) (* [p*] and [p*?] *)
| Seq (a b : re)
| Alt (a b : re)
| Group (a : re)                          (* the capturing group 1 *)
| Bol                                     (* [^] *)
| Eol.                                    (* [$] *)

(** The result of a match attempt: the end offset and group 1. *)
Definition result : Type := (nat * option string)%type.

Definition cont : Type := nat -> string -> option string -> option result.

Fixpoint star (greedy : bool) (p : char -> bool)
    (i : nat) (s : string) (g : option string) (k : cont) : option result :=
  match s with
  | String c s' =>
      if p c then
        if greedy then
          match star greedy p (S i) s' g k with
          | Some r => Some r
          | None => k i s g
          end
        else
          match k i s g with
          | Some r => Some r
          | None => star greedy p (S i) s' g k
          end
      else k i s g
  | EmptyString => k i s g
  end.

(** [run r i s g k]: match [r] at offset [i], where [s] is the text from
    [i] on, then continue with [k]; alternatives are tried in the order in
    which the backtracking engine of [re] tries them. *)
Fixpoint run (r : re) (i : nat) (s : string) (g : option string) (k : cont)
    : option result :=
  match r with
  | Eps => k i s g
  | Chr p =>
      match s with
      | String c s' => if p c then k (S i) s' g else None
      | EmptyString => None
      end
  | Star greedy p => star greedy p i s g k
  | Seq a b => run a i s g (fun i' s' g' => run b i' s' g' k)
  | Alt a b =>
      match run a i s g k with
      | Some r => Some r
      | None => run b i s g k
      end
  | Group a => run a i s g (fun i' s' _ => k i' s' (Some (Str.take (i' - i) s)))
  | Bol => if (i =? 0)%nat then k i s g else None
  | Eol =>
      match s with
      | EmptyString => k i s g
      | String c EmptyString => if Char.eqb c Char.LF then k i s g else None
      | _ => None
      end
  end.

Definition match_at (r : re) (i : nat) (s : string) : option result :=
  run r i s None (fun e _ g => Some (e, g)).

(** [re.search]: the leftmost match, as (start, (end, group 1)). *)
Fixpoint search_from (r : re) (i : nat) (s : string)
    : option (nat * result) :=
  match match_at r i s with
  | Some m => Some (i, m)
  | None =>
      match s with
      | String _ s' => search_from r (S i) s'
      | EmptyString => None
      end
  end.

Definition search (r : re) (s : string) : option (nat * result) :=
  search_from r 0 s.

(** [m = re.search(r, s)] followed by [m.group(1)].  Every pattern of the
    sources has its group on every path, so a match always sets it. *)
Definition search_group1 (r : re) (s : string) : option string :=
  match search r s with
  | Some (_, (_, Some g)) => Some g
  | Some (_, (_, None)) => Some EmptyString
  | None => None
  end.

(** [re.sub(r, '', s)]: every match is removed, left to right.  [skip]
    counts the characters of a match still to be passed over; the patterns
    of the sources never match the empty string. *)
Fixpoint sub_aux (r : re) (skip i : nat) (s : string) : string :=
  match s with
  | EmptyString => EmptyString
  | String c s' =>
      match skip with
      | S k => sub_aux r k (S i) s'
      | O =>
          match match_at r i s with
          | Some (e, _) =>
              if (e <=? i)%nat then String c (sub_aux r 0 (S i) s')
              else sub_aux r (e - i - 1) (S i) s'
          | None => String c (sub_aux r 0 (S i) s')
          end
      end
  end.

Definition sub_empty (r : re) (s : string) : string := sub_aux r 0 0 s.

(** Character classes. *)
Definition digit : char -> bool := Str.isdecimal.         (* [\d] *)
Definition space : char -> bool := Str.isspace.           (* [\s] *)
Definition dot (c : char) : bool := negb (Char.eqb c Char.LF). (* [.] *)
Definition is_char (a : char) (c : char) : bool := Char.eqb a c.
(** A literal character under [re.I].  Two characters are then the same
    when their lower-case forms are; of the characters that are equal to a
    letter of ASCII this way, four are not of ASCII: U+0130 and U+0131
    (i), U+017F (s) and U+212A (k). *)
Definition fold_case (c : char) : char :=
  let n := code c in
  if ((n =? 304) || (n =? 305))%N then "i"%char
  else if (n =? 383)%N then "s"%char
  else if (n =? 8490)%N then "k"%char
  else Str.lower_char c.

Definition is_char_i (a : char) (c : char) : bool :=
  Char.eqb (fold_case a) (fold_case c).

(** A literal text, compared exactly or without regard to case. *)
Fixpoint lit (ignorecase : bool) (t : string) : re :=
  match t with
  | EmptyString => Eps
  | String a t' =>
      Seq (Chr (if ignorecase then is_char_i a else is_char a))
          (lit ignorecase t')
  end.

(** [p+], [p+?] and [p?] *)
Definition plus (greedy : bool) (p : char -> bool) : re :=
  Seq (Chr p) (Star greedy p).
Definition opt (p : char -> bool) : re := Alt (Chr p) Eps.

End Re.

(* ================================================================= *)
(** * Python floats

    A [float] is an IEEE 754 binary64 number, here a [spec_float] of the
    Standard Library.  Every operation returns the exact result rounded to
    the nearest representable number, ties to even ([round_ratio]). *)

Module Float.

Local Open Scope Z_scope.

Definition prec : Z := 53.
Definition emax : Z := 1024.

(** Round [num / den] ([den > 0], [num >= 0]) to the nearest integer, ties
    to the even one. *)
Definition round_half_even (num den : Z) : Z :=
  let q := num / den in
  let r := num mod den in
  match (2 * r ?= den) with
  | Lt => q
  | Gt => q + 1
  | Eq => if Z.even q then q else q + 1
  end.

(** Floor of the binary logarithm of [n / d], for [n, d > 0]. *)
Definition ilog2_ratio (n d : Z) : Z :=
  let e0 := Z.log2 n - Z.log2 d in
  let below :=
    if 0 <=? e0 then n <? d * 2 ^ e0 else n * 2 ^ (- e0) <? d in
  if below then e0 - 1 else e0.

(** [n / (d * 2^x)] rounded to an integer. *)
Definition round_scaled (n d x : Z) : Z :=
  if 0 <=? x then round_half_even n (d * 2 ^ x)
  else round_half_even (n * 2 ^ (- x)) d.

(** The binary64 number nearest to [(-1)^neg * n / d], for [n >= 0] and
    [d > 0]; an infinity when the rounded value is out of range. *)
Definition round_ratio (neg : bool) (n d : Z) : spec_float :=
  if n =? 0 then S754_zero neg
  else
    let e := Z.max (ilog2_ratio n d) (-1022) in
    let x := e - 52 in
    let m := round_scaled n d x in
    let '(m, x) := if m =? 2 ^ 53 then (2 ^ 52, x + 1) else (m, x) in
    if m =? 0 then S754_zero neg
    else if emax - prec <? x then S754_infinity neg
    else S754_finite neg (Z.to_pos m) x.

(** [a / b] on [int]s: [None] stands for ZeroDivisionError and for
    OverflowError. *)
Definition int_truediv (a b : Z) : option spec_float :=
  if b =? 0 then None
  else
    let neg := xorb (a <? 0) (b <? 0) in
    match round_ratio neg (Z.abs a) (Z.abs b) with
    | S754_infinity _ => None
    | f => Some f
    end.

(** [float(n)] for an [int] that converts without overflow *)
Definition of_int (n : Z) : spec_float := round_ratio (n <? 0) (Z.abs n) 1.

Definition is_zero (f : spec_float) : bool :=
  match f with S754_zero _ => true | _ => false end.

(** [x * y], [x + y] and [x / y] on floats; [None] stands for
    ZeroDivisionError. *)
Definition mul (x y : spec_float) : spec_float := SFmul prec emax x y.
Definition add (x y : spec_float) : spec_float := SFadd prec emax x y.
Definition div (x y : spec_float) : option spec_float :=
  if is_zero y then None else Some (SFdiv prec emax x y).

(** Decimal digits of a natural number, and of an integer. *)
Definition digit_char (d : Z) : char := Code (48 + Z.to_N d).

Fixpoint digits_fuel (fuel : nat) (n : Z) (acc : string) : string :=
  match fuel with
  | O => acc
  | S f =>
      let acc' := String (digit_char (n mod 10)) acc in
      if n <? 10 then acc' else digits_fuel f (n / 10) acc'
  end.

(** [str(n)] for [n >= 0] *)
Definition str_nat (n : Z) : string :=
  digits_fuel (S (Z.to_nat (Z.log2 n))) n EmptyString.

(** [str(n)] *)
Definition str_int (n : Z) : string :=
  if n <? 0 then String "-" (str_nat (- n)) else str_nat n.

Fixpoint zeros (k : nat) : string :=
  match k with
  | O => EmptyString
  | S k' => String "0" (zeros k')
  end.

(** [n] written with at least [k] digits *)
Definition pad_digits (k : nat) (n : Z) : string :=
  let d := str_nat n in
  (zeros (k - String.length d) ++ d)%string.

(** [f"{x:.kf}"]: the exact value of [x] rounded to [k] decimals, ties to
    even. *)
Definition format_fixed (k : nat) (x : spec_float) : string :=
  match x with
  | S754_nan => "nan"
  | S754_infinity neg => if neg then "-inf" else "inf"
  | S754_zero neg =>
      ((if neg then "-" else "") ++ "0" ++
       (if (k =? 0)%nat then "" else "." ++ zeros k))%string
  | S754_finite neg m e =>
      let p := 10 ^ Z.of_nat k in
      let n := round_scaled (Z.pos m * p) 1 (- e) in
      ((if neg then "-" else "") ++ str_nat (n / p) ++
       (if (k =? 0)%nat then "" else "." ++ pad_digits k (n mod p)))%string
  end.

(** ** [float(s)] *)

(** [float] first rewrites the text: of the characters above DEL, white
    space becomes a SPACE and a decimal digit its ASCII digit, and any
    other one makes the text no number; the characters of ASCII stay. *)
Definition to_ascii_char (c : char) : option char :=
  if (code c <? 127)%N then Some c
  else if Str.isspace c then Some " "%char
  else match Str.decimal c with
       | Some d => Some (Code (48 + d))
       | None => None
       end.

Fixpoint to_ascii (s : string) : option string :=
  match s with
  | EmptyString => Some EmptyString
  | String c s' =>
      match to_ascii_char c, to_ascii s' with
      | Some c', Some t => Some (String c' t)
      | _, _ => None
      end
  end.

(** The white space that is then dropped at both ends: TAB..CR and SPACE
    (not FS..US). *)
Definition is_c_space (c : char) : bool :=
  let n := code c in (((9 <=? n) && (n <=? 13)) || (n =? 32))%N.

Fixpoint lstrip_c (s : string) : string :=
  match s with
  | EmptyString => EmptyString
  | String c s' => if is_c_space c then lstrip_c s' else s
  end.

Fixpoint rstrip_c (s : string) : string :=
  match s with
  | EmptyString => EmptyString
  | String c s' =>
      let r := rstrip_c s' in
      if is_c_space c && Str.is_empty r then EmptyString else String c r
  end.

(** A run of digits, single underscores allowed between two digits; the
    value read so far, the number of digits, and the rest of the text. *)
Fixpoint read_digits (s : string) (acc : Z) (n : nat) : Z * nat * string :=
  match s with
  | String c s' =>
      if Str.isdigit c
      then read_digits s' (10 * acc + (Z.of_N (code c) - 48)) (S n)
      else
        match n, s' with
        | S _, String c' _ =>
            if Char.eqb c "_" && Str.isdigit c'
            then read_digits s' acc n
            else (acc, n, s)
        | _, _ => (acc, n, s)
        end
  | EmptyString => (acc, n, s)
  end.

Definition read_sign (s : string) : bool * string :=
  match s with
  | String "-" s' => (true, s')
  | String "+" s' => (false, s')
  | _ => (false, s)
  end.

(** The optional exponent part; [None] when the text is ill-formed. *)
Definition read_exponent (s : string) : option Z :=
  match s with
  | EmptyString => Some 0
  | String c s' =>
      if Char.eqb (Str.lower_char c) "e" then
        let '(neg, s1) := read_sign s' in
        match read_digits s1 0 0 with
        | (_, O, _) => None
        | (v, S _, EmptyString) => Some (if neg then - v else v)
        | (_, S _, String _ _) => None
        end
      else None
  end.

(** The number that a text of ASCII characters denotes. *)
Definition of_ascii (s : string) : option spec_float :=
  let '(neg, body) := read_sign (rstrip_c (lstrip_c s)) in
  let low := Str.lower body in
  if String.eqb low "inf" || String.eqb low "infinity"
  then Some (S754_infinity neg)
  else if String.eqb low "nan" then Some S754_nan
  else
    let '(ip, ni, s1) := read_digits body 0 0 in
    let '(fp, nf, s2) :=
      match s1 with
      | String "." s1' => read_digits s1' ip 0
      | _ => (ip, O, s1)
      end in
    match ni, nf with
    | O, O => None
    | _, _ =>
        match read_exponent s2 with
        | None => None
        | Some ex =>
            let e10 := ex - Z.of_nat nf in
            Some (if 0 <=? e10 then round_ratio neg (fp * 10 ^ e10) 1
                  else round_ratio neg fp (10 ^ (- e10)))
        end
    end.

(** [float(s)]; [None] stands for ValueError. *)
Definition of_string (s : string) : option spec_float :=
  match to_ascii s with
  | Some t => of_ascii t
  | None => None
  end.

End Float.

(* ================================================================= *)
(** * Python values *)

(** A value that is a [str] or [None]. *)
Inductive pyval : Type :=
| PNone
| PStr (s : string).

(** Truth value of a [pyval]: [None] and the empty string are false. *)
Definition truthy (v : pyval) : bool :=
  match v with
  | PNone => false
  | PStr s => negb (Str.is_empty s)
  end.

(** [v == s] for a string literal [s] *)
Definition py_eq (v : pyval) (s : string) : bool :=
  match v with
  | PNone => false
  | PStr t => String.eqb t s
  end.

Definition NOT_FOUND : string := "Not found".

(* ================================================================= *)
(** * utils.py *)

(** [clean_text]:
    if not text: return ""
    return ' '.join(text.strip().split()) *)
Definition clean_text (text : pyval) : string :=
  match text with
  | PNone => ""
  | PStr s => if Str.is_empty s then ""
              else Str.join " " (Str.split (Str.strip s))
  end.

(** [extract_currency]:
    currency_match = re.search(r'([^\d\s]+)\s*[\d\.,]+', price_text)
    price_match = re.search(r'([\d\.,]+)', price_text) *)
Definition amount_char (c : char) : bool :=
  Re.digit c || Char.eqb c "." || Char.eqb c ",".
Definition symbol_char (c : char) : bool :=
  negb (Re.digit c || Re.space c).

Definition currency_re : Re.re :=
  Re.Seq (Re.Group (Re.plus true symbol_char))
         (Re.Seq (Re.Star true Re.space) (Re.plus true amount_char)).
Definition price_re : Re.re := Re.Group (Re.plus true amount_char).

Definition extract_currency (price_text : string) : string * string :=
  let currency_symbol :=
    match Re.search_group1 currency_re price_text with
    | Some g => Str.strip g
    | None => "$"
    end in
  let price :=
    match Re.search_group1 price_re price_text with
    | Some g => Str.replace "," "" g
    | None => NOT_FOUND
    end in
  (currency_symbol, price).

(** [clean_seller_name]: the patterns [\((.*?)\)] and [^\s*by\s*] (re.I). *)
Definition parens_re : Re.re :=
  Re.Seq (Re.lit false "(")
         (Re.Seq (Re.Group (Re.Star false Re.dot)) (Re.lit false ")")).
Definition by_prefix_re : Re.re :=
  Re.Seq Re.Bol
         (Re.Seq (Re.Star true Re.space)
                 (Re.Seq (Re.lit true "by") (Re.Star true Re.space))).

Definition clean_seller_name (name : pyval) : pyval :=
  match name with
  | PNone => PNone
  | PStr s =>
      if Str.is_empty s || String.eqb s NOT_FOUND then name
      else
        let name := Str.strip (Re.sub_empty parens_re s) in
        let name := Str.strip (Re.sub_empty by_prefix_re name) in
        if (100 <? String.length name)%nat
        then PStr (Str.take 100 name ++ "...")
        else PStr name
  end.

(* ================================================================= *)
(** * JSON values ([json.loads])

    A number of a document is an [int] of any size or a [float], which may
    be an infinity or NaN ([json.loads] reads [Infinity] and [NaN]). *)

Inductive json : Type :=
| JNull
| JBool (b : bool)
| JInt (z : Z)
| JFloat (f : spec_float)
| JStr (s : string)
| JArr (items : list json)
| JObj (members : list (string * json)).

(** Truth value of a decoded document *)
Definition json_truthy (j : json) : bool :=
  match j with
  | JNull => false
  | JBool b => b
  | JInt z => negb (z =? 0)%Z
  | JFloat f => negb (Float.is_zero f)
  | JStr s => negb (Str.is_empty s)
  | JArr l => match l with [] => false | _ => true end
  | JObj m => match m with [] => false | _ => true end
  end.

(** [d.get(k)] on the members of a [dict] *)
Fixpoint dict_get (k : string) (m : list (string * json)) : option json :=
  match m with
  | [] => None
  | (k', v) :: m' => if String.eqb k k' then Some v else dict_get k m'
  end.

(** [k in d] *)
Definition dict_has (k : string) (m : list (string * json)) : bool :=
  match dict_get k m with Some _ => true | None => false end.

(** A number: an [int] or a [float]. *)
Inductive pynum : Type :=
| NInt (z : Z)
| NFloat (f : spec_float).

(** The number a value stands for in arithmetic and comparisons: an
    [int], a [float], or a [bool] ([True] is 1). *)
Definition as_num (j : json) : option pynum :=
  match j with
  | JInt z => Some (NInt z)
  | JFloat f => Some (NFloat f)
  | JBool b => Some (NInt (if b then 1%Z else 0%Z))
  | _ => None
  end.

(** Arithmetic and comparisons of numbers.  Two [int]s are combined
    exactly; when one operand is a [float] the other is converted to a
    [float] first; an [int] and a [float] are compared by their exact
    values. *)
Module Num.

Local Open Scope Z_scope.

(** [float(n)]; [None] stands for OverflowError. *)
Definition to_float (n : pynum) : option spec_float :=
  match n with
  | NFloat f => Some f
  | NInt z =>
      match Float.of_int z with
      | S754_infinity _ => None
      | f => Some f
      end
  end.

(** [a * b] and [a + b]; [None] stands for OverflowError. *)
Definition mul (a b : pynum) : option pynum :=
  match a, b with
  | NInt x, NInt y => Some (NInt (x * y))
  | _, _ =>
      match to_float a, to_float b with
      | Some x, Some y => Some (NFloat (Float.mul x y))
      | _, _ => None
      end
  end.

Definition add (a b : pynum) : option pynum :=
  match a, b with
  | NInt x, NInt y => Some (NInt (x + y))
  | _, _ =>
      match to_float a, to_float b with
      | Some x, Some y => Some (NFloat (Float.add x y))
      | _, _ => None
      end
  end.

(** [a / b]; [None] stands for ZeroDivisionError and OverflowError. *)
Definition truediv (a b : pynum) : option spec_float :=
  match a, b with
  | NInt x, NInt y => Float.int_truediv x y
  | _, _ =>
      match to_float a, to_float b with
      | Some x, Some y => Float.div x y
      | _, _ => None
      end
  end.

(** The exact value of a number other than NaN: a rational or an
    infinity.  A comparison of two numbers, [int] or [float], is the
    comparison of their exact values. *)
Inductive exact : Type :=
| NegInf
| Finite (q : Q)
| PosInf.

Definition value (n : pynum) : option exact :=
  match n with
  | NInt z => Some (Finite (inject_Z z))
  | NFloat S754_nan => None
  | NFloat (S754_infinity neg) => Some (if neg then NegInf else PosInf)
  | NFloat (S754_zero _) => Some (Finite (inject_Z 0))
  | NFloat (S754_finite neg m e) =>
      let v := if neg then Z.neg m else Z.pos m in
      Some (Finite (if 0 <=? e then inject_Z (v * 2 ^ e)
                    else Qmake v (Z.to_pos (2 ^ (- e)))))
  end.

Definition compare_exact (x y : exact) : comparison :=
  match x, y with
  | NegInf, NegInf => Eq
  | NegInf, _ => Lt
  | Finite _, NegInf => Gt
  | Finite p, Finite q => Qcompare p q
  | Finite _, PosInf => Lt
  | PosInf, PosInf => Eq
  | PosInf, _ => Gt
  end.

(** The order of two numbers; [None] when one of them is NaN. *)
Definition compare (a b : pynum) : option comparison :=
  match value a, value b with
  | Some x, Some y => Some (compare_exact x y)
  | _, _ => None
  end.

(** [a <= b] and [a > b] *)
Definition le (a b : pynum) : bool :=
  match compare a b with
  | Some Lt | Some Eq => true
  | _ => false
  end.

Definition gt (a b : pynum) : bool :=
  match compare a b with
  | Some Gt => true
  | _ => false
  end.

End Num.

(* ================================================================= *)
(** * Parsed documents (BeautifulSoup) *)

(** The filters of [find] and [find_all]. *)
Inductive query : Type :=
| QAttr (name attr value : string)        (* find(name, attr=value) *)
| QAttrRe (name attr pattern : string)    (* find(name, {attr: re.compile(p)}) *)
| QStringRe (name pattern : string) (ignorecase : bool)
                                          (* find(name, string=re.compile(p)) *)
| QName (name : string).                  (* find_all(name) *)

(** An element of a document, or the document itself, as the answers it
    gives to the calls the code makes. *)
Inductive Tag : Type := mkTag {
  get_text : string -> bool -> string;    (* get_text(separator, strip=...) *)
  tag_string : pyval;                     (* .string *)
  attrs : list (string * string);         (* .attrs *)
  find_all : query -> list Tag;           (* find_all(...) *)
  find_all_string : string -> bool -> list string;
                                          (* find_all(string=re.compile(p, re.I?)) *)
  select : string -> list Tag             (* select(css) *)
}.

(** [tag.find(...)]: the first result of [find_all], or [None]. *)
Definition find (t : Tag) (q : query) : option Tag := hd_error (find_all t q).

(** [soup.find(string=re.compile(p))] *)
Definition find_string (t : Tag) (pattern : string) : option string :=
  hd_error (find_all_string t pattern false).

(** [tag.get(a)] *)
Fixpoint attr_get (a : string) (l : list (string * string)) : pyval :=
  match l with
  | [] => PNone
  | (k, v) :: l' => if String.eqb a k then PStr v else attr_get a l'
  end.

(** [a in tag.attrs] *)
Definition attr_has (a : string) (l : list (string * string)) : bool :=
  match attr_get a l with PNone => false | PStr _ => true end.

(** [x or y] *)
Definition py_or (x y : pyval) : pyval := if truthy x then x else y.

(** [requests.get]'s answer, parsed. *)
Record Response : Type := mkResponse {
  status_code : Z;
  soup : Tag
}.

(* ================================================================= *)
(** * The host: libraries and network *)

Record Host : Type := mkHost {
  (** [urllib.parse.urljoin(base, url)]; [None] stands for ValueError (an
      ill-formed host part) *)
  urljoin : string -> string -> option string;
  (** [urlparse(url)] raises ValueError (an ill-formed host part) *)
  urlparse_rejects : string -> bool;
  (** [urllib.parse.unquote]: percent-decoding *)
  unquote : string -> string;
  (** [json.loads]; [None] stands for JSONDecodeError *)
  json_loads : string -> option json;
  (** [str(v)] for a float, a list or a dict *)
  py_repr : json -> string;
  (** [requests.get(url, ...)] followed by [BeautifulSoup(response.content)];
      [None] when the request raises *)
  http_get : string -> option Response;
  (** [data['rates']['PKR']] of the exchange-rate answer; [None] when the
      request, the decoding or the look-up raises, or the value is no
      number *)
  rates_PKR : option pynum
}.

(* ================================================================= *)
(** * config.py *)

Definition BASE_URL : string := "https://www.amazon.com".
Definition MAX_IMAGES : nat := 10.
(** [DEFAULT_EXCHANGE_RATE = 0.00359] *)
Definition DEFAULT_EXCHANGE_RATE : spec_float :=
  Float.round_ratio false 359 100000.

(* ================================================================= *)
(** * Statements that may raise

    [Exn S A] is a computation over a state [S] (local variables, a record
    being filled in, the lines printed so far) that returns an [A] or
    raises; the state reached at the raise is kept, as Python keeps the
    assignments made before an exception. *)

Definition Exn (S A : Type) : Type := S -> option A * S.

Definition ret {S A} (a : A) : Exn S A := fun s => (Some a, s).
Definition raise {S A} : Exn S A := fun s => (None, s).
Definition bind {S A B} (m : Exn S A) (f : A -> Exn S B) : Exn S B :=
  fun s => match m s with
           | (Some a, s') => f a s'
           | (None, s') => (None, s')
           end.
Definition get {S} : Exn S S := fun s => (Some s, s).
Definition modify {S} (f : S -> S) : Exn S unit := fun s => (Some tt, f s).
(** a value that may be an exception *)
Definition lift {S A} (o : option A) : Exn S A :=
  match o with Some a => ret a | None => raise end.
Definition when {S} (b : bool) (m : Exn S unit) : Exn S unit :=
  if b then m else ret tt.
(** [try: m except: pass]: the state [m] reached *)
Definition try_pass {S} (m : Exn S unit) (s : S) : S := snd (m s).

Declare Scope exn_scope.
Delimit Scope exn_scope with exn.
Notation "x <- m ;; k" := (bind m (fun x => k))
  (at level 61, m at next level, right associativity) : exn_scope.
Notation "m ;; k" := (bind m (fun _ => k))
  (at level 61, right associativity) : exn_scope.

(* ================================================================= *)
(** * models.py *)

Record SellerInfo : Type := mkSellerInfo {
  seller_name : pyval;
  seller_store_url : pyval;
  seller_rating : pyval;
  seller_reviews : pyval;
  seller_since : pyval;
  positive_feedback : pyval;
  shipped_by : pyval;
  sold_by : pyval;
  seller_description : pyval;
  seller_id : pyval;
  is_amazon : bool;
  is_fulfilled_by_amazon : bool;
  lifetime_rating : pyval;
  lifetime_reviews : pyval
}.

(** [SellerInfo.__init__] *)
Definition SellerInfo_init : SellerInfo :=
  {| seller_name := PStr "Not found";
     seller_store_url := PStr "Not found";
     seller_rating := PStr "Not found";
     seller_reviews := PStr "Not found";
     seller_since := PStr "Not found";
     positive_feedback := PStr "Not found";
     shipped_by := PStr "Not found";
     sold_by := PStr "Not found";
     seller_description := PStr "Not found";
     seller_id := PStr "Not found";
     is_amazon := false;
     is_fulfilled_by_amazon := false;
     lifetime_rating := PStr "Not found";
     lifetime_reviews := PStr "Not found" |}.

(** Attribute assignments [seller_info.f = v]. *)
Definition set_seller_name (v : pyval) (s : SellerInfo) : SellerInfo :=
  mkSellerInfo v (seller_store_url s) (seller_rating s) (seller_reviews s)
    (seller_since s) (positive_feedback s) (shipped_by s) (sold_by s)
    (seller_description s) (seller_id s) (is_amazon s)
    (is_fulfilled_by_amazon s) (lifetime_rating s) (lifetime_reviews s).
Definition set_seller_store_url (v : pyval) (s : SellerInfo) : SellerInfo :=
  mkSellerInfo (seller_name s) v (seller_rating s) (seller_reviews s)
    (seller_since s) (positive_feedback s) (shipped_by s) (sold_by s)
    (seller_description s) (seller_id s) (is_amazon s)
    (is_fulfilled_by_amazon s) (lifetime_rating s) (lifetime_reviews s).
Definition set_seller_rating (v : pyval) (s : SellerInfo) : SellerInfo :=
  mkSellerInfo (seller_name s) (seller_store_url s) v (seller_reviews s)
    (seller_since s) (positive_feedback s) (shipped_by s) (sold_by s)
    (seller_description s) (seller_id s) (is_amazon s)
    (is_fulfilled_by_amazon s) (lifetime_rating s) (lifetime_reviews s).
Definition set_seller_reviews (v : pyval) (s : SellerInfo) : SellerInfo :=
  mkSellerInfo (seller_name s) (seller_store_url s) (seller_rating s) v
    (seller_since s) (positive_feedback s) (shipped_by s) (sold_by s)
    (seller_description s) (seller_id s) (is_amazon s)
    (is_fulfilled_by_amazon s) (lifetime_rating s) (lifetime_reviews s).
Definition set_positive_feedback (v : pyval) (s : SellerInfo) : SellerInfo :=
  mkSellerInfo (seller_name s) (seller_store_url s) (seller_rating s)
    (seller_reviews s) (seller_since s) v (shipped_by s) (sold_by s)
    (seller_description s) (seller_id s) (is_amazon s)
    (is_fulfilled_by_amazon s) (lifetime_rating s) (lifetime_reviews s).
Definition set_shipped_by (v : pyval) (s : SellerInfo) : SellerInfo :=
  mkSellerInfo (seller_name s) (seller_store_url s) (seller_rating s)
    (seller_reviews s) (seller_since s) (positive_feedback s) v (sold_by s)
    (seller_description s) (seller_id s) (is_amazon s)
    (is_fulfilled_by_amazon s) (lifetime_rating s) (lifetime_reviews s).
Definition set_sold_by (v : pyval) (s : SellerInfo) : SellerInfo :=
  mkSellerInfo (seller_name s) (seller_store_url s) (seller_rating s)
    (seller_reviews s) (seller_since s) (positive_feedback s) (shipped_by s) v
    (seller_description s) (seller_id s) (is_amazon s)
    (is_fulfilled_by_amazon s) (lifetime_rating s) (lifetime_reviews s).
Definition set_seller_id (v : pyval) (s : SellerInfo) : SellerInfo :=
  mkSellerInfo (seller_name s) (seller_store_url s) (seller_rating s)
    (seller_reviews s) (seller_since s) (positive_feedback s) (shipped_by s)
    (sold_by s) (seller_description s) v (is_amazon s)
    (is_fulfilled_by_amazon s) (lifetime_rating s) (lifetime_reviews s).
Definition set_is_amazon (b : bool) (s : SellerInfo) : SellerInfo :=
  mkSellerInfo (seller_name s) (seller_store_url s) (seller_rating s)
    (seller_reviews s) (seller_since s) (positive_feedback s) (shipped_by s)
    (sold_by s) (seller_description s) (seller_id s) b
    (is_fulfilled_by_amazon s) (lifetime_rating s) (lifetime_reviews s).
Definition set_is_fulfilled_by_amazon (b : bool) (s : SellerInfo)
    : SellerInfo :=
  mkSellerInfo (seller_name s) (seller_store_url s) (seller_rating s)
    (seller_reviews s) (seller_since s) (positive_feedback s) (shipped_by s)
    (sold_by s) (seller_description s) (seller_id s) (is_amazon s) b
    (lifetime_rating s) (lifetime_reviews s).
Definition set_lifetime_rating (v : pyval) (s : SellerInfo) : SellerInfo :=
  mkSellerInfo (seller_name s) (seller_store_url s) (seller_rating s)
    (seller_reviews s) (seller_since s) (positive_feedback s) (shipped_by s)
    (sold_by s) (seller_description s) (seller_id s) (is_amazon s)
    (is_fulfilled_by_amazon s) v (lifetime_reviews s).
Definition set_lifetime_reviews (v : pyval) (s : SellerInfo) : SellerInfo :=
  mkSellerInfo (seller_name s) (seller_store_url s) (seller_rating s)
    (seller_reviews s) (seller_since s) (positive_feedback s) (shipped_by s)
    (sold_by s) (seller_description s) (seller_id s) (is_amazon s)
    (is_fulfilled_by_amazon s) (lifetime_rating s) v.

Record Product : Type := mkProduct {
  title : string;
  brand : string;
  price : string;
  rating : string;
  reviews : string;
  description : string;
  images : list string;
  image_count : nat;
  seller_details : SellerInfo
}.

(** [Product.__init__] *)
Definition Product_init (title brand price rating reviews description : string)
    (images : list string) (seller_info : SellerInfo) : Product :=
  mkProduct title brand price rating reviews description images
            (List.length images) seller_info.

(** [f"{v}"] *)
Definition py_format (v : pyval) : string :=
  match v with PNone => "None" | PStr s => s end.

(** [v[:n]]; [None] is not subscriptable. *)
Definition py_take (n : nat) (v : pyval) : option string :=
  match v with PNone => None | PStr s => Some (Str.take n s) end.

Definition nl : string := String Char.LF EmptyString.

(** [print(s)]: one more line on the standard output. *)
Definition print (s : string) : Exn (list string) unit :=
  modify (fun out => (out ++ [s])%list).

Local Open Scope exn_scope.

(** The labels of the lines that [display_seller_details] prints under a
    condition. *)
Definition L_seller_rating : string := "    Seller Rating: ".
Definition L_seller_reviews : string := "    Seller Reviews: ".
Definition L_lifetime_rating : string := "    Lifetime Rating: ".
Definition L_lifetime_reviews : string := "    Lifetime Reviews: ".
Definition L_seller_since : string := nl ++ "  Seller Since: ".
Definition L_positive_feedback : string := "  Positive Feedback: ".
Definition L_shipped_by : string := "  Shipped By: ".
Definition L_sold_by : string := "  Sold By: ".
Definition L_seller_description : string := "  Seller Description: ".

(** [Product.display_seller_details] *)
Definition display_seller_details (self : Product) : Exn (list string) unit :=
  let d := seller_details self in
  print (nl ++ " Seller Details:") ;;
  print ("  Seller Name: " ++ py_format (seller_name d)) ;;
  print ("  Seller Store URL: " ++ py_format (seller_store_url d)) ;;
  print (nl ++ "  12-Month Performance:") ;;
  when (negb (py_eq (seller_rating d) "Not found"))
    (print (L_seller_rating ++ py_format (seller_rating d) ++ "/5")) ;;
  when (negb (py_eq (seller_reviews d) "Not found"))
    (print (L_seller_reviews ++ py_format (seller_reviews d))) ;;
  print (nl ++ "  Lifetime Performance:") ;;
  when (negb (py_eq (lifetime_rating d) "Not found"))
    (print (L_lifetime_rating ++ py_format (lifetime_rating d) ++ "/5")) ;;
  when (negb (py_eq (lifetime_reviews d) "Not found"))
    (print (L_lifetime_reviews ++ py_format (lifetime_reviews d))) ;;
  when (negb (py_eq (seller_since d) "Not found"))
    (print (L_seller_since ++ py_format (seller_since d))) ;;
  when (negb (py_eq (positive_feedback d) "Not found"))
    (print (L_positive_feedback ++ py_format (positive_feedback d))) ;;
  when (negb (py_eq (shipped_by d) "Not found"))
    (print (L_shipped_by ++ py_format (shipped_by d))) ;;
  when (negb (py_eq (sold_by d) "Not found"))
    (print (L_sold_by ++ py_format (sold_by d))) ;;
  when (negb (py_eq (seller_description d) "Not found"))
    (t <- lift (py_take 100 (seller_description d)) ;;
     print (L_seller_description ++ t ++ "...")).

(** [Product.display] *)
Definition display (self : Product) : Exn (list string) unit :=
  print (nl ++ " Successfully scraped!") ;;
  print ("Title: " ++ Str.take 50 (title self) ++ "...") ;;
  print ("Brand: " ++ brand self) ;;
  print ("Price: " ++ price self) ;;
  print ("Rating: " ++ rating self) ;;
  print ("Reviews: " ++ reviews self) ;;
  print ("Images: " ++ Float.str_nat (Z.of_nat (image_count self)) ++ " found") ;;
  display_seller_details self.

(** The lines a call prints (up to the exception, when it raises one). *)
Definition stdout_of (m : Exn (list string) unit) : list string :=
  snd (m []).

(** Some printed line starts with [label]. *)
Definition shows (label : string) (out : list string) : bool :=
  existsb (Str.startswith label) out.

Local Close Scope exn_scope.

(* ================================================================= *)
(** * utils.py, continued: URLs and the exchange rate *)

Module Url.

(** [s.split(sep, 1)[1]]: the text after the first occurrence of [sep]
    (empty when there is none). *)
Fixpoint after (sep s : string) : string :=
  if Str.startswith sep s then Str.drop (String.length sep) s
  else match s with
       | EmptyString => EmptyString
       | String _ s' => after sep s'
       end.

(** [s.split(c)] for a one-character separator *)
Fixpoint split_on (c : char) (s : string) : list string :=
  match s with
  | EmptyString => [EmptyString]
  | String a s' =>
      if Char.eqb a c then EmptyString :: split_on c s'
      else match split_on c s' with
           | w :: l => String a w :: l
           | [] => [String a EmptyString]
           end
  end.

(** [urlsplit] drops TAB, CR and LF from the text. *)
Fixpoint remove_unsafe (s : string) : string :=
  match s with
  | EmptyString => EmptyString
  | String c s' =>
      if Char.eqb c Char.TAB || Char.eqb c Char.LF || Char.eqb c Char.CR
      then remove_unsafe s' else String c (remove_unsafe s')
  end.

(** [urlparse(url).query]: what stands between the first [?] and the
    first [#]. *)
Definition query_of (url : string) : string :=
  let u := Str.before "#" (remove_unsafe url) in
  if Str.contains "?" u then after "?" u else "".

Section WithHost.
Variable h : Host.

(** [parse_qs(qs)], as the list of its (name, value) pairs in order:
    fields are separated by [&], a field without [=] or with a blank
    value is dropped, [+] reads as a space and both parts are unquoted. *)
Definition parse_field (name_value : string) : list (string * string) :=
  if Str.is_empty name_value then []
  else if negb (Str.contains "=" name_value) then []
  else
    let n := Str.before "=" name_value in
    let v := after "=" name_value in
    if Str.is_empty v then []
    else [(unquote h (Str.replace "+" " " n),
           unquote h (Str.replace "+" " " v))].

Definition parse_qs (qs : string) : list (string * string) :=
  flat_map parse_field (split_on "&" qs).

(** [parse_qs(qs).get(k, [None])[0]] *)
Fixpoint first_value (k : string) (l : list (string * string)) : pyval :=
  match l with
  | [] => PNone
  | (n, v) :: l' => if String.eqb n k then PStr v else first_value k l'
  end.

End WithHost.
End Url.

Section Utils.
Variable h : Host.

(** [get_seller_id_from_url]:
    try: query_params = parse_qs(urlparse(url).query)
         return query_params.get('seller', [None])[0]
    except: return None *)
Definition get_seller_id_from_url (url : string) : pyval :=
  if urlparse_rejects h url then PNone
  else Url.first_value "seller" (Url.parse_qs h (Url.query_of url)).

(** [get_live_exchange_rate]: [1 / pkr_per_usd], or the default when
    anything raises. *)
Definition get_live_exchange_rate : spec_float :=
  match rates_PKR h with
  | Some pkr_per_usd =>
      match Num.truediv (NInt 1) pkr_per_usd with
      | Some usd_per_pkr => usd_per_pkr
      | None => DEFAULT_EXCHANGE_RATE
      end
  | None => DEFAULT_EXCHANGE_RATE
  end.

End Utils.

(* ================================================================= *)
(** * scraper.py *)

Section AmazonScraper.
Variable h : Host.

Local Open Scope exn_scope.

(** [get_text()], [get_text(strip=True)] and [get_text(' ', strip=True)] *)
Definition text (t : Tag) : string := get_text t "" false.
Definition text_strip (t : Tag) : string := get_text t "" true.
Definition text_sp_strip (t : Tag) : string := get_text t " " true.

(** [_extract_title] *)
Definition extract_title (soup : Tag) : string :=
  match find soup (QAttr "span" "id" "productTitle") with
  | Some title_elem => clean_text (PStr (text title_elem))
  | None => "Not found"
  end.

(** [_extract_brand] *)
Definition extract_brand (soup : Tag) : string :=
  match find soup (QAttr "a" "id" "bylineInfo") with
  | Some brand_elem => clean_text (PStr (text brand_elem))
  | None => "Not found"
  end.

(** The local variables of [_handle_currency_conversion]. *)
Record price_vars : Type := mkPriceVars {
  v_price : string;
  v_currency_symbol : string
}.

Definition RUPEE_SIGN : string := "₨".

(** The body of the [try] of [_handle_currency_conversion]. *)
Definition conversion_body : Exn price_vars unit :=
  let pkr_to_usd_rate := get_live_exchange_rate h in
  st <- get ;;
  price_float <- lift (Float.of_string (v_price st)) ;;
  let usd_price := Float.mul price_float pkr_to_usd_rate in
  modify (fun st => mkPriceVars (Float.format_fixed 2 usd_price)
                                (v_currency_symbol st)) ;;
  modify (fun st => mkPriceVars (v_price st) "$").

(** [_handle_currency_conversion] *)
Definition handle_currency_conversion (price currency_symbol : string)
    : string * string :=
  let st := mkPriceVars price currency_symbol in
  let st :=
    if negb (String.eqb price "Not found") &&
       Str.mem currency_symbol ["PKR"; RUPEE_SIGN; "Rs"]
    then try_pass conversion_body st
    else st in
  (v_price st, v_currency_symbol st).

(** [_extract_price] *)
Definition hidden_price_of (soup : Tag) : option (string * string) :=
  match find soup (QAttr "div" "class"
          "a-section a-spacing-none aok-align-center aok-relative") with
  | Some price_div =>
      match find price_div (QAttr "span" "class" "aok-offscreen") with
      | Some hidden_price =>
          let price_text := text_strip hidden_price in
          let '(currency_symbol, price) := extract_currency price_text in
          if negb (String.eqb price "Not found")
          then Some (handle_currency_conversion price currency_symbol)
          else None
      | None => None
      end
  | None => None
  end.

Definition main_price_of (soup : Tag) : option (string * string) :=
  match find soup (QAttr "span" "class"
          "a-price aok-align-center reinventPricePriceToPayMargin priceToPay")
  with
  | Some main_price =>
      let currency_symbol :=
        match find main_price (QAttr "span" "class" "a-price-symbol") with
        | Some currency_elem => text_strip currency_elem
        | None => "$"
        end in
      match find main_price (QAttr "span" "class" "a-price-whole"),
            find main_price (QAttr "span" "class" "a-price-fraction") with
      | Some whole_part, Some fraction_part =>
          let whole := Str.replace "," "" (text_strip whole_part) in
          let whole :=
            if Str.contains "." whole then Str.replace "." "" whole
            else whole in
          let fraction := text_strip fraction_part in
          let price := (whole ++ "." ++ fraction)%string in
          Some (handle_currency_conversion price currency_symbol)
      | _, _ => None
      end
  | None => None
  end.

Definition extract_price (soup : Tag) : string * string :=
  match hidden_price_of soup with
  | Some r => r
  | None =>
      match main_price_of soup with
      | Some r => r
      | None => ("Not found", "$")
      end
  end.

(** The pattern [( \d+ \.? \d* )] (written here with blanks). *)
Definition number_re : Re.re :=
  Re.Group (Re.Seq (Re.plus true Re.digit)
                   (Re.Seq (Re.opt (Re.is_char ".")) (Re.Star true Re.digit))).

(** [_extract_rating] *)
Definition extract_rating (soup : Tag) : string :=
  let rating_text :=
    match find soup (QAttr "span" "class" "a-icon-alt") with
    | Some rating_elem => text_strip rating_elem
    | None => "Not found"
    end in
  match Re.search_group1 number_re rating_text with
  | Some g => g
  | None => "Not found"
  end.

(** [_extract_reviews] *)
Definition extract_reviews (soup : Tag) : string :=
  match find soup (QAttr "span" "id" "acrCustomerReviewText") with
  | Some reviews_elem => clean_text (PStr (text reviews_elem))
  | None => "Not found"
  end.

(** ** Images *)

Definition image_selectors : list string :=
  [ "#landingImage";
    "[data-old-hires]";
    ".a-dynamic-image";
    "img[data-a-dynamic-image]";
    "#imgTagWrapperId img" ].

(** The source URL of one [img] element:
    src = img.get('src') or img.get('data-src') or img.get('data-old-hires')
    and, when that is empty, the first key of the element's
    [data-a-dynamic-image] document. *)
Definition image_src (img : Tag) : pyval :=
  let src :=
    py_or (py_or (attr_get "src" (attrs img))
                 (attr_get "data-src" (attrs img)))
          (attr_get "data-old-hires" (attrs img)) in
  if negb (truthy src) && attr_has "data-a-dynamic-image" (attrs img) then
    match attr_get "data-a-dynamic-image" (attrs img) with
    | PStr raw =>
        match json_loads h raw with
        | Some img_data =>
            if json_truthy img_data then
              match img_data with
              | JObj ((k, _) :: _) => PStr k
              | _ => src                      (* no [keys]: the except *)
              end
            else src
        | None => src                         (* the except *)
        end
    | PNone => src
    end
  else src.

(** The rewriting of a URL that holds a size marker:
    base_url = src.split('._SL')[0]
    high_res = f"{base_url}._SL1500_" *)
Definition high_res (src : string) : string :=
  (Str.before "._SL" src ++ "._SL1500_")%string.

(** What [images.append] receives for an accepted [src]. *)
Definition image_url (src : string) : string :=
  if Str.contains "._SL" src then high_res src else src.

(** [if src and 'http' in src and src not in images] *)
Definition accepted (images : list string) (src : pyval) : bool :=
  match src with
  | PStr s => negb (Str.is_empty s) && Str.contains "http" s &&
              negb (Str.mem s images)
  | PNone => false
  end.

(** One turn of the inner loop of [_extract_images]. *)
Definition add_image (images : list string) (img : Tag) : list string :=
  let src := image_src img in
  if accepted images src then (images ++ [image_url (py_format src)])%list
  else images.

(** [_extract_images] *)
Definition extract_images (soup : Tag) : list string :=
  let images :=
    fold_left
      (fun images selector => fold_left add_image (select soup selector) images)
      image_selectors [] in
  Str.dedup images.

(** [_extract_description] *)
Definition extract_description (soup : Tag) : string :=
  let description :=
    match find soup (QAttr "div" "id" "productDescription") with
    | Some desc_elem => text_strip desc_elem
    | None => "Not found"
    end in
  Str.take 500 description.

(** ** Seller details *)

(** [sold by\s*(.+?)(?:\s*and|$)] and [shipped by\s*(.+?)(?:\s*and|$)],
    both under re.I. *)
Definition by_re (verb : string) : Re.re :=
  Re.Seq (Re.lit true verb)
    (Re.Seq (Re.Star true Re.space)
       (Re.Seq (Re.Group (Re.plus false Re.dot))
               (Re.Alt (Re.Seq (Re.Star true Re.space) (Re.lit true "and"))
                       Re.Eol))).
Definition sold_by_re : Re.re := by_re "sold by".
Definition shipped_by_re : Re.re := by_re "shipped by".

(** [Sold by:\s*(.+)] *)
Definition sold_by_colon_re : Re.re :=
  Re.Seq (Re.lit false "Sold by:")
         (Re.Seq (Re.Star true Re.space) (Re.Group (Re.plus true Re.dot))).

(** [(\d+\.?\d* )\s*out of] *)
Definition out_of_re : Re.re :=
  Re.Seq number_re (Re.Seq (Re.Star true Re.space) (Re.lit false "out of")).

(** [(\d+[\d,]* )] *)
Definition count_re : Re.re :=
  Re.Group (Re.Seq (Re.plus true Re.digit)
                   (Re.Star true (fun c => Re.digit c || Char.eqb c ","))).

(** [(\d+%)] *)
Definition percent_re : Re.re :=
  Re.Group (Re.Seq (Re.plus true Re.digit) (Re.lit false "%")).

(** [x or y] on the results of [find] (an element is always true) *)
Definition or_else {A} (x y : option A) : option A :=
  match x with Some _ => x | None => y end.

(** [_extract_seller_from_buybox] *)
Definition extract_seller_from_buybox (soup : Tag) (seller_info : SellerInfo)
    : SellerInfo :=
  let seller_section :=
    or_else (or_else (find soup (QAttr "div" "id" "merchant-info"))
                     (find soup (QAttr "div" "id" "sellerProfileTriggerId")))
            (find soup (QAttr "div" "id" "availability")) in
  match seller_section with
  | Some seller_section =>
      let seller_text := text_sp_strip seller_section in
      let seller_info :=
        match Re.search_group1 sold_by_re seller_text with
        | Some g =>
            let name := Str.strip g in
            let name := Str.strip (Re.sub_empty parens_re name) in
            let seller_info := set_sold_by (PStr name) seller_info in
            let seller_info := set_seller_name (PStr name) seller_info in
            set_is_amazon (Str.contains "amazon" (Str.lower name)) seller_info
        | None => seller_info
        end in
      match Re.search_group1 shipped_by_re seller_text with
      | Some g => set_shipped_by (PStr (Str.strip g)) seller_info
      | None => seller_info
      end
  | None => seller_info
  end.

(** The text of the seller profile link:
    if seller_link.get_text(strip=True): ... *)
Definition profile_link_name (seller_link : Tag) (seller_info : SellerInfo)
    : SellerInfo :=
  if negb (Str.is_empty (text_strip seller_link)) then
    let name := text_strip seller_link in
    let name := Str.strip (Re.sub_empty by_prefix_re name) in
    if py_eq (seller_name seller_info) "Not found" then
      set_sold_by (PStr name) (set_seller_name (PStr name) seller_info)
    else seller_info
  else seller_info.

(** The text of the store link: "Visit the ... Store". *)
Definition byline_store_name (store_link : Tag) (seller_info : SellerInfo)
    : SellerInfo :=
  let store_text := text_strip store_link in
  if Str.contains "Visit the" store_text &&
     Str.contains "Store" store_text then
    let store_name :=
      Str.strip (Str.replace "Store" ""
                   (Str.replace "Visit the" "" store_text)) in
    if negb (Str.is_empty store_name) &&
       py_eq (seller_name seller_info) "Not found"
    then set_seller_name (PStr store_name) seller_info
    else seller_info
  else seller_info.

(** [_extract_seller_from_links].  [urljoin] may raise; the assignments
    made before it stay. *)
Definition extract_seller_from_links (soup : Tag) : Exn SellerInfo unit :=
  match find soup (QAttr "a" "id" "sellerProfileTriggerId") with
  | Some seller_link =>
      modify (profile_link_name seller_link) ;;
      match attr_get "href" (attrs seller_link) with
      | PStr href =>
          seller_url <- lift (urljoin h BASE_URL href) ;;
          modify (set_seller_store_url (PStr seller_url)) ;;
          modify (set_seller_id (get_seller_id_from_url h seller_url))
      | PNone => ret tt
      end
  | None => ret tt
  end ;;
  match find soup (QAttr "a" "id" "bylineInfo") with
  | Some store_link =>
      modify (byline_store_name store_link) ;;
      match attr_get "href" (attrs store_link) with
      | PStr href =>
          store_url <- lift (urljoin h BASE_URL href) ;;
          seller_info <- get ;;
          when (py_eq (seller_store_url seller_info) "Not found")
            (modify (set_seller_store_url (PStr store_url)))
      | PNone => ret tt
      end
  | None => ret tt
  end.

(** [_extract_seller_feedback] *)
Definition extract_seller_feedback (soup : Tag) (seller_info : SellerInfo)
    : SellerInfo :=
  match find soup (QAttrRe "a" "href" "feedback") with
  | Some feedback_link =>
      let feedback_text := text_strip feedback_link in
      let seller_info :=
        match Re.search_group1 out_of_re feedback_text with
        | Some g => set_seller_rating (PStr g) seller_info
        | None => seller_info
        end in
      match Re.search_group1 count_re feedback_text with
      | Some g => set_seller_reviews (PStr g) seller_info
      | None => seller_info
      end
  | None => seller_info
  end.

(** One turn of the loop over the detail bullets. *)
Definition detail_bullet (seller_info : SellerInfo) (bullet : Tag)
    : SellerInfo :=
  let bullet_text := text_strip bullet in
  if Str.contains "Sold by:" bullet_text then
    match Re.search_group1 sold_by_colon_re bullet_text with
    | Some g =>
        let seller_info := set_sold_by (PStr (Str.strip g)) seller_info in
        if py_eq (seller_name seller_info) "Not found"
        then set_seller_name (sold_by seller_info) seller_info
        else seller_info
    | None => seller_info
    end
  else seller_info.

(** ** The seller page *)

(** The decoded [a-state] scripts that hold rating data, numbered from 1:
    the loop that fills [script_data_list]. *)
Fixpoint collect_scripts (i : nat) (scripts : list Tag)
    : list (nat * json) :=
  match scripts with
  | [] => []
  | script :: rest =>
      let found :=
        if truthy (tag_string script) then
          let script_content := Str.strip (py_format (tag_string script)) in
          if Str.contains "ratingCount" script_content &&
             Str.contains "star5" script_content then
            match json_loads h script_content with
            | Some data => [(i + 1, data)]
            | None => []
            end
          else []
        else [] in
      (found ++ collect_scripts (S i) rest)%list
  end.

(** [data.get(k, 0)]; a value that is no [dict] has no [get]
    (AttributeError). *)
Definition get_or_zero (k : string) (data : json) : option json :=
  match data with
  | JObj m => Some (match dict_get k m with Some v => v | None => JInt 0 end)
  | _ => None
  end.

(** [data.get(k, 0)] read as a number, as the comparisons and the
    arithmetic of the code need it (TypeError otherwise). *)
Definition number_at (k : string) (data : json) : option pynum :=
  match get_or_zero k data with
  | Some v => as_num v
  | None => None
  end.

(** The first loop over [script_data_list], which only reads
    [ratingCount] and [star5] of every fragment. *)
Fixpoint read_fragments (l : list (nat * json)) : option unit :=
  match l with
  | [] => Some tt
  | (_, data) :: l' =>
      match get_or_zero "ratingCount" data, get_or_zero "star5" data with
      | Some _, Some _ => read_fragments l'
      | _, _ => None
      end
  end.

(** The search for the 12-month record:
    for script_num, data in script_data_list:
        rating_count = data.get('ratingCount', 0)
        if 400 <= rating_count <= 500: twelve_month_data = data; break *)
Fixpoint twelve_month_loop (l : list (nat * json)) : option (option json) :=
  match l with
  | [] => Some None
  | (_, data) :: l' =>
      match number_at "ratingCount" data with
      | Some rating_count =>
          if Num.le (NInt 400) rating_count && Num.le rating_count (NInt 500)
          then Some (Some data)
          else twelve_month_loop l'
      | None => None
      end
  end.

Definition select_twelve_month (script_data_list : list (nat * json))
    : option (option json) :=
  match script_data_list with
  | [] => Some None
  | _ :: _ => twelve_month_loop script_data_list
  end.

(** [max(l, key=lambda x: x[1].get('ratingCount', 0))]: the first item
    whose key no later key exceeds.  A key that is no number makes a
    comparison of [max], or the test against 500 that follows, raise
    TypeError. *)
Fixpoint max_loop (best : nat * json) (best_key : pynum)
    (l : list (nat * json)) : option (nat * json) :=
  match l with
  | [] => Some best
  | x :: l' =>
      match number_at "ratingCount" (snd x) with
      | Some k => if Num.gt k best_key then max_loop x k l'
                  else max_loop best best_key l'
      | None => None
      end
  end.

Definition max_by_rating_count (l : list (nat * json))
    : option (nat * json) :=
  match l with
  | [] => None                               (* ValueError: empty *)
  | x :: l' =>
      match number_at "ratingCount" (snd x) with
      | Some k => max_loop x k l'
      | None => None
      end
  end.

(** The choice of the lifetime record:
    max_data = max(script_data_list, key=...)
    if max_data[1].get('ratingCount', 0) > 500: lifetime_data = max_data[1] *)
Definition select_lifetime (script_data_list : list (nat * json))
    : option (option json) :=
  match script_data_list with
  | [] => Some None
  | _ :: _ =>
      match max_by_rating_count script_data_list with
      | Some max_data =>
          match number_at "ratingCount" (snd max_data) with
          | Some n => if Num.gt n (NInt 500) then Some (Some (snd max_data))
                      else Some None
          | None => None
          end
      | None => None
      end
  end.

(** [str(v)] *)
Definition py_str (v : json) : string :=
  match v with
  | JNull => "None"
  | JBool b => if b then "True" else "False"
  | JInt z => Float.str_int z
  | JStr s => s
  | _ => py_repr h v
  end.

(** [star5 * 5 + star4 * 4 + star3 * 3 + star2 * 2 + star1 * 1] and
    [star5 + star4 + star3 + star2 + star1]; [None] when an operation
    raises. *)
Definition and_then {A B} (o : option A) (f : A -> option B) : option B :=
  match o with Some a => f a | None => None end.

Definition weighted_sum (star5 star4 star3 star2 star1 : pynum)
    : option pynum :=
  and_then (Num.mul star5 (NInt 5)) (fun t5 =>
  and_then (Num.mul star4 (NInt 4)) (fun t4 =>
  and_then (Num.add t5 t4) (fun s54 =>
  and_then (Num.mul star3 (NInt 3)) (fun t3 =>
  and_then (Num.add s54 t3) (fun s543 =>
  and_then (Num.mul star2 (NInt 2)) (fun t2 =>
  and_then (Num.add s543 t2) (fun s5432 =>
  and_then (Num.mul star1 (NInt 1)) (fun t1 =>
  Num.add s5432 t1)))))))).

Definition total_percent (star5 star4 star3 star2 star1 : pynum)
    : option pynum :=
  and_then (Num.add star5 star4) (fun s54 =>
  and_then (Num.add s54 star3) (fun s543 =>
  and_then (Num.add s543 star2) (fun s5432 =>
  Num.add s5432 star1))).

(** The rating that a record yields: [Some (Some r)] when it is computed,
    [Some None] when the total is not above zero, [None] when the
    computation raises (a value that is no number, an overflow).
      if total_percent > 0:
          avg_rating = weighted_sum / total_percent
          f"{avg_rating:.1f}" *)
Definition average_rating (data : json) : option (option string) :=
  match number_at "star5" data, number_at "star4" data,
        number_at "star3" data, number_at "star2" data,
        number_at "star1" data with
  | Some star5, Some star4, Some star3, Some star2, Some star1 =>
      match weighted_sum star5 star4 star3 star2 star1,
            total_percent star5 star4 star3 star2 star1 with
      | Some ws, Some tp =>
          if Num.gt tp (NInt 0) then
            match Num.truediv ws tp with
            | Some avg_rating => Some (Some (Float.format_fixed 1 avg_rating))
            | None => None
            end
          else Some None
      | _, _ => None
      end
  | _, _, _, _, _ => None
  end.

Definition has_key (k : string) (data : json) : bool :=
  match data with JObj m => dict_has k m | _ => false end.

(** The block [if twelve_month_data: ...] *)
Definition process_twelve_month (twelve_month_data : option json)
    : Exn SellerInfo unit :=
  match twelve_month_data with
  | Some data =>
      when (json_truthy data)
        (when (has_key "ratingCount" data)
           (v <- lift (get_or_zero "ratingCount" data) ;;
            modify (set_seller_reviews (PStr (py_str v)))) ;;
         when (has_key "star5" data)
           (r <- lift (average_rating data) ;;
            match r with
            | Some s => modify (set_seller_rating (PStr s))
            | None => ret tt
            end))
  | None => ret tt
  end.

(** The block [if lifetime_data: ...] *)
Definition process_lifetime (lifetime_data : option json)
    : Exn SellerInfo unit :=
  match lifetime_data with
  | Some data =>
      when (json_truthy data)
        (when (has_key "ratingCount" data)
           (v <- lift (get_or_zero "ratingCount" data) ;;
            modify (set_lifetime_reviews (PStr (py_str v)))) ;;
         when (has_key "star5" data)
           (r <- lift (average_rating data) ;;
            match r with
            | Some s => modify (set_lifetime_rating (PStr s))
            | None => ret tt
            end))
  | None => ret tt
  end.

(** The text of an element when the element exists and the text is not
    empty. *)
Definition nonempty_text (t : option Tag) : option string :=
  match t with
  | Some e => let s := text_strip e in
              if Str.is_empty s then None else Some s
  | None => None
  end.

(** Override (a): the [rating-year] element. *)
Definition override_rating_year (soup : Tag) (seller_info : SellerInfo)
    : SellerInfo :=
  match find soup (QAttr "div" "id" "rating-year") with
  | Some rating_year_div =>
      match nonempty_text
              (find rating_year_div (QAttr "span" "class" "ratings-reviews"))
      with
      | Some correct_rating => set_seller_rating (PStr correct_rating) seller_info
      | None => seller_info
      end
  | None => seller_info
  end.

(** [v in ["4.9", "Not found"]] *)
Definition is_unset_or_4_9 (v : pyval) : bool :=
  py_eq v "4.9" || py_eq v "Not found".

(** Override (b): the effective-period element. *)
Definition override_effective_period (soup : Tag) (seller_info : SellerInfo)
    : SellerInfo :=
  if is_unset_or_4_9 (seller_rating seller_info) then
    match nonempty_text
            (find soup (QAttr "span" "id"
                          "effective-timeperiod-rating-year-description"))
    with
    | Some correct_rating => set_seller_rating (PStr correct_rating) seller_info
    | None => seller_info
    end
  else seller_info.

(** Override (c): the review count of the last 365 days. *)
Definition override_review_count (soup : Tag) (seller_info : SellerInfo)
    : SellerInfo :=
  if py_eq (seller_reviews seller_info) "Not found" then
    match find soup (QAttr "div" "id" "rating-365d-num") with
    | Some rating_num_div =>
        match find rating_num_div
                (QAttr "span" "class" "ratings-reviews-count") with
        | Some count_span =>
            set_seller_reviews (PStr (text_strip count_span)) seller_info
        | None => seller_info
        end
    | None => seller_info
    end
  else seller_info.

(** The positive-feedback percentage. *)
Definition extract_positive_feedback (soup : Tag) (seller_info : SellerInfo)
    : SellerInfo :=
  match find soup (QAttr "span" "id" "percentFiveStar") with
  | Some five_star_percent =>
      set_positive_feedback (PStr (text_strip five_star_percent)) seller_info
  | None =>
      if negb (truthy (positive_feedback seller_info)) then
        match find_string soup "\d+%\s*positive" with
        | Some percentage_elem =>
            if Str.is_empty percentage_elem then seller_info
            else
              match Re.search_group1 percent_re percentage_elem with
              | Some g => set_positive_feedback (PStr g) seller_info
              | None => seller_info
              end
        | None => seller_info
        end
      else seller_info
  end.

(** The body of the [try] of [_scrape_seller_page]. *)
Definition scrape_seller_page_body : Exn SellerInfo unit :=
  seller_info <- get ;;
  url <- lift (match seller_store_url seller_info with
               | PStr u => Some u
               | PNone => None
               end) ;;
  response <- lift (http_get h url) ;;
  when (status_code response =? 200)%Z
    (let soup := soup response in
     let scripts := find_all soup (QAttr "script" "type" "a-state") in
     let script_data_list := collect_scripts 0 scripts in
     lift (read_fragments script_data_list) ;;
     twelve_month_data <- lift (select_twelve_month script_data_list) ;;
     lifetime_data <- lift (select_lifetime script_data_list) ;;
     process_twelve_month twelve_month_data ;;
     process_lifetime lifetime_data ;;
     modify (override_rating_year soup) ;;
     modify (override_effective_period soup) ;;
     modify (override_review_count soup) ;;
     modify (extract_positive_feedback soup)).

(** [_scrape_seller_page]: any exception ends the step and keeps what was
    assigned before it. *)
Definition scrape_seller_page (seller_info : SellerInfo) : SellerInfo :=
  try_pass scrape_seller_page_body seller_info.

(** The stages of [_extract_seller_details] that the source writes in
    line. *)

(** [if fba_elements: seller_info.is_fulfilled_by_amazon = True] *)
Definition check_fulfilled_by_amazon (soup : Tag) (seller_info : SellerInfo)
    : SellerInfo :=
  match find_all_string soup "fulfilled.*amazon|amazon.*fulfilled" true with
  | [] => seller_info
  | _ :: _ => set_is_fulfilled_by_amazon true seller_info
  end.

(** The badge together with a span whose text is "Amazon.com". *)
Definition check_amazon_badge (soup : Tag) (seller_info : SellerInfo)
    : SellerInfo :=
  match find soup (QAttr "span" "class" "ac-badge-rectangle") with
  | Some _ =>
      match find soup (QStringRe "span" "^Amazon\.com$" true) with
      | Some _ =>
          set_is_amazon true
            (set_shipped_by (PStr "Amazon.com")
               (set_sold_by (PStr "Amazon.com")
                  (set_seller_name (PStr "Amazon.com") seller_info)))
      | None => seller_info
      end
  | None => seller_info
  end.

(** The detail bullets. *)
Definition extract_detail_bullets (soup : Tag) (seller_info : SellerInfo)
    : SellerInfo :=
  match find soup (QAttr "div" "id" "detailBullets_feature_div") with
  | Some details_section =>
      fold_left detail_bullet (find_all details_section (QName "li"))
                seller_info
  | None => seller_info
  end.

(** [if seller_info.seller_store_url != "Not found" and
        not seller_info.is_amazon: self._scrape_seller_page(seller_info)] *)
Definition scrape_seller_page_if_any (seller_info : SellerInfo) : SellerInfo :=
  if negb (py_eq (seller_store_url seller_info) "Not found") &&
     negb (is_amazon seller_info)
  then scrape_seller_page seller_info
  else seller_info.

(** The final cleaning of [seller_name] and [sold_by]. *)
Definition clean_names (seller_info : SellerInfo) : SellerInfo :=
  let seller_info :=
    set_seller_name (clean_seller_name (seller_name seller_info)) seller_info in
  set_sold_by (clean_seller_name (sold_by seller_info)) seller_info.

(** The body of the [try] of [_extract_seller_details].  Of its
    statements the links stage alone may raise: the seller page step
    catches its exceptions itself. *)
Definition extract_seller_details_body (soup : Tag) : Exn SellerInfo unit :=
  modify (check_fulfilled_by_amazon soup) ;;
  modify (check_amazon_badge soup) ;;
  modify (extract_seller_from_buybox soup) ;;
  extract_seller_from_links soup ;;
  modify (extract_seller_feedback soup) ;;
  modify (extract_detail_bullets soup) ;;
  modify scrape_seller_page_if_any ;;
  modify clean_names.

(** [_extract_seller_details]: an exception ends the extraction, and the
    record is returned as it was filled in until then. *)
Definition extract_seller_details (soup : Tag) (product_url : string)
    : SellerInfo :=
  try_pass (extract_seller_details_body soup) SellerInfo_init.

(** [scrape]: [None] when the request raises or the status is not 200. *)
Definition scrape (url : string) : option Product :=
  match http_get h url with
  | Some response =>
      if negb (status_code response =? 200)%Z then None
      else
        let soup := soup response in
        let title := extract_title soup in
        let brand := extract_brand soup in
        let '(price, currency_symbol) := extract_price soup in
        let rating := extract_rating soup in
        let reviews := extract_reviews soup in
        let images := extract_images soup in
        let description := extract_description soup in
        let seller_info := extract_seller_details soup url in
        Some (Product_init title brand
                (if negb (String.eqb price "Not found")
                 then currency_symbol ++ price else "Not found")
                (if negb (String.eqb rating "Not found")
                 then rating ++ "/5" else "Not found")
                reviews description
                (firstn MAX_IMAGES images)
                seller_info)
  | None => None
  end.

End AmazonScraper.

(* ================================================================= *)
(** * Concrete hosts and documents *)

Module Example.

(** A host without network: every request fails.  Its [urljoin] and
    [unquote] are the library's on the inputs used below (references that
    start with a slash, texts without a percent sign). *)
Definition offline : Host :=
  {| urljoin := fun base url => Some (base ++ url);
     urlparse_rejects := fun _ => false;
     unquote := fun s => s;
     json_loads := fun _ => None;
     py_repr := fun _ => "";
     http_get := fun _ => None;
     rates_PKR := None |}.

(** An element without children: its text and its attributes. *)
Definition leaf (t : string) (a : list (string * string)) : Tag :=
  {| get_text := fun _ _ => t;
     tag_string := PStr t;
     attrs := a;
     find_all := fun _ => [];
     find_all_string := fun _ _ => [];
     select := fun _ => [] |}.

Definition query_eqb (p q : query) : bool :=
  match p, q with
  | QAttr n a v, QAttr n' a' v' =>
      String.eqb n n' && String.eqb a a' && String.eqb v v'
  | QAttrRe n a v, QAttrRe n' a' v' =>
      String.eqb n n' && String.eqb a a' && String.eqb v v'
  | QStringRe n v i, QStringRe n' v' i' =>
      String.eqb n n' && String.eqb v v' && Bool.eqb i i'
  | QName n, QName n' => String.eqb n n'
  | _, _ => false
  end.

Fixpoint lookup {A} (eqb : A -> A -> bool) {B} (k : A) (l : list (A * list B))
    : list B :=
  match l with
  | [] => []
  | (k', v) :: l' => if eqb k k' then v else lookup eqb k l'
  end.

(** A document given by the answers of [find_all] and of [select]. *)
Definition document (finds : list (query * list Tag))
    (selects : list (string * list Tag)) : Tag :=
  {| get_text := fun _ _ => "";
     tag_string := PNone;
     attrs := [];
     find_all := fun q => lookup query_eqb q finds;
     find_all_string := fun _ _ => [];
     select := fun css => lookup String.eqb css selects |}.

(** A host that serves one document at every address. *)
Definition serving (page : Tag) : Host :=
  {| urljoin := fun base url => Some (base ++ url);
     urlparse_rejects := fun _ => false;
     unquote := fun s => s;
     json_loads := fun _ => None;
     py_repr := fun _ => "";
     http_get := fun _ => Some (mkResponse 200 page);
     rates_PKR := None |}.

End Example.

(* ================================================================= *)
(** * Properties of [clean_text] *)

Module CleanText.
Import Str.

(** A text without white space. *)
Fixpoint no_space (s : string) : bool :=
  match s with
  | EmptyString => true
  | String c s' => negb (isspace c) && no_space s'
  end.

(** A word: a non-empty text without white space. *)
Definition word (s : string) : Prop := is_empty s = false /\ no_space s = true.

(** The characters of a text that are not white space. *)
Fixpoint letters (s : string) : string :=
  match s with
  | EmptyString => EmptyString
  | String c s' => if isspace c then letters s' else String c (letters s')
  end.

(** A tidy text: every white-space character is one SPACE that stands
    between two characters that are not white space. *)
Fixpoint tidy_from (after_space : bool) (s : string) : bool :=
  match s with
  | EmptyString => negb after_space
  | String c s' =>
      if isspace c
      then Char.eqb c " " && negb after_space && tidy_from true s'
      else tidy_from false s'
  end.

Definition tidy (s : string) : bool :=
  match s with
  | EmptyString => true
  | String _ _ => tidy_from true s
  end.

Lemma append_empty_r (s : string) : s ++ "" = s.
Proof. induction s as [|c s IH]; simpl; [reflexivity | now rewrite IH]. Qed.

Lemma append_assoc (a b c : string) : (a ++ b) ++ c = a ++ (b ++ c).
Proof. induction a as [|x a IH]; simpl; [reflexivity | now rewrite IH]. Qed.

Lemma is_empty_app (a b : string) :
  is_empty (a ++ b) = is_empty a && is_empty b.
Proof. destruct a; reflexivity. Qed.

Lemma no_space_app (a b : string) :
  no_space (a ++ b) = no_space a && no_space b.
Proof.
  induction a as [|c a IH]; simpl; [reflexivity|].
  rewrite IH. now rewrite andb_assoc.
Qed.

(** Reading a run without white space extends the current word. *)
Lemma split_acc_run (u : string) :
  no_space u = true ->
  forall w rest, split_acc w (u ++ rest) = split_acc (w ++ u) rest.
Proof.
  induction u as [|c u IH]; intros Hu w rest; simpl.
  - now rewrite append_empty_r.
  - simpl in Hu. apply andb_prop in Hu as [Hc Hu].
    apply negb_true_iff in Hc. rewrite Hc.
    rewrite (IH Hu). now rewrite append_assoc.
Qed.

Lemma split_acc_words (s : string) :
  forall w, no_space w = true -> Forall word (split_acc w s).
Proof.
  induction s as [|c s IH]; intros w Hw; simpl.
  - destruct (is_empty w) eqn:E; constructor; [split; assumption | constructor].
  - destruct (isspace c) eqn:Hc.
    + destruct (is_empty w) eqn:E.
      * now apply IH.
      * constructor; [split; assumption | now apply IH].
    + apply IH. rewrite no_space_app, Hw. simpl. now rewrite Hc.
Qed.

Lemma split_words (s : string) : Forall word (split s).
Proof. now apply split_acc_words. Qed.

(** [split] undoes [join] on words. *)
Lemma split_join (ws : list string) :
  Forall word ws -> split (join " " ws) = ws.
Proof.
  unfold split. induction ws as [|w ws IH]; intros H; [reflexivity|].
  inversion H as [|? ? [Hne Hns] Hws]; subst.
  destruct ws as [|w' ws].
  - simpl. rewrite <- (append_empty_r w) at 1.
    rewrite (split_acc_run w Hns). simpl. now rewrite Hne.
  - change (join " " (w :: w' :: ws)) with (w ++ " " ++ join " " (w' :: ws)).
    rewrite (split_acc_run w Hns). simpl. rewrite Hne.
    f_equal. now apply IH.
Qed.

Lemma split_acc_lstrip (s : string) :
  split_acc "" (lstrip s) = split_acc "" s.
Proof.
  induction s as [|c s IH]; [reflexivity|].
  simpl. destruct (isspace c) eqn:Hc; [exact IH|].
  simpl. now rewrite Hc.
Qed.

Lemma split_acc_rstrip (s : string) :
  forall w, split_acc w (rstrip s) = split_acc w s.
Proof.
  induction s as [|c s IH]; intros w; [reflexivity|].
  simpl. destruct (isspace c) eqn:Hc; simpl.
  - destruct (is_empty (rstrip s)) eqn:E.
    + destruct (rstrip s) eqn:R; [|discriminate].
      simpl. rewrite <- (IH ""). simpl.
      now destruct (is_empty w).
    + simpl. rewrite Hc. now rewrite !IH.
  - rewrite Hc. apply IH.
Qed.

(** [strip] before [split] changes nothing. *)
Lemma split_strip (s : string) : split (strip s) = split s.
Proof.
  unfold split, strip. now rewrite split_acc_rstrip, split_acc_lstrip.
Qed.

Lemma lstrip_word_start (w rest : string) :
  word w -> lstrip (w ++ rest) = w ++ rest.
Proof.
  intros [Hne Hns]. destruct w as [|c w]; [discriminate|].
  simpl in *. apply andb_prop in Hns as [Hc _].
  apply negb_true_iff in Hc. now rewrite Hc.
Qed.

Lemma rstrip_no_space (s : string) : no_space s = true -> rstrip s = s.
Proof.
  induction s as [|c s IH]; intros H; [reflexivity|].
  simpl in *. apply andb_prop in H as [Hc Hs].
  apply negb_true_iff in Hc. rewrite Hc. simpl. now rewrite IH.
Qed.

Lemma rstrip_app (a b : string) :
  rstrip b = b -> is_empty b = false -> rstrip (a ++ b) = a ++ b.
Proof.
  intros Hb Hne. induction a as [|c a IH]; [exact Hb|].
  simpl. rewrite IH, is_empty_app, Hne, andb_false_r, andb_false_r.
  reflexivity.
Qed.

Lemma join_cons2 (sep w w' : string) (ws : list string) :
  join sep (w :: w' :: ws) = w ++ sep ++ join sep (w' :: ws).
Proof. reflexivity. Qed.

Lemma join_nonempty (w : string) (ws : list string) :
  Forall word (w :: ws) -> is_empty (join " " (w :: ws)) = false.
Proof.
  intros H. inversion H as [|? ? [Hne _] _]; subst.
  destruct ws; simpl; [assumption|].
  now rewrite is_empty_app, Hne.
Qed.

Lemma rstrip_join (ws : list string) :
  Forall word ws -> rstrip (join " " ws) = join " " ws.
Proof.
  induction ws as [|w ws IH]; intros H; [reflexivity|].
  inversion H as [|? ? [Hne Hns] Hws]; subst.
  destruct ws as [|w' ws].
  - simpl. now apply rstrip_no_space.
  - rewrite join_cons2. rewrite <- append_assoc.
    apply rstrip_app; [now apply IH | now apply join_nonempty].
Qed.

Lemma lstrip_join (ws : list string) :
  Forall word ws -> lstrip (join " " ws) = join " " ws.
Proof.
  intros H. destruct ws as [|w ws]; [reflexivity|].
  inversion H as [|? ? Hw Hws]; subst.
  destruct ws as [|w' ws].
  - simpl. rewrite <- (append_empty_r w). now apply lstrip_word_start.
  - rewrite join_cons2. now apply lstrip_word_start.
Qed.

Lemma strip_join (ws : list string) :
  Forall word ws -> strip (join " " ws) = join " " ws.
Proof.
  intros H. unfold strip. rewrite lstrip_join by assumption.
  now apply rstrip_join.
Qed.

Lemma tidy_from_run (w : string) :
  word w -> forall b rest, tidy_from b (w ++ rest) = tidy_from false rest.
Proof.
  intros [Hne Hns]. induction w as [|c w IH]; [discriminate|].
  intros b rest. simpl in *. apply andb_prop in Hns as [Hc Hs].
  apply negb_true_iff in Hc. rewrite Hc.
  destruct w as [|c' w]; [reflexivity|].
  now apply IH.
Qed.

Lemma tidy_from_join (w : string) (ws : list string) :
  Forall word (w :: ws) -> tidy_from true (join " " (w :: ws)) = true.
Proof.
  revert w. induction ws as [|w' ws IH]; intros w H;
    inversion H as [|? ? Hw Hws]; subst.
  - simpl. rewrite <- (append_empty_r w). now rewrite tidy_from_run.
  - rewrite join_cons2, tidy_from_run by assumption.
    simpl. now apply IH.
Qed.

Lemma tidy_join (ws : list string) :
  Forall word ws -> tidy (join " " ws) = true.
Proof.
  intros H. destruct ws as [|w ws]; [reflexivity|].
  pose proof (join_nonempty w ws H) as Hne.
  pose proof (tidy_from_join w ws H) as Ht.
  unfold tidy. destruct (join " " (w :: ws)); [discriminate | exact Ht].
Qed.

Lemma letters_app (a b : string) : letters (a ++ b) = letters a ++ letters b.
Proof.
  induction a as [|c a IH]; simpl; [reflexivity|].
  destruct (isspace c); simpl; now rewrite IH.
Qed.

Lemma letters_no_space (s : string) : no_space s = true -> letters s = s.
Proof.
  induction s as [|c s IH]; intros H; [reflexivity|].
  simpl in *. apply andb_prop in H as [Hc Hs].
  apply negb_true_iff in Hc. rewrite Hc. now rewrite IH.
Qed.

Lemma letters_join (ws : list string) :
  Forall word ws -> letters (join " " ws) = String.concat "" ws.
Proof.
  induction ws as [|w ws IH]; intros H; [reflexivity|].
  inversion H as [|? ? [Hne Hns] Hws]; subst.
  destruct ws as [|w' ws].
  - simpl. now apply letters_no_space.
  - rewrite join_cons2, letters_app, letters_no_space by assumption.
    change (letters (" " ++ join " " (w' :: ws)))
      with (letters (join " " (w' :: ws))).
    rewrite IH by assumption. reflexivity.
Qed.

Lemma concat_split_acc (s : string) :
  forall w, String.concat "" (split_acc w s) = w ++ letters s.
Proof.
  induction s as [|c s IH]; intros w; simpl.
  - destruct w; simpl; [reflexivity | now rewrite append_empty_r].
  - destruct (isspace c).
    + destruct w as [|a w]; [apply IH|].
      simpl is_empty. cbv iota.
      transitivity (String a w ++ String.concat "" (split_acc "" s)).
      * destruct (split_acc "" s); simpl; [now rewrite append_empty_r | reflexivity].
      * now rewrite IH.
    + rewrite IH. now rewrite append_assoc.
Qed.

Lemma clean_text_join (s : string) :
  clean_text (PStr s) = join " " (split s).
Proof.
  unfold clean_text. destruct s as [|c s]; [reflexivity|].
  simpl is_empty. cbv iota. now rewrite split_strip.
Qed.

(** C9: [clean_text] returns the empty string for absent and for empty
    input; on any other text its result is tidy (white space occurs only
    as single spaces between words, none leading or trailing), has the
    words of the input in order, and keeps every character that is not
    white space; and it is idempotent. *)
Theorem clean_text_normalises_and_is_idempotent :
  clean_text PNone = "" /\
  clean_text (PStr "") = "" /\
  (forall s : string,
      tidy (clean_text (PStr s)) = true /\
      split (clean_text (PStr s)) = split s /\
      letters (clean_text (PStr s)) = letters s) /\
  (forall x : pyval, clean_text (PStr (clean_text x)) = clean_text x).
Proof.
  split; [reflexivity|]. split; [reflexivity|]. split.
  - intros s. rewrite clean_text_join.
    pose proof (split_words s) as Hw.
    split; [now apply tidy_join|]. split; [now apply split_join|].
    rewrite letters_join by assumption.
    unfold split. now rewrite concat_split_acc.
  - intros [|s]; [reflexivity|].
    rewrite !clean_text_join.
    now rewrite split_join by apply split_words.
Qed.

End CleanText.


(* ================================================================= *)
(** * Properties of the image extractor *)

Module Images.
Import Str.

Definition MARKER : string := "._SL".
Definition SUFFIX : string := "._SL1500_".

Lemma string_eqb_sym (a b : string) : String.eqb a b = String.eqb b a.
Proof.
  destruct (String.eqb_spec a b) as [->|N].
  - symmetry. apply String.eqb_refl.
  - symmetry. apply String.eqb_neq. congruence.
Qed.

Lemma startswith_app (p s : string) : startswith p (p ++ s) = true.
Proof.
  induction p as [|c p IH]; [reflexivity|].
  simpl. now rewrite Char.eqb_same.
Qed.

Lemma startswith_split (p s : string) :
  startswith p s = true -> s = p ++ drop (String.length p) s.
Proof.
  revert s. induction p as [|c p IH]; intros s H; [reflexivity|].
  destruct s as [|d s]; [discriminate|].
  simpl in H. apply andb_prop in H as [Hc Hp].
  apply Char.eqb_true in Hc. subst d. simpl. f_equal. now apply IH.
Qed.

(** A text that holds [sep] splits at [before sep]. *)
Lemma before_split (sep s : string) :
  contains sep s = true ->
  exists rest, s = before sep s ++ sep ++ rest.
Proof.
  induction s as [|c s IH]; intros H.
  - simpl in H. rewrite orb_false_r in H.
    exists (drop (String.length sep) ""). simpl. rewrite H. simpl.
    now apply startswith_split.
  - simpl in H. simpl before.
    destruct (startswith sep (String c s)) eqn:E.
    + exists (drop (String.length sep) (String c s)). simpl.
      now apply startswith_split.
    + simpl in H. destruct (IH H) as [rest Hr].
      exists rest. simpl. now f_equal.
Qed.

(** [before sep s] is the shortest text that [sep] follows in [s]. *)
Lemma before_first (sep s : string) :
  forall a b, s = a ++ sep ++ b ->
  (String.length (before sep s) <= String.length a)%nat.
Proof.
  induction s as [|c s IH]; intros a b H.
  - simpl. destruct (startswith sep ""); simpl; lia.
  - simpl. destruct (startswith sep (String c s)) eqn:E; [simpl; lia|].
    destruct a as [|d a].
    + simpl in H. rewrite H, startswith_app in E. discriminate.
    + simpl in H. injection H as -> Hs. simpl.
      apply le_n_S. now apply (IH a b).
Qed.

(** No suffix of the pattern starts the text. *)
Fixpoint always_misses (p t : string) : bool :=
  match p with
  | EmptyString => true
  | String _ p' => negb (startswith p t) && always_misses p' t
  end.

Lemma startswith_before_app (m suf p : string) :
  always_misses p suf = true ->
  forall t, startswith p t = false ->
            startswith p (before m t ++ suf) = false.
Proof.
  induction p as [|a p IH]; intros Hm t Ht; [discriminate|].
  simpl in Hm. apply andb_prop in Hm as [Hsuf Hm].
  apply negb_true_iff in Hsuf.
  destruct t as [|x t].
  - simpl. destruct (startswith m ""); exact Hsuf.
  - simpl before. destruct (startswith m (String x t)); [exact Hsuf|].
    simpl in *. destruct (Char.eqb a x); [|reflexivity].
    simpl in *. destruct p as [|b p]; [discriminate|].
    now apply IH.
Qed.

Lemma before_cons (sep : string) (c : char) (s : string) :
  before sep (String c s) =
  if startswith sep (String c s) then "" else String c (before sep s).
Proof. reflexivity. Qed.

Lemma startswith_cons (a : char) (p : string) (c : char) (s : string) :
  startswith (String a p) (String c s) = Char.eqb a c && startswith p s.
Proof. reflexivity. Qed.

(** Rewriting keeps the text before the marker. *)
Lemma before_high_res (s : string) :
  before MARKER (before MARKER s ++ SUFFIX) = before MARKER s.
Proof.
  induction s as [|c s IH]; [reflexivity|].
  rewrite (before_cons MARKER c s).
  destruct (startswith MARKER (String c s)) eqn:E; [reflexivity|].
  change (String c (before MARKER s) ++ SUFFIX)
    with (String c (before MARKER s ++ SUFFIX)).
  rewrite before_cons, IH.
  replace (startswith MARKER (String c (before MARKER s ++ SUFFIX)))
    with false; [reflexivity|].
  symmetry. unfold MARKER at 1. unfold MARKER at 1 in E.
  rewrite startswith_cons in *.
  destruct (Char.eqb "." c); [|reflexivity].
  rewrite andb_true_l in *.
  apply startswith_before_app; [reflexivity | exact E].
Qed.

Lemma contains_cons (p : string) (c : char) (s : string) :
  contains p (String c s) = startswith p (String c s) || contains p s.
Proof. reflexivity. Qed.

Lemma contains_startswith (p s : string) :
  startswith p s = true -> contains p s = true.
Proof. intros H. destruct s; [simpl | rewrite contains_cons]; now rewrite H. Qed.

Lemma contains_app_l (p a b : string) : contains p (a ++ p ++ b) = true.
Proof.
  induction a as [|c a IH].
  - change ("" ++ p ++ b) with (p ++ b).
    apply contains_startswith, startswith_app.
  - change (String c a ++ p ++ b) with (String c (a ++ p ++ b)).
    rewrite contains_cons, IH. apply orb_true_r.
Qed.

(** The URL that [_extract_images] stores is fixed by the rewriting. *)
Lemma contains_high_res (s : string) : contains "._SL" (high_res s) = true.
Proof. apply (contains_app_l "._SL" (before "._SL" s) "1500_"). Qed.

Lemma high_res_idempotent (s : string) : high_res (high_res s) = high_res s.
Proof.
  unfold high_res. f_equal. apply (before_high_res s).
Qed.

Lemma image_url_idempotent (s : string) : image_url (image_url s) = image_url s.
Proof.
  unfold image_url. destruct (contains "._SL" s) eqn:E.
  - now rewrite contains_high_res, high_res_idempotent.
  - now rewrite E.
Qed.


(** ** Duplicates *)

(** The first occurrences of a list, as the specification has them: the
    head, then the first occurrences of the rest without the head. *)
Fixpoint first_occurrences (l : list string) : list string :=
  match l with
  | [] => []
  | x :: l' =>
      x :: filter (fun y => negb (String.eqb y x)) (first_occurrences l')
  end.

Lemma mem_In (x : string) (l : list string) : mem x l = true <-> In x l.
Proof.
  induction l as [|y l IH]; simpl; [split; [discriminate | tauto]|].
  rewrite orb_true_iff, IH, String.eqb_eq. split; intros [H|H]; auto.
Qed.

Lemma mem_ext (x : string) (l l' : list string) :
  (forall u, In u l <-> In u l') -> mem x l = mem x l'.
Proof.
  intros H. destruct (mem x l') eqn:E.
  - apply mem_In, H, mem_In, E.
  - destruct (mem x l) eqn:E'; [|reflexivity].
    apply mem_In, H, mem_In in E'. congruence.
Qed.

Lemma filter_filter {A} (f g : A -> bool) (l : list A) :
  filter f (filter g l) = filter (fun x => g x && f x) l.
Proof.
  induction l as [|x l IH]; [reflexivity|].
  simpl. destruct (g x); simpl; [destruct (f x)|]; now rewrite IH.
Qed.

Lemma dedup_acc_filter (l : list string) :
  forall seen,
    dedup_acc seen l =
    filter (fun y => negb (mem y seen)) (first_occurrences l).
Proof.
  induction l as [|x l IH]; intros seen; [reflexivity|].
  simpl. destruct (mem x seen) eqn:E; simpl.
  - rewrite IH, filter_filter. apply filter_ext_in. intros y _.
    destruct (String.eqb_spec y x) as [->|N]; simpl; [now rewrite E | reflexivity].
  - f_equal. rewrite IH, filter_filter. apply filter_ext. intros y.
    simpl. apply negb_orb.
Qed.

(** [list(dict.fromkeys(l))] keeps the first occurrences. *)
Lemma dedup_first_occurrences (l : list string) :
  dedup l = first_occurrences l.
Proof.
  unfold dedup. rewrite dedup_acc_filter.
  induction (first_occurrences l) as [|x r IH]; [reflexivity|].
  simpl in *. now rewrite IH.
Qed.

Lemma first_occurrences_In (l : list string) (u : string) :
  In u (first_occurrences l) <-> In u l.
Proof.
  induction l as [|x l IH]; simpl; [tauto|].
  rewrite filter_In, IH, negb_true_iff, String.eqb_neq.
  split.
  - intros [H|[H _]]; auto.
  - intros [H|H]; auto.
    destruct (String.eqb_spec u x) as [->|N]; auto.
Qed.

Lemma first_occurrences_NoDup (l : list string) : NoDup (first_occurrences l).
Proof.
  induction l as [|x l IH]; simpl; constructor.
  - rewrite filter_In, negb_true_iff, String.eqb_neq. tauto.
  - now apply NoDup_filter.
Qed.

Lemma first_occurrences_snoc (l : list string) (c : string) :
  first_occurrences (l ++ [c]) =
  (first_occurrences l ++ (if mem c l then [] else [c]))%list.
Proof.
  induction l as [|x l IH]; [reflexivity|].
  simpl. f_equal. rewrite IH, filter_app. f_equal.
  destruct (String.eqb_spec c x) as [->|N]; simpl.
  - destruct (mem x l); simpl; [reflexivity | now rewrite String.eqb_refl].
  - destruct (mem c l); simpl; [reflexivity|].
    apply String.eqb_neq in N. now rewrite N.
Qed.

(** ** The loop of [_extract_images] *)

(** A source that the loop may accept: not empty and with "http". *)
Definition usable (src : pyval) : bool :=
  match src with
  | PStr s => negb (is_empty s) && contains "http" s
  | PNone => false
  end.

Section Loop.
Variable h : Host.

(** The URL an element contributes, if any. *)
Definition candidate_of (img : Tag) : list string :=
  if usable (image_src h img) then [image_url (py_format (image_src h img))]
  else [].

(** The URLs that the elements contribute, in order (with repetitions). *)
Definition candidates (imgs : list Tag) : list string :=
  flat_map candidate_of imgs.

(** The elements that the selectors yield, in the order of the loops. *)
Definition all_images (soup : Tag) : list Tag :=
  flat_map (select soup) image_selectors.

Lemma accepted_usable (images : list string) (src : pyval) :
  accepted images src = usable src && negb (mem (py_format src) images).
Proof. destruct src; reflexivity. Qed.

Lemma fold_left_flat_map {A B C} (f : A -> B -> A) (g : C -> list B)
    (xs : list C) :
  forall init,
    fold_left (fun acc x => fold_left f (g x) acc) xs init =
    fold_left f (flat_map g xs) init.
Proof.
  induction xs as [|x xs IH]; intros init; [reflexivity|].
  simpl. now rewrite fold_left_app, IH.
Qed.

(** The invariant of the loop: the list built so far has the first
    occurrences of the candidates seen so far, and each of its members is
    fixed by the rewriting. *)
Lemma add_image_invariant (imgs : list Tag) :
  forall images cands,
    (forall e, In e images -> image_url e = e) ->
    first_occurrences images = first_occurrences cands ->
    first_occurrences (fold_left (add_image h) imgs images) =
    first_occurrences (cands ++ candidates imgs).
Proof.
  induction imgs as [|img imgs IH]; intros images cands Hfix Heq.
  - simpl. now rewrite app_nil_r.
  - assert (Hin : forall u, In u images <-> In u cands).
    { intros u. now rewrite <- (first_occurrences_In images),
                            <- (first_occurrences_In cands), Heq. }
    simpl. unfold candidates in *. simpl. rewrite app_assoc.
    unfold add_image at 2, candidate_of at 1.
    rewrite accepted_usable.
    destruct (usable (image_src h img)) eqn:U; simpl.
    + destruct (mem (py_format (image_src h img)) images) eqn:M; simpl.
      * apply IH; [exact Hfix|].
        apply mem_In in M. rewrite (Hfix _ M).
        rewrite first_occurrences_snoc.
        apply Hin, mem_In in M. now rewrite M, app_nil_r.
      * apply IH.
        -- intros e He. apply in_app_or in He as [He|[<-|[]]]; auto.
           apply image_url_idempotent.
        -- rewrite !first_occurrences_snoc, Heq. f_equal.
           now rewrite (mem_ext _ images cands Hin).
    + rewrite app_nil_r. now apply IH.
Qed.

Lemma extract_images_first_occurrences (soup : Tag) :
  extract_images h soup = first_occurrences (candidates (all_images soup)).
Proof.
  unfold extract_images. rewrite dedup_first_occurrences.
  rewrite fold_left_flat_map.
  now rewrite (add_image_invariant _ [] []).
Qed.

End Loop.

Lemma firstn_In {A} (x : A) (l : list A) :
  forall n, In x (firstn n l) -> In x l.
Proof.
  induction l as [|y l IH]; intros [|n] H; simpl in *; try tauto.
  destruct H as [H|H]; [now left | right; now apply (IH n)].
Qed.

Lemma NoDup_firstn {A} (n : nat) (l : list A) : NoDup l -> NoDup (firstn n l).
Proof.
  revert n. induction l as [|x l IH]; intros n H.
  - now rewrite firstn_nil.
  - destruct n; simpl; [constructor|].
    inversion H as [|? ? Hx Hl]; subst. constructor.
    + intros Hin. apply Hx. now apply (firstn_In x l n).
    + now apply IH.
Qed.

(** What [scrape] returns: a product exactly when the request answers
    with status 200, built from the answer's document. *)
Lemma scrape_inversion (h : Host) (url : string) :
  match scrape h url with
  | Some p =>
      exists r, http_get h url = Some r /\ status_code r = 200%Z /\
        images p = firstn MAX_IMAGES (extract_images h (soup r)) /\
        image_count p = List.length (images p) /\
        seller_details p = extract_seller_details h (soup r) url
  | None =>
      match http_get h url with
      | Some r => status_code r <> 200%Z
      | None => True
      end
  end.
Proof.
  unfold scrape. destruct (http_get h url) as [r|]; [|exact I].
  destruct (Z.eqb_spec (status_code r) 200) as [E|N]; cbn [negb]; [|exact N].
  destruct (extract_price h (soup r)) as [pr cs].
  exists r. repeat split; assumption || reflexivity.
Qed.

(** C7: on every document the image list is the list of the first
    occurrences of the URLs that the elements contribute (after the
    rewriting, so two sources with one rewritten URL give one entry): it
    has no duplicate and the same members; and the list that [scrape]
    stores in the product is made of its first [MAX_IMAGES] = 10 entries. *)
Theorem extract_images_first_seen_once_capped
    (h : Host) (soup : Tag) (url : string) :
  extract_images h soup = first_occurrences (candidates h (all_images soup)) /\
  NoDup (extract_images h soup) /\
  (forall u, In u (extract_images h soup) <->
             In u (candidates h (all_images soup))) /\
  match scrape h url with
  | Some p =>
      (List.length (images p) <= 10)%nat /\
      NoDup (images p) /\
      image_count p = List.length (images p)
  | None => True
  end.
Proof.
  rewrite extract_images_first_occurrences. split; [reflexivity|].
  split; [apply first_occurrences_NoDup|].
  split; [intros u; apply first_occurrences_In|].
  pose proof (scrape_inversion h url) as H.
  destruct (scrape h url) as [p|]; [|exact I].
  destruct H as (r & _ & _ & Hi & Hc & _). rewrite Hi in *.
  split; [apply firstn_le_length|].
  split; [|exact Hc].
  apply NoDup_firstn. rewrite extract_images_first_occurrences.
  apply first_occurrences_NoDup.
Qed.


(** ** The rewriting of one URL *)

Definition img_160 : Tag :=
  Example.leaf ""
    [("src", "https://m.media-amazon.com/images/I/image._SL160_.jpg")].
Definition img_500 : Tag :=
  Example.leaf ""
    [("data-src", "https://m.media-amazon.com/images/I/image._SL500_.png")].

(** C2, as amended: an accepted URL that holds the marker is stored as the
    text before the first marker followed by "._SL1500_"; what followed
    the marker, the file extension included, is dropped. *)
Theorem marked_url_rewritten_without_tail
    (h : Host) (images : list string) (img : Tag) (src : string) :
  image_src h img = PStr src ->
  accepted images (PStr src) = true ->
  contains "._SL" src = true ->
  exists base rest,
    src = base ++ "._SL" ++ rest /\
    (forall a b, src = a ++ "._SL" ++ b ->
                 (String.length base <= String.length a)%nat) /\
    add_image h images img = (images ++ [(base ++ "._SL1500_")%string])%list.
Proof.
  intros Hsrc Hacc Hm.
  destruct (before_split "._SL" src Hm) as [rest Hr].
  exists (before "._SL" src), rest.
  split; [exact Hr|]. split; [apply before_first|].
  unfold add_image. rewrite Hsrc, Hacc. unfold image_url. simpl py_format.
  now rewrite Hm.
Qed.

Lemma marked_url_rewritten_witness :
  exists base rest,
    "https://m.media-amazon.com/images/I/image._SL160_.jpg"
      = base ++ "._SL" ++ rest /\
    (forall a b,
        "https://m.media-amazon.com/images/I/image._SL160_.jpg"
          = a ++ "._SL" ++ b ->
        (String.length base <= String.length a)%nat) /\
    add_image Example.offline [] img_160 = ([] ++ [(base ++ "._SL1500_")%string])%list.
Proof.
  apply (marked_url_rewritten_without_tail Example.offline [] img_160);
    reflexivity.
Defined.

(** The URL of the specification's example keeps no ".jpg". *)
Lemma sl160_jpg_loses_extension :
  extract_images Example.offline
    (Example.document [] [("#landingImage", [img_160])])
  = ["https://m.media-amazon.com/images/I/image._SL1500_"] /\
  String.eqb
    (image_url "https://m.media-amazon.com/images/I/image._SL160_.jpg")
    "https://m.media-amazon.com/images/I/image._SL1500_.jpg" = false.
Proof. split; reflexivity. Qed.

(** Two sources of different sizes give one entry. *)
Example two_sizes_one_entry :
  extract_images Example.offline
    (Example.document [] [("#landingImage", [img_160; img_500])])
  = ["https://m.media-amazon.com/images/I/image._SL1500_"].
Proof. reflexivity. Qed.

End Images.

(* ================================================================= *)
(** * Properties of the summary *)

Module Display.

(** A line that is printed under a condition. *)
Definition line_if (b : bool) (s : string) : list string :=
  if b then [s] else [].

(** [v != "Not found"] *)
Definition is_set (v : pyval) : bool := negb (py_eq v "Not found").

(** The lines of the seller block, in order. *)
Definition seller_lines (d : SellerInfo) : list string :=
  [ nl ++ " Seller Details:";
    "  Seller Name: " ++ py_format (seller_name d);
    "  Seller Store URL: " ++ py_format (seller_store_url d);
    nl ++ "  12-Month Performance:" ]%string
  ++ line_if (is_set (seller_rating d))
       (L_seller_rating ++ py_format (seller_rating d) ++ "/5")
  ++ line_if (is_set (seller_reviews d))
       (L_seller_reviews ++ py_format (seller_reviews d))
  ++ [ nl ++ "  Lifetime Performance:" ]%string
  ++ line_if (is_set (lifetime_rating d))
       (L_lifetime_rating ++ py_format (lifetime_rating d) ++ "/5")
  ++ line_if (is_set (lifetime_reviews d))
       (L_lifetime_reviews ++ py_format (lifetime_reviews d))
  ++ line_if (is_set (seller_since d))
       (L_seller_since ++ py_format (seller_since d))
  ++ line_if (is_set (positive_feedback d))
       (L_positive_feedback ++ py_format (positive_feedback d))
  ++ line_if (is_set (shipped_by d))
       (L_shipped_by ++ py_format (shipped_by d))
  ++ line_if (is_set (sold_by d))
       (L_sold_by ++ py_format (sold_by d))
  ++ match seller_description d with
     | PStr s => line_if (is_set (PStr s))
                   (L_seller_description ++ Str.take 100 s ++ "...")
     | PNone => []
     end.

(** Printing steps, one at a time. *)
Lemma run_print {A} (s : string) (k : Exn (list string) A) (out : list string) :
  snd (bind (print s) (fun _ => k) out) = snd (k (out ++ [s])%list).
Proof. reflexivity. Qed.

Lemma run_when_print {A} (b : bool) (s : string) (k : Exn (list string) A)
    (out : list string) :
  snd (bind (when b (print s)) (fun _ => k) out)
  = snd (k (out ++ line_if b s)%list).
Proof. destruct b; simpl; [reflexivity | now rewrite app_nil_r]. Qed.

Lemma run_description (b : bool) (v : pyval) (out : list string) :
  snd (when b (bind (lift (py_take 100 v))
                    (fun t => print (L_seller_description ++ t ++ "...")))
         out)
  = (out ++ match v with
            | PStr s => line_if b (L_seller_description ++ Str.take 100 s ++ "...")
            | PNone => []
            end)%list.
Proof.
  destruct b, v as [|s]; cbn [when line_if]; try reflexivity;
    unfold ret; cbn [snd]; symmetry; apply app_nil_r.
Qed.

Lemma display_seller_details_lines (p : Product) (out : list string) :
  snd (display_seller_details p out)
  = (out ++ seller_lines (seller_details p))%list.
Proof.
  unfold display_seller_details, seller_lines.
  repeat (rewrite run_print || rewrite run_when_print).
  rewrite run_description. fold is_set.
  rewrite <- !app_assoc.
  destruct (seller_description (seller_details p)); reflexivity.
Qed.

Lemma shows_app (label : string) (a b : list string) :
  shows label (a ++ b) = shows label a || shows label b.
Proof. apply existsb_app. Qed.

Lemma shows_line_if (label : string) (b : bool) (s : string) :
  shows label (line_if b s) = b && Str.startswith label s.
Proof. destruct b; simpl; [apply orb_false_r | reflexivity]. Qed.

Lemma shows_cons (label s : string) (l : list string) :
  shows label (s :: l) = Str.startswith label s || shows label l.
Proof. reflexivity. Qed.

(** The value is a text, not [None]. *)
Definition is_str (v : pyval) : bool :=
  match v with PStr _ => true | PNone => false end.

(** Evaluates [shows label (seller_lines d)]: every line starts with its
    own label, and no label starts another line. *)
Ltac eval_shows :=
  unfold seller_lines, is_str;
  try destruct (seller_description _);
  repeat (rewrite shows_app || rewrite shows_line_if || rewrite shows_cons);
  unfold nl, L_seller_rating, L_seller_reviews, L_lifetime_rating,
    L_lifetime_reviews, L_seller_since, L_positive_feedback, L_shipped_by,
    L_sold_by, L_seller_description;
  simpl;
  repeat (rewrite andb_false_r || rewrite orb_false_r || rewrite andb_true_r).

(** C4, as amended: in the seller block the lines "Seller Name" and
    "Seller Store URL" are always printed, sentinel or not; each of the
    nine other fields that the block prints has its line exactly when the
    field is not the sentinel (and, for the description, is a text); the
    full summary is the six product lines followed by the seller block. *)
Theorem seller_block_omits_guarded_sentinels (p : Product) :
  let d := seller_details p in
  let out := stdout_of (display_seller_details p) in
  nth_error out 1 = Some ("  Seller Name: " ++ py_format (seller_name d)) /\
  nth_error out 2
    = Some ("  Seller Store URL: " ++ py_format (seller_store_url d)) /\
  shows L_seller_rating out = is_set (seller_rating d) /\
  shows L_seller_reviews out = is_set (seller_reviews d) /\
  shows L_lifetime_rating out = is_set (lifetime_rating d) /\
  shows L_lifetime_reviews out = is_set (lifetime_reviews d) /\
  shows L_seller_since out = is_set (seller_since d) /\
  shows L_positive_feedback out = is_set (positive_feedback d) /\
  shows L_shipped_by out = is_set (shipped_by d) /\
  shows L_sold_by out = is_set (sold_by d) /\
  shows L_seller_description out
    = is_set (seller_description d) && is_str (seller_description d) /\
  exists header,
    List.length header = 7%nat /\
    stdout_of (display p) = (header ++ out)%list.
Proof.
  intros d out.
  assert (E : out = seller_lines d).
  { unfold out, stdout_of. now rewrite display_seller_details_lines. }
  rewrite E.
  split; [reflexivity|]. split; [reflexivity|].
  repeat (split; [now eval_shows|]).
  unfold stdout_of, display.
  repeat rewrite run_print.
  rewrite display_seller_details_lines.
  eexists. split; [|reflexivity]. reflexivity.
Qed.

(** A product whose seller record was never filled in. *)
Definition blank_product : Product :=
  Product_init "Not found" "Not found" "Not found" "Not found" "Not found"
               "Not found" [] SellerInfo_init.

(** The sentinel is printed for the seller name and the store URL. *)
Lemma sentinel_name_and_url_are_printed :
  In "  Seller Name: Not found"
     (stdout_of (display_seller_details blank_product)) /\
  In "  Seller Store URL: Not found"
     (stdout_of (display_seller_details blank_product)) /\
  In "  Seller Name: Not found" (stdout_of (display blank_product)).
Proof. cbn. tauto. Qed.

End Display.

(* ================================================================= *)
(** * Properties of the seller extractor *)

Module Seller.

(** ** What a statement leaves unchanged *)

(** [m] keeps [P]: it holds of the state that [m] reaches, by return or
    by exception, when it holds of the state [m] starts from. *)
Definition keeps {S A} (P : S -> Prop) (m : Exn S A) : Prop :=
  forall s, P s -> P (snd (m s)).

Lemma keeps_ret {S A} (P : S -> Prop) (a : A) : keeps P (ret a).
Proof. intros s H. exact H. Qed.

Lemma keeps_raise {S A} (P : S -> Prop) : keeps P (@raise S A).
Proof. intros s H. exact H. Qed.

Lemma keeps_lift {S A} (P : S -> Prop) (o : option A) : keeps P (lift o).
Proof. destruct o; [apply keeps_ret | apply keeps_raise]. Qed.

Lemma keeps_get {S} (P : S -> Prop) : keeps P get.
Proof. intros s H. exact H. Qed.

Lemma keeps_modify {S} (P : S -> Prop) (f : S -> S) :
  (forall s, P s -> P (f s)) -> keeps P (modify f).
Proof. intros Hf s H. now apply Hf. Qed.

Lemma keeps_bind {S A B} (P : S -> Prop) (m : Exn S A) (f : A -> Exn S B) :
  keeps P m -> (forall a, keeps P (f a)) -> keeps P (bind m f).
Proof.
  intros Hm Hf s H. unfold bind. specialize (Hm s H).
  destruct (m s) as [[a|] s']; simpl in *; [now apply Hf | exact Hm].
Qed.

Lemma keeps_when {S} (P : S -> Prop) (b : bool) (m : Exn S unit) :
  keeps P m -> keeps P (when b m).
Proof. destruct b; [auto | intros _; apply keeps_ret]. Qed.

Lemma keeps_try_pass {S} (P : S -> Prop) (m : Exn S unit) (s : S) :
  keeps P m -> P s -> P (try_pass m s).
Proof. intros Hm H. now apply Hm. Qed.

(** Splits a goal on the tests and matches of the code. *)
Ltac split_cases :=
  repeat match goal with
         | |- context [match ?x with _ => _ end] => destruct x
         end.

Ltac keep_steps :=
  repeat first
    [ apply keeps_bind; [|intro]
    | apply keeps_when
    | apply keeps_ret
    | apply keeps_lift
    | apply keeps_get
    | apply keeps_raise
    | match goal with
      | |- keeps _ (match ?x with _ => _ end) => destruct x
      end ].


(** ** The seller identifier *)

Lemma contains_char_cons (a c : char) (s : string) :
  Str.contains (String a "") (String c s)
  = Char.eqb a c || Str.contains (String a "") s.
Proof.
  change (Str.contains (String a "") (String c s))
    with (Str.startswith (String a "") (String c s)
          || Str.contains (String a "") s).
  simpl. now rewrite andb_true_r.
Qed.

Lemma contains_char_remove_unsafe (a : char) (s : string) :
  Str.contains (String a "") s = false ->
  Str.contains (String a "") (Url.remove_unsafe s) = false.
Proof.
  induction s as [|c s IH]; intros H; [exact H|].
  rewrite contains_char_cons in H. apply orb_false_elim in H as [Hc Hs].
  simpl. destruct (_ || _); [now apply IH|].
  rewrite contains_char_cons, Hc. now apply IH.
Qed.

Lemma contains_char_before (a : char) (sep s : string) :
  Str.contains (String a "") s = false ->
  Str.contains (String a "") (Str.before sep s) = false.
Proof.
  induction s as [|c s IH]; intros H.
  - simpl. now destruct (Str.startswith sep "").
  - rewrite contains_char_cons in H. apply orb_false_elim in H as [Hc Hs].
    change (Str.before sep (String c s))
      with (if Str.startswith sep (String c s) then ""
            else String c (Str.before sep s)).
    destruct (Str.startswith sep (String c s)); [reflexivity|].
    rewrite contains_char_cons, Hc. now apply IH.
Qed.

(** A URL without a question mark has no query. *)
Lemma query_of_no_mark (url : string) :
  Str.contains "?" url = false -> Url.query_of url = "".
Proof.
  intros H. unfold Url.query_of.
  now rewrite (contains_char_before "?" "#" _
                 (contains_char_remove_unsafe "?" _ H)).
Qed.

(** ... and [get_seller_id_from_url] answers [None] on it. *)
Lemma get_seller_id_no_mark (h : Host) (url : string) :
  Str.contains "?" url = false -> get_seller_id_from_url h url = PNone.
Proof.
  intros H. unfold get_seller_id_from_url.
  rewrite (query_of_no_mark url H).
  now destruct (urlparse_rejects h url).
Qed.

(** ** The stages of the extractor *)

Section Stages.
Variable h : Host.

(** The record when the links stage starts. *)
Definition before_links (soup : Tag) : SellerInfo :=
  extract_seller_from_buybox soup
    (check_amazon_badge soup
       (check_fulfilled_by_amazon soup SellerInfo_init)).

(** The stages that follow the links stage. *)
Definition after_links (soup : Tag) (s : SellerInfo) : SellerInfo :=
  clean_names
    (scrape_seller_page_if_any h
       (extract_detail_bullets soup (extract_seller_feedback soup s))).

(** The [href] of the first element that a query finds. *)
Definition link_href (soup : Tag) (q : query) : pyval :=
  match find soup q with
  | Some link => attr_get "href" (attrs link)
  | None => PNone
  end.

(** [urljoin] raises on the address of the link that a query finds. *)
Definition urljoin_raises (soup : Tag) (q : query) : bool :=
  match link_href soup q with
  | PStr href =>
      match urljoin h BASE_URL href with
      | Some _ => false
      | None => true
      end
  | PNone => false
  end.

(** The links stage raises: one of its two calls of [urljoin] does. *)
Definition links_raise (soup : Tag) : bool :=
  urljoin_raises soup (QAttr "a" "id" "sellerProfileTriggerId") ||
  urljoin_raises soup (QAttr "a" "id" "bylineInfo").

(** The record that the links stage leaves, by return or by exception. *)
Definition after_the_links (soup : Tag) : SellerInfo :=
  snd (extract_seller_from_links h soup (before_links soup)).

Lemma links_result (soup : Tag) (s : SellerInfo) :
  fst (extract_seller_from_links h soup s)
  = if links_raise soup then None else Some tt.
Proof.
  unfold extract_seller_from_links, links_raise, urljoin_raises, link_href.
  unfold bind, modify, lift, get, when, ret, raise.
  destruct (find soup (QAttr "a" "id" "sellerProfileTriggerId")) as [l1|];
    [destruct (attr_get "href" (attrs l1)) as [|h1];
     [|destruct (urljoin h BASE_URL h1); [|reflexivity]]|];
    (destruct (find soup (QAttr "a" "id" "bylineInfo")) as [l2|];
     [destruct (attr_get "href" (attrs l2)) as [|h2];
      [|destruct (urljoin h BASE_URL h2); [|reflexivity]]|]);
    cbn [fst orb]; try reflexivity;
    now destruct (py_eq _ _).
Qed.

(** The extractor runs the stages in order; when the links stage raises,
    the record it leaves is returned as it is. *)
Lemma extract_seller_details_cases (soup : Tag) (url : string) :
  extract_seller_details h soup url
  = if links_raise soup then after_the_links soup
    else after_links soup (after_the_links soup).
Proof.
  pose proof (links_result soup (before_links soup)) as R.
  unfold extract_seller_details, extract_seller_details_body, try_pass,
    after_the_links.
  change (snd ((modify (check_fulfilled_by_amazon soup) ;;
                modify (check_amazon_badge soup) ;;
                modify (extract_seller_from_buybox soup) ;;
                extract_seller_from_links h soup ;;
                modify (extract_seller_feedback soup) ;;
                modify (extract_detail_bullets soup) ;;
                modify (scrape_seller_page_if_any h) ;;
                modify clean_names)%exn SellerInfo_init))
    with (snd (bind (extract_seller_from_links h soup)
                 (fun _ => (modify (extract_seller_feedback soup) ;;
                            modify (extract_detail_bullets soup) ;;
                            modify (scrape_seller_page_if_any h) ;;
                            modify clean_names)%exn)
                 (before_links soup))).
  unfold bind at 1.
  destruct (extract_seller_from_links h soup (before_links soup))
    as [[[]|] s]; cbn [fst snd] in *;
    destruct (links_raise soup); try discriminate; reflexivity.
Qed.

End Stages.

Section Frame.
Variable h : Host.

Lemma buybox_keeps_id (soup : Tag) (s : SellerInfo) :
  seller_id (extract_seller_from_buybox soup s) = seller_id s.
Proof. unfold extract_seller_from_buybox. split_cases; reflexivity. Qed.

Lemma feedback_keeps_id (soup : Tag) (s : SellerInfo) :
  seller_id (extract_seller_feedback soup s) = seller_id s.
Proof. unfold extract_seller_feedback. split_cases; reflexivity. Qed.

Lemma detail_bullet_keeps_id (s : SellerInfo) (b : Tag) :
  seller_id (detail_bullet s b) = seller_id s.
Proof. unfold detail_bullet. split_cases; reflexivity. Qed.

Lemma detail_bullets_keep_id (bs : list Tag) :
  forall s, seller_id (fold_left detail_bullet bs s) = seller_id s.
Proof.
  induction bs as [|b bs IH]; intros s; [reflexivity|].
  simpl. now rewrite IH, detail_bullet_keeps_id.
Qed.

Lemma rating_year_keeps_id (soup : Tag) (s : SellerInfo) :
  seller_id (override_rating_year soup s) = seller_id s.
Proof. unfold override_rating_year. split_cases; reflexivity. Qed.

Lemma effective_period_keeps_id (soup : Tag) (s : SellerInfo) :
  seller_id (override_effective_period soup s) = seller_id s.
Proof. unfold override_effective_period. split_cases; reflexivity. Qed.

Lemma review_count_keeps_id (soup : Tag) (s : SellerInfo) :
  seller_id (override_review_count soup s) = seller_id s.
Proof. unfold override_review_count. split_cases; reflexivity. Qed.

Lemma positive_feedback_keeps_id (soup : Tag) (s : SellerInfo) :
  seller_id (extract_positive_feedback soup s) = seller_id s.
Proof. unfold extract_positive_feedback. split_cases; reflexivity. Qed.

Lemma seller_page_keeps_id (v : pyval) :
  keeps (fun s => seller_id s = v) (scrape_seller_page_body h).
Proof.
  unfold scrape_seller_page_body, process_twelve_month, process_lifetime.
  keep_steps;
    try (apply keeps_modify; intros s Hs; cbn [seller_id set_seller_reviews
           set_seller_rating set_lifetime_reviews set_lifetime_rating];
         first [ exact Hs
               | now rewrite rating_year_keeps_id
               | now rewrite effective_period_keeps_id
               | now rewrite review_count_keeps_id
               | now rewrite positive_feedback_keeps_id ]).
Qed.

Lemma page_step_keeps_id (s : SellerInfo) :
  seller_id (scrape_seller_page_if_any h s) = seller_id s.
Proof.
  unfold scrape_seller_page_if_any. destruct (_ && _); [|reflexivity].
  unfold scrape_seller_page.
  apply (keeps_try_pass (fun s' => seller_id s' = seller_id s));
    [apply seller_page_keeps_id | reflexivity].
Qed.

Lemma detail_bullets_stage_keeps_id (soup : Tag) (s : SellerInfo) :
  seller_id (extract_detail_bullets soup s) = seller_id s.
Proof.
  unfold extract_detail_bullets.
  destruct (find soup _); [apply detail_bullets_keep_id | reflexivity].
Qed.

Lemma byline_store_name_keeps_id (link : Tag) (s : SellerInfo) :
  seller_id (byline_store_name link s) = seller_id s.
Proof. unfold byline_store_name. split_cases; reflexivity. Qed.

Lemma clean_names_keep_id (s : SellerInfo) :
  seller_id (clean_names s) = seller_id s.
Proof. reflexivity. Qed.

(** The stages after the links stage keep the identifier. *)
Lemma after_links_keeps_id (soup : Tag) (s : SellerInfo) :
  seller_id (after_links h soup s) = seller_id s.
Proof.
  unfold after_links.
  now rewrite clean_names_keep_id, page_step_keeps_id,
    detail_bullets_stage_keeps_id, feedback_keeps_id.
Qed.

(** The identifier that the links stage leaves when the address of the
    profile link resolves, whether or not the stage raises later. *)
Lemma links_seller_id (soup : Tag) (link : Tag) (href u : string)
    (s : SellerInfo) :
  find soup (QAttr "a" "id" "sellerProfileTriggerId") = Some link ->
  attr_get "href" (attrs link) = PStr href ->
  urljoin h BASE_URL href = Some u ->
  seller_id (snd (extract_seller_from_links h soup s))
  = get_seller_id_from_url h u.
Proof.
  intros Hl Hh Hu. unfold extract_seller_from_links. rewrite Hl, Hh, Hu.
  match goal with
  | |- context [bind _ (fun _ => ?m)] =>
      assert (K : keeps (fun s' => seller_id s' = get_seller_id_from_url h u) m)
  end.
  { keep_steps; apply keeps_modify; intros s' Hs';
      first [now rewrite byline_store_name_keeps_id | exact Hs']. }
  unfold bind at 1. cbn [bind modify lift ret]. now apply K.
Qed.

(** The identifier that the profile link yields is the one returned. *)
Lemma seller_id_from_link (soup : Tag) (url : string) (link : Tag)
    (href u : string) :
  find soup (QAttr "a" "id" "sellerProfileTriggerId") = Some link ->
  attr_get "href" (attrs link) = PStr href ->
  urljoin h BASE_URL href = Some u ->
  seller_id (extract_seller_details h soup url)
  = get_seller_id_from_url h u.
Proof.
  intros Hl Hh Hu. rewrite extract_seller_details_cases.
  pose proof (links_seller_id soup link href u (before_links soup) Hl Hh Hu)
    as H.
  fold (after_the_links h soup) in H.
  destruct (links_raise h soup);
    [exact H | now rewrite after_links_keeps_id].
Qed.

(** When [urljoin] raises on the address of the profile link, the stage
    ends before the identifier is assigned. *)
Lemma seller_id_unresolved_link (soup : Tag) (url : string) (link : Tag)
    (href : string) :
  find soup (QAttr "a" "id" "sellerProfileTriggerId") = Some link ->
  attr_get "href" (attrs link) = PStr href ->
  urljoin h BASE_URL href = None ->
  seller_id (extract_seller_details h soup url) = PStr "Not found".
Proof.
  intros Hl Hh Hu. rewrite extract_seller_details_cases.
  assert (R : links_raise h soup = true).
  { unfold links_raise, urljoin_raises, link_href. now rewrite Hl, Hh, Hu. }
  rewrite R. unfold after_the_links, extract_seller_from_links.
  rewrite Hl, Hh, Hu.
  unfold bind, modify, lift, raise. cbn [fst snd].
  unfold profile_link_name, before_links.
  assert (B : forall s, seller_id
                (extract_seller_from_buybox soup
                   (check_amazon_badge soup
                      (check_fulfilled_by_amazon soup s))) = seller_id s).
  { intros s. rewrite buybox_keeps_id.
    unfold check_amazon_badge, check_fulfilled_by_amazon.
    split_cases; reflexivity. }
  split_cases; cbn [seller_id set_sold_by set_seller_name];
    now rewrite B.
Qed.

End Frame.


(** ** C1: the identifier may be [None] *)

(** C1 (the code departs from it): when the profile link has an address
    that [urljoin] resolves to a URL whose query holds no [seller]
    parameter, the record that the extractor returns has
    [seller_id = None], not a text and not the sentinel.  (When [urljoin]
    raises on the address, the identifier stays the sentinel.) *)
Theorem seller_id_None_without_seller_parameter
    (h : Host) (soup : Tag) (url : string) (link : Tag) (href : string) :
  find soup (QAttr "a" "id" "sellerProfileTriggerId") = Some link ->
  attr_get "href" (attrs link) = PStr href ->
  match urljoin h BASE_URL href with
  | Some seller_url =>
      Url.first_value "seller" (Url.parse_qs h (Url.query_of seller_url))
      = PNone ->
      seller_id (extract_seller_details h soup url) = PNone
  | None =>
      seller_id (extract_seller_details h soup url) = PStr "Not found"
  end.
Proof.
  intros Hl Hh. destruct (urljoin h BASE_URL href) as [u|] eqn:Hu.
  - intros Hq.
    rewrite (seller_id_from_link h soup url link href u Hl Hh Hu).
    unfold get_seller_id_from_url. rewrite Hq.
    now destruct (urlparse_rejects h _).
  - now apply (seller_id_unresolved_link h soup url link href).
Qed.

(** A product page whose only seller markup is a profile link without a
    [seller] parameter. *)
Definition profile_link : Tag :=
  Example.leaf "Acme" [("href", "/sp?ie=UTF8&marketplaceID=ATVPDKIKX0DER")].
Definition profile_page : Tag :=
  Example.document
    [(QAttr "a" "id" "sellerProfileTriggerId", [profile_link])] [].

Lemma seller_id_None_witness :
  seller_id (extract_seller_details Example.offline profile_page
               "https://www.amazon.com/dp/B000000000") = PNone.
Proof.
  exact (seller_id_None_without_seller_parameter
           Example.offline profile_page
           "https://www.amazon.com/dp/B000000000" profile_link
           "/sp?ie=UTF8&marketplaceID=ATVPDKIKX0DER"
           eq_refl eq_refl eq_refl).
Defined.

(** The whole record of that page: every other field is a text. *)
Example profile_page_record :
  extract_seller_details Example.offline profile_page
    "https://www.amazon.com/dp/B000000000"
  = {| seller_name := PStr "Acme";
       seller_store_url :=
         PStr "https://www.amazon.com/sp?ie=UTF8&marketplaceID=ATVPDKIKX0DER";
       seller_rating := PStr "Not found";
       seller_reviews := PStr "Not found";
       seller_since := PStr "Not found";
       positive_feedback := PStr "Not found";
       shipped_by := PStr "Not found";
       sold_by := PStr "Acme";
       seller_description := PStr "Not found";
       seller_id := PNone;
       is_amazon := false;
       is_fulfilled_by_amazon := false;
       lifetime_rating := PStr "Not found";
       lifetime_reviews := PStr "Not found" |}.
Proof. reflexivity. Qed.

(** ** C5: a page without seller markup *)

(** None of the queries of the seller extractor finds anything. *)
Definition no_seller_markup (soup : Tag) : Prop :=
  find_all_string soup "fulfilled.*amazon|amazon.*fulfilled" true = [] /\
  find soup (QAttr "span" "class" "ac-badge-rectangle") = None /\
  find soup (QAttr "div" "id" "merchant-info") = None /\
  find soup (QAttr "div" "id" "sellerProfileTriggerId") = None /\
  find soup (QAttr "div" "id" "availability") = None /\
  find soup (QAttr "a" "id" "sellerProfileTriggerId") = None /\
  find soup (QAttr "a" "id" "bylineInfo") = None /\
  find soup (QAttrRe "a" "href" "feedback") = None /\
  find soup (QAttr "div" "id" "detailBullets_feature_div") = None.

(** The twelve fields of a [SellerInfo] that hold a text. *)
Definition string_fields : list (SellerInfo -> pyval) :=
  [ seller_name; seller_store_url; seller_rating; seller_reviews;
    seller_since; positive_feedback; shipped_by; sold_by;
    seller_description; seller_id; lifetime_rating; lifetime_reviews ].

Lemma no_seller_markup_record (h : Host) (soup : Tag) (url : string) :
  no_seller_markup soup -> extract_seller_details h soup url = SellerInfo_init.
Proof.
  intros (H1 & H2 & H3 & H4 & H5 & H6 & H7 & H8 & H9).
  assert (S1 : forall s, check_fulfilled_by_amazon soup s = s).
  { intros s. unfold check_fulfilled_by_amazon. now rewrite H1. }
  assert (S2 : forall s, check_amazon_badge soup s = s).
  { intros s. unfold check_amazon_badge. now rewrite H2. }
  assert (S3 : forall s, extract_seller_from_buybox soup s = s).
  { intros s. unfold extract_seller_from_buybox. now rewrite H3, H4, H5. }
  assert (S4 : forall s, extract_seller_from_links h soup s = (Some tt, s)).
  { intros s. unfold extract_seller_from_links. now rewrite H6, H7. }
  assert (S5 : forall s, extract_seller_feedback soup s = s).
  { intros s. unfold extract_seller_feedback. now rewrite H8. }
  assert (S6 : forall s, extract_detail_bullets soup s = s).
  { intros s. unfold extract_detail_bullets. now rewrite H9. }
  rewrite extract_seller_details_cases.
  unfold after_the_links, before_links, after_links.
  rewrite S1, S2, S3, S4. cbn [fst snd]. rewrite S5, S6.
  now destruct (links_raise h soup).
Qed.

(** C5: when the request is answered with status 200 by a page without
    seller markup, [scrape] returns a product, and its seller record is the
    initial one: the twelve text fields hold the sentinel and both flags
    are false. *)
Theorem no_seller_markup_gives_sentinels
    (h : Host) (url : string) (r : Response) :
  http_get h url = Some r ->
  status_code r = 200%Z ->
  no_seller_markup (soup r) ->
  exists p,
    scrape h url = Some p /\
    seller_details p = extract_seller_details h (soup r) url /\
    Forall (fun field => field (seller_details p) = PStr "Not found")
           string_fields /\
    is_amazon (seller_details p) = false /\
    is_fulfilled_by_amazon (seller_details p) = false.
Proof.
  intros Hg Hs Hm.
  pose proof (Images.scrape_inversion h url) as H.
  destruct (scrape h url) as [p|].
  - destruct H as (r' & Hg' & _ & _ & _ & Hd).
    rewrite Hg in Hg'. injection Hg' as <-.
    exists p. split; [reflexivity|]. split; [exact Hd|].
    rewrite Hd, (no_seller_markup_record h (soup r) url Hm).
    split; [|split; reflexivity].
    repeat constructor.
  - rewrite Hg in H. contradiction.
Qed.

Lemma no_seller_markup_witness :
  exists p,
    scrape (Example.serving (Example.document [] [])) "https://www.amazon.com/dp/B000000000"
      = Some p /\
    seller_details p
      = extract_seller_details (Example.serving (Example.document [] []))
          (soup (mkResponse 200 (Example.document [] [])))
          "https://www.amazon.com/dp/B000000000" /\
    Forall (fun field => field (seller_details p) = PStr "Not found")
           string_fields /\
    is_amazon (seller_details p) = false /\
    is_fulfilled_by_amazon (seller_details p) = false.
Proof.
  apply (no_seller_markup_gives_sentinels
           (Example.serving (Example.document [] []))
           "https://www.amazon.com/dp/B000000000"
           (mkResponse 200 (Example.document [] [])));
    [reflexivity | reflexivity | repeat split].
Defined.

(** ** C8: the effective-period override *)

Lemma is_unset_or_4_9_spec (v : pyval) :
  is_unset_or_4_9 v = true <-> v = PStr "4.9" \/ v = PStr "Not found".
Proof.
  unfold is_unset_or_4_9. destruct v as [|s]; simpl.
  - split; [discriminate | intros [H|H]; discriminate].
  - rewrite orb_true_iff, !String.eqb_eq.
    split; intros [H|H]; first [left; congruence | right; congruence].
Qed.

(** Every field other than [seller_rating] is the same in both records. *)
Definition same_but_rating (s s' : SellerInfo) : Prop :=
  seller_name s' = seller_name s /\
  seller_store_url s' = seller_store_url s /\
  seller_reviews s' = seller_reviews s /\
  seller_since s' = seller_since s /\
  positive_feedback s' = positive_feedback s /\
  shipped_by s' = shipped_by s /\
  sold_by s' = sold_by s /\
  seller_description s' = seller_description s /\
  seller_id s' = seller_id s /\
  is_amazon s' = is_amazon s /\
  is_fulfilled_by_amazon s' = is_fulfilled_by_amazon s /\
  lifetime_rating s' = lifetime_rating s /\
  lifetime_reviews s' = lifetime_reviews s.

(** C8: the step that reads the effective-period element.  When the
    12-month rating is "4.9" or the sentinel and the element exists with a
    text that is not empty, the rating of the record becomes that text;
    when the rating is anything else, or there is no such element or
    text, the record is unchanged; in every case each of the thirteen
    other fields keeps its value. *)
Theorem effective_period_overrides_unset_or_4_9 (page : Tag) (s : SellerInfo) :
  let element :=
    find page (QAttr "span" "id"
                 "effective-timeperiod-rating-year-description") in
  let s' := override_effective_period page s in
  (forall e,
      seller_rating s = PStr "4.9" \/ seller_rating s = PStr "Not found" ->
      element = Some e -> text_strip e <> "" ->
      seller_rating s' = PStr (text_strip e)) /\
  (seller_rating s <> PStr "4.9" -> seller_rating s <> PStr "Not found" ->
   s' = s) /\
  (element = None -> s' = s) /\
  (forall e, element = Some e -> text_strip e = "" -> s' = s) /\
  same_but_rating s s'.
Proof.
  intros element s'. unfold s', element, override_effective_period.
  split; [|split; [|split; [|split]]].
  - intros e Hr He Ht. apply is_unset_or_4_9_spec in Hr. rewrite Hr, He.
    simpl. destruct (text_strip e); [contradiction | reflexivity].
  - intros H1 H2. destruct (is_unset_or_4_9 (seller_rating s)) eqn:E;
      [|reflexivity].
    apply is_unset_or_4_9_spec in E. tauto.
  - intros He. rewrite He. simpl. now destruct (is_unset_or_4_9 _).
  - intros e He Ht. rewrite He. simpl. rewrite Ht. simpl.
    now destruct (is_unset_or_4_9 _).
  - unfold same_but_rating. split_cases; repeat split.
Qed.

(** A seller page whose effective-period element reads "4.7", and a record
    whose rating is still the sentinel: the step sets the rating to
    "4.7". *)
Example effective_period_sets_rating :
  seller_rating
    (override_effective_period
       (Example.document
          [(QAttr "span" "id" "effective-timeperiod-rating-year-description",
            [Example.leaf "4.7" []])] [])
       SellerInfo_init)
  = PStr "4.7".
Proof. reflexivity. Qed.

(** ** The other text fields are never [None] *)

(** The eleven text fields other than [seller_id] hold a text. *)
Definition texts_but_id (s : SellerInfo) : Prop :=
  Display.is_str (seller_name s) = true /\
  Display.is_str (seller_store_url s) = true /\
  Display.is_str (seller_rating s) = true /\
  Display.is_str (seller_reviews s) = true /\
  Display.is_str (seller_since s) = true /\
  Display.is_str (positive_feedback s) = true /\
  Display.is_str (shipped_by s) = true /\
  Display.is_str (sold_by s) = true /\
  Display.is_str (seller_description s) = true /\
  Display.is_str (lifetime_rating s) = true /\
  Display.is_str (lifetime_reviews s) = true.

(** Closes a goal [texts_but_id (stage s)] from [texts_but_id s], for a
    stage that assigns texts. *)
Ltac texts_stage :=
  let H := fresh "H" in
  intros H; split_cases;
  destruct H as (? & ? & ? & ? & ? & ? & ? & ? & ? & ? & ?);
  repeat split; assumption || reflexivity.

Lemma clean_seller_name_text (v : pyval) :
  Display.is_str v = true -> Display.is_str (clean_seller_name v) = true.
Proof.
  destruct v as [|s]; [discriminate|]. intros _. unfold clean_seller_name.
  split_cases; reflexivity.
Qed.

Section Texts.
Variable h : Host.

Lemma init_texts : texts_but_id SellerInfo_init.
Proof. repeat split. Qed.

Lemma fba_texts (soup : Tag) (s : SellerInfo) :
  texts_but_id s -> texts_but_id (check_fulfilled_by_amazon soup s).
Proof. unfold check_fulfilled_by_amazon. texts_stage. Qed.

Lemma badge_texts (soup : Tag) (s : SellerInfo) :
  texts_but_id s -> texts_but_id (check_amazon_badge soup s).
Proof. unfold check_amazon_badge. texts_stage. Qed.

Lemma buybox_texts (soup : Tag) (s : SellerInfo) :
  texts_but_id s -> texts_but_id (extract_seller_from_buybox soup s).
Proof. unfold extract_seller_from_buybox. texts_stage. Qed.

Lemma profile_link_name_texts (link : Tag) (s : SellerInfo) :
  texts_but_id s -> texts_but_id (profile_link_name link s).
Proof. unfold profile_link_name. texts_stage. Qed.

Lemma byline_store_name_texts (link : Tag) (s : SellerInfo) :
  texts_but_id s -> texts_but_id (byline_store_name link s).
Proof. unfold byline_store_name. texts_stage. Qed.

Lemma links_texts (soup : Tag) :
  keeps texts_but_id (extract_seller_from_links h soup).
Proof.
  unfold extract_seller_from_links.
  keep_steps;
    try (apply keeps_modify; intros ?;
         first [ apply profile_link_name_texts
               | apply byline_store_name_texts
               | texts_stage ]).
Qed.

Lemma feedback_texts (soup : Tag) (s : SellerInfo) :
  texts_but_id s -> texts_but_id (extract_seller_feedback soup s).
Proof. unfold extract_seller_feedback. texts_stage. Qed.

Lemma detail_bullet_texts (s : SellerInfo) (b : Tag) :
  texts_but_id s -> texts_but_id (detail_bullet s b).
Proof. unfold detail_bullet. texts_stage. Qed.

Lemma detail_bullets_texts (soup : Tag) (s : SellerInfo) :
  texts_but_id s -> texts_but_id (extract_detail_bullets soup s).
Proof.
  unfold extract_detail_bullets. destruct (find soup _) as [d|]; [|auto].
  generalize (find_all d (QName "li")). intros bs. revert s.
  induction bs as [|b bs IH]; intros s H; [exact H|].
  simpl. apply IH. now apply detail_bullet_texts.
Qed.

Lemma rating_year_texts (soup : Tag) (s : SellerInfo) :
  texts_but_id s -> texts_but_id (override_rating_year soup s).
Proof. unfold override_rating_year. texts_stage. Qed.

Lemma effective_period_texts (soup : Tag) (s : SellerInfo) :
  texts_but_id s -> texts_but_id (override_effective_period soup s).
Proof. unfold override_effective_period. texts_stage. Qed.

Lemma review_count_texts (soup : Tag) (s : SellerInfo) :
  texts_but_id s -> texts_but_id (override_review_count soup s).
Proof. unfold override_review_count. texts_stage. Qed.

Lemma positive_feedback_texts (soup : Tag) (s : SellerInfo) :
  texts_but_id s -> texts_but_id (extract_positive_feedback soup s).
Proof. unfold extract_positive_feedback. texts_stage. Qed.

Lemma seller_page_texts : keeps texts_but_id (scrape_seller_page_body h).
Proof.
  unfold scrape_seller_page_body, process_twelve_month, process_lifetime.
  keep_steps;
    try (apply keeps_modify; intros ?;
         first [ apply rating_year_texts
               | apply effective_period_texts
               | apply review_count_texts
               | apply positive_feedback_texts
               | texts_stage ]).
Qed.

Lemma page_step_texts (s : SellerInfo) :
  texts_but_id s -> texts_but_id (scrape_seller_page_if_any h s).
Proof.
  intros H. unfold scrape_seller_page_if_any. destruct (_ && _); [|exact H].
  unfold scrape_seller_page.
  apply keeps_try_pass; [apply seller_page_texts | exact H].
Qed.

Lemma clean_names_texts (s : SellerInfo) :
  texts_but_id s -> texts_but_id (clean_names s).
Proof.
  intros (H1 & H2 & H3 & H4 & H5 & H6 & H7 & H8 & H9 & H10 & H11).
  unfold clean_names. cbn.
  repeat split; try assumption; now apply clean_seller_name_text.
Qed.

(** On every document and host, the record that the extractor returns
    holds a text in each text field other than [seller_id]. *)
Theorem other_text_fields_are_never_None (soup : Tag) (url : string) :
  texts_but_id (extract_seller_details h soup url).
Proof.
  unfold extract_seller_details, extract_seller_details_body.
  apply keeps_try_pass; [|apply init_texts].
  repeat first
    [ apply links_texts
    | apply keeps_modify; intros ?;
      first [ apply clean_names_texts | apply page_step_texts
            | apply detail_bullets_texts | apply feedback_texts
            | apply buybox_texts | apply badge_texts
            | apply fba_texts ]
    | apply keeps_bind; [|intro] ].
Qed.

End Texts.

End Seller.

(* ================================================================= *)
(** * Properties of the seller page: the choice of the records *)

Module Fragments.

Local Open Scope list_scope.

(** ** The order of numbers *)

(** NaN, the one number that no comparison relates to any number. *)
Definition is_nan (n : pynum) : bool :=
  match n with
  | NFloat S754_nan => true
  | _ => false
  end.

Lemma value_of_number (n : pynum) :
  is_nan n = false -> exists x, Num.value n = Some x.
Proof.
  destruct n as [z|[| | |]]; simpl; intros H; try discriminate; eauto.
Qed.

(** Decides a goal on the order of exact values from hypotheses on it. *)
Ltac exact_order :=
  repeat match goal with
         | x : Num.exact |- _ => destruct x
         end;
  cbn [Num.compare_exact] in *;
  repeat match goal with
         | |- context [Qcompare ?p ?q] => destruct (Qcompare_spec p q)
         | H : context [Qcompare ?p ?q] |- _ => destruct (Qcompare_spec p q)
         end;
  try discriminate; try reflexivity; try lra.

Ltac by_values a b c :=
  unfold Num.gt, Num.le, Num.compare;
  destruct (Num.value a) as [x|]; try discriminate;
  destruct (Num.value b) as [y|]; try discriminate;
  destruct (Num.value c) as [z|]; try discriminate;
  exact_order.

Lemma gt_trans (a b c : pynum) :
  Num.gt a b = true -> Num.gt b c = true -> Num.gt a c = true.
Proof. by_values a b c. Qed.

Lemma gt_le_trans (a b c : pynum) :
  Num.gt a b = true -> Num.le c b = true -> Num.gt a c = true.
Proof. by_values a b c. Qed.

Lemma le_trans (a b c : pynum) :
  Num.le a b = true -> Num.le b c = true -> Num.le a c = true.
Proof. by_values a b c. Qed.

Lemma gt_le (a b : pynum) : Num.gt a b = true -> Num.le b a = true.
Proof. by_values a b a. Qed.

Lemma not_gt_le (a b : pynum) :
  is_nan a = false -> is_nan b = false ->
  Num.gt a b = false -> Num.le a b = true.
Proof.
  intros Ha Hb. destruct (value_of_number a Ha) as [x Hx].
  destruct (value_of_number b Hb) as [y Hy].
  unfold Num.gt, Num.le, Num.compare. rewrite Hx, Hy. exact_order.
Qed.

Lemma le_refl (a : pynum) : is_nan a = false -> Num.le a a = true.
Proof.
  intros Ha. destruct (value_of_number a Ha) as [x Hx].
  unfold Num.le, Num.compare. rewrite Hx. exact_order.
Qed.

(** ** The two choices *)

(** The rating count of a fragment, as the code reads it: the value of
    [ratingCount], and 0 when the fragment has no such key. *)
Definition rating_count (x : nat * json) : pynum :=
  match number_at "ratingCount" (snd x) with
  | Some n => n
  | None => NInt 0
  end.

(** A rating fragment: an object whose [ratingCount], when it has one, is
    a number other than NaN. *)
Definition fragment (x : nat * json) : Prop :=
  exists n, number_at "ratingCount" (snd x) = Some n /\ is_nan n = false.

(** [400 <= ratingCount <= 500] *)
Definition in_range (x : nat * json) : bool :=
  Num.le (NInt 400) (rating_count x) && Num.le (rating_count x) (NInt 500).

(** [ratingCount] of [x] is above that of [y], and at most that of [y]. *)
Definition above (x y : nat * json) : bool :=
  Num.gt (rating_count x) (rating_count y).
Definition at_most (x y : nat * json) : bool :=
  Num.le (rating_count x) (rating_count y).

Lemma fragment_count (x : nat * json) :
  fragment x -> number_at "ratingCount" (snd x) = Some (rating_count x).
Proof. intros (n & H & _). unfold rating_count. now rewrite H. Qed.

Lemma fragment_number (x : nat * json) :
  fragment x -> is_nan (rating_count x) = false.
Proof. intros (n & H & Hn). unfold rating_count. now rewrite H. Qed.

Lemma fragment_object (x : nat * json) :
  fragment x -> exists m, snd x = JObj m.
Proof.
  intros (n & H & _). unfold number_at, get_or_zero in H.
  destruct (snd x); try discriminate. eauto.
Qed.

Lemma twelve_month_loop_cons (x : nat * json) (l : list (nat * json)) :
  twelve_month_loop (x :: l) =
  match number_at "ratingCount" (snd x) with
  | Some n => if Num.le (NInt 400) n && Num.le n (NInt 500)
              then Some (Some (snd x))
              else twelve_month_loop l
  | None => None
  end.
Proof. destruct x. reflexivity. Qed.

Lemma max_loop_cons (best : nat * json) (k : pynum) (x : nat * json)
    (l : list (nat * json)) :
  max_loop best k (x :: l) =
  match number_at "ratingCount" (snd x) with
  | Some n => if Num.gt n k then max_loop x n l else max_loop best k l
  | None => None
  end.
Proof. reflexivity. Qed.

(** The loop that only reads the fragments does not raise. *)
Lemma read_fragments_objects (l : list (nat * json)) :
  Forall fragment l -> read_fragments l = Some tt.
Proof.
  induction 1 as [|[i d] l Hx _ IH]; [reflexivity|].
  destruct (fragment_object _ Hx) as [m Hm]. simpl in Hm. subst d.
  simpl. exact IH.
Qed.

(** The loop stops at the first fragment in range. *)
Lemma twelve_month_loop_first (l : list (nat * json)) :
  Forall fragment l ->
  match twelve_month_loop l with
  | Some (Some d) =>
      exists l1 x l2, l = l1 ++ x :: l2 /\ snd x = d /\ in_range x = true /\
                      Forall (fun y => in_range y = false) l1
  | Some None => Forall (fun y => in_range y = false) l
  | None => False
  end.
Proof.
  induction l as [|x0 l IH]; intros H; [constructor|].
  inversion H as [|? ? Hx Hl]; subst. specialize (IH Hl).
  rewrite twelve_month_loop_cons, (fragment_count _ Hx).
  fold (in_range x0).
  destruct (in_range x0) eqn:E.
  - exists [], x0, l. repeat split; try constructor; assumption.
  - destruct (twelve_month_loop l) as [[d'|]|]; [| |contradiction].
    + destruct IH as (l1 & x & l2 & -> & Hd & Hr & Hn).
      exists (x0 :: l1), x, l2. repeat split; auto.
    + now constructor.
Qed.

(** The state of [max]: the best item so far, the items before it (all
    below it) and those after it (none above it). *)
Lemma max_loop_first (rest : list (nat * json)) :
  forall l1 best l2,
    Forall fragment rest ->
    is_nan (rating_count best) = false ->
    Forall (fun y => above best y = true) l1 ->
    Forall (fun y => at_most y best = true) l2 ->
    exists l1' x l2',
      l1 ++ best :: l2 ++ rest = l1' ++ x :: l2' /\
      max_loop best (rating_count best) rest = Some x /\
      is_nan (rating_count x) = false /\
      Forall (fun y => above x y = true) l1' /\
      Forall (fun y => at_most y x = true) l2'.
Proof.
  induction rest as [|y rest IH]; intros l1 best l2 Hf Hb H1 H2.
  - exists l1, best, l2. rewrite app_nil_r. repeat split; assumption.
  - inversion Hf as [|? ? Hy Hr]; subst.
    pose proof (fragment_number _ Hy) as Hyn.
    rewrite max_loop_cons, (fragment_count _ Hy).
    destruct (Num.gt (rating_count y) (rating_count best)) eqn:E.
    + destruct (IH (l1 ++ best :: l2) y [] Hr Hyn)
        as (l1' & x & l2' & Heq & R).
      * apply Forall_app. split; [|constructor].
        -- eapply Forall_impl; [|exact H1]. simpl. intros z Hz.
           exact (gt_trans _ _ _ E Hz).
        -- exact E.
        -- eapply Forall_impl; [|exact H2]. simpl. intros z Hz.
           exact (gt_le_trans _ _ _ E Hz).
      * constructor.
      * exists l1', x, l2'. split; [|exact R].
        rewrite <- Heq. now rewrite <- app_assoc.
    + destruct (IH l1 best (l2 ++ [y]) Hr Hb H1)
        as (l1' & x & l2' & Heq & R).
      * apply Forall_app. split; [exact H2|].
        constructor; [|constructor].
        now apply not_gt_le.
      * exists l1', x, l2'. split; [|exact R].
        rewrite <- Heq. now rewrite <- app_assoc.
Qed.

Lemma max_by_rating_count_first (l : list (nat * json)) :
  Forall fragment l -> l <> [] ->
  exists l1 x l2,
    l = l1 ++ x :: l2 /\
    max_by_rating_count l = Some x /\
    is_nan (rating_count x) = false /\
    Forall (fun y => above x y = true) l1 /\
    Forall (fun y => at_most y x = true) l2.
Proof.
  intros H Hne. destruct l as [|x l]; [contradiction|].
  inversion H as [|? ? Hx Hl]; subst.
  unfold max_by_rating_count. rewrite (fragment_count _ Hx).
  apply (max_loop_first l [] x [] Hl (fragment_number _ Hx)); constructor.
Qed.

(** The fragments of the example of the specification. *)
Definition fragment_of_count (count : json) : json :=
  JObj [("ratingCount", count); ("star5", JInt 80); ("star4", JInt 10);
        ("star3", JInt 5); ("star2", JInt 3); ("star1", JInt 2)].
Definition three_fragments : list (nat * json) :=
  [(1%nat, fragment_of_count (JInt 120)); (2%nat, fragment_of_count (JInt 450));
   (3%nat, fragment_of_count (JInt 900))].

(** C3 (as amended): on every list of rating fragments, each an object
    whose [ratingCount] (0 when the key is absent) is a number other than
    NaN, an [int] or a [float], no step raises; the 12-month record is the
    first fragment whose count is in [400, 500] (none when no count is);
    the lifetime record is the first fragment whose count no other
    exceeds, taken only when that count is above 500 (none otherwise). *)
Theorem twelve_month_first_in_range_lifetime_max
    (l : list (nat * json)) :
  Forall fragment l ->
  read_fragments l = Some tt /\
  match select_twelve_month l with
  | Some (Some d) =>
      exists l1 x l2, l = l1 ++ x :: l2 /\ snd x = d /\
        in_range x = true /\
        Forall (fun y => in_range y = false) l1
  | Some None => Forall (fun y => in_range y = false) l
  | None => False
  end /\
  match select_lifetime l with
  | Some (Some d) =>
      exists l1 x l2, l = l1 ++ x :: l2 /\ snd x = d /\
        Forall (fun y => at_most y x = true) l /\
        Forall (fun y => above x y = true) l1 /\
        Num.gt (rating_count x) (NInt 500) = true
  | Some None => Forall (fun y => Num.le (rating_count y) (NInt 500) = true) l
  | None => False
  end.
Proof.
  intros H. split; [now apply read_fragments_objects|]. split.
  - pose proof (twelve_month_loop_first l H) as T.
    unfold select_twelve_month. destruct l; [constructor | exact T].
  - unfold select_lifetime. destruct l as [|x0 l0] eqn:El; [constructor|].
    rewrite <- El in *.
    destruct (max_by_rating_count_first l H)
      as (l1 & x & l2 & Heq & Hm & Hn & H1 & H2).
    { rewrite El. discriminate. }
    rewrite Hm.
    assert (Hx : fragment x).
    { rewrite Forall_forall in H. apply H. rewrite Heq.
      apply in_or_app. right. now left. }
    rewrite (fragment_count _ Hx).
    assert (Hall : Forall (fun y => at_most y x = true) l).
    { rewrite Heq. apply Forall_app. split.
      - eapply Forall_impl; [|exact H1]. simpl. intros y Hy.
        now apply gt_le.
      - constructor; [now apply le_refl | exact H2]. }
    destruct (Num.gt (rating_count x) (NInt 500)) eqn:E.
    + exists l1, x, l2. repeat split; auto.
    + eapply Forall_impl; [|exact Hall]. simpl. intros y Hy.
      apply (le_trans _ _ _ Hy). now apply not_gt_le.
Qed.

Lemma three_fragments_are_fragments : Forall fragment three_fragments.
Proof. repeat constructor; eexists; split; reflexivity. Qed.

Lemma three_fragments_selection :
  (select_twelve_month three_fragments
     = Some (Some (fragment_of_count (JInt 450))) /\
   select_lifetime three_fragments
     = Some (Some (fragment_of_count (JInt 900)))) /\
  read_fragments three_fragments = Some tt /\
  match select_twelve_month three_fragments with
  | Some (Some d) =>
      exists l1 x l2, three_fragments = l1 ++ x :: l2 /\ snd x = d /\
        in_range x = true /\
        Forall (fun y => in_range y = false) l1
  | Some None => Forall (fun y => in_range y = false) three_fragments
  | None => False
  end /\
  match select_lifetime three_fragments with
  | Some (Some d) =>
      exists l1 x l2, three_fragments = l1 ++ x :: l2 /\ snd x = d /\
        Forall (fun y => at_most y x = true) three_fragments /\
        Forall (fun y => above x y = true) l1 /\
        Num.gt (rating_count x) (NInt 500) = true
  | Some None =>
      Forall (fun y => Num.le (rating_count y) (NInt 500) = true)
             three_fragments
  | None => False
  end.
Proof.
  split; [split; reflexivity|].
  apply (twelve_month_first_in_range_lifetime_max three_fragments).
  exact three_fragments_are_fragments.
Defined.

(** Counts that are floats are chosen by the same rule: 450.5 is in range,
    500.5 is not, and 900.25 is the maximum. *)
Definition half (n : positive) : json := JFloat (S754_finite false n (-1)).

Example float_counts_selection :
  select_twelve_month
    [(1%nat, fragment_of_count (half 1001));
     (2%nat, fragment_of_count (half 901));
     (3%nat, fragment_of_count (JFloat (S754_finite false 3601 (-2))))]
  = Some (Some (fragment_of_count (half 901))) /\
  select_lifetime
    [(1%nat, fragment_of_count (half 1001));
     (2%nat, fragment_of_count (half 901));
     (3%nat, fragment_of_count (JFloat (S754_finite false 3601 (-2))))]
  = Some (Some (fragment_of_count (JFloat (S754_finite false 3601 (-2))))).
Proof. split; reflexivity. Qed.

(** Where the claim fails.  A count that is NaN (which [json.loads] reads
    from the literal [NaN]) is above no count and no count is above it:
    with the counts NaN and 900, [max] keeps the first fragment, whose
    count is not above 500, and no lifetime record is chosen although 900
    is the greatest count and exceeds 500.  A count that is no number (the
    text "450") makes the comparison raise, and a fragment that is no
    object (a list) makes the reading loop raise: no record is chosen. *)
Lemma nan_count_hides_the_maximum :
  select_lifetime
    [(1%nat, fragment_of_count (JFloat S754_nan));
     (2%nat, fragment_of_count (JInt 900))] = Some None /\
  Num.gt (rating_count (2%nat, fragment_of_count (JInt 900))) (NInt 500)
    = true /\
  select_lifetime
    [(1%nat, fragment_of_count (JInt 900));
     (2%nat, fragment_of_count (JFloat S754_nan))]
    = Some (Some (fragment_of_count (JInt 900))) /\
  select_twelve_month [(1%nat, fragment_of_count (JStr "450"))] = None /\
  select_lifetime [(1%nat, fragment_of_count (JStr "450"))] = None /\
  read_fragments [(1%nat, JArr [JStr "ratingCount"; JStr "star5"])] = None.
Proof. repeat split. Qed.

End Fragments.

(* ================================================================= *)
(** * Properties of the currency conversion *)

Module Conversion.

(** The conversion changes both variables or none. *)
Lemma conversion_all_or_nothing (h : Host) (price currency_symbol : string) :
  handle_currency_conversion h price currency_symbol
    = (price, currency_symbol) \/
  exists price_float,
    Float.of_string price = Some price_float /\
    handle_currency_conversion h price currency_symbol
    = (Float.format_fixed 2
         (Float.mul price_float (get_live_exchange_rate h)), "$").
Proof.
  unfold handle_currency_conversion.
  destruct (negb (String.eqb price "Not found") && _); [|now left].
  unfold try_pass, conversion_body, bind, get, lift, modify, ret, raise.
  cbn [v_price v_currency_symbol].
  destruct (Float.of_string price) as [f|]; [right | now left].
  exists f. split; reflexivity.
Qed.

(** C10: for a symbol among "PKR", the rupee sign and "Rs", an amount
    that [float] rejects comes back unchanged together with its symbol. *)
Theorem unparseable_amount_is_returned_unchanged
    (h : Host) (price currency_symbol : string) :
  Str.mem currency_symbol ["PKR"; RUPEE_SIGN; "Rs"] = true ->
  Float.of_string price = None ->
  handle_currency_conversion h price currency_symbol
    = (price, currency_symbol).
Proof.
  intros _ Hf.
  destruct (conversion_all_or_nothing h price currency_symbol)
    as [H|(f & Hp & _)]; [exact H|].
  rewrite Hf in Hp. discriminate.
Qed.

Lemma unparseable_amount_witness :
  handle_currency_conversion Example.offline "1.2.3" "PKR" = ("1.2.3", "PKR").
Proof.
  apply (unparseable_amount_is_returned_unchanged Example.offline "1.2.3" "PKR");
    reflexivity.
Defined.

(** The three symbols with the amount "1.2.3", and a conversion that
    succeeds. *)
Example conversion_examples :
  handle_currency_conversion Example.offline "1.2.3" RUPEE_SIGN
    = ("1.2.3", RUPEE_SIGN) /\
  handle_currency_conversion Example.offline "1.2.3" "Rs" = ("1.2.3", "Rs") /\
  handle_currency_conversion Example.offline "1234.50" "PKR" = ("4.43", "$") /\
  handle_currency_conversion Example.offline "1234.50" "EUR"
    = ("1234.50", "EUR").
Proof. repeat split; vm_compute; reflexivity. Qed.

(** [float] reads the decimal digits of every script and strips the white
    space of Unicode, but not the separators FS to US: the Arabic-Indic
    amount 123 is converted, and an amount that starts with FS is not. *)
Example conversion_of_other_scripts :
  handle_currency_conversion Example.offline "١٢٣" "PKR" = ("0.44", "$") /\
  handle_currency_conversion Example.offline (String (Code 160) "123") "PKR"
    = ("0.44", "$") /\
  handle_currency_conversion Example.offline (String (Code 28) "12") "PKR"
    = (String (Code 28) "12", "PKR").
Proof. repeat split; vm_compute; reflexivity. Qed.

End Conversion.

(* ================================================================= *)
(** * Properties of the seller page: the weighted rating *)

Module Rating.

Local Open Scope Z_scope.

(** ** Rounding *)

(** [round_half_even a b] is an integer nearest to [a / b]. *)
Lemma round_half_even_nearest (a b : Z) :
  0 < b -> 0 <= a ->
  2 * Z.abs (Float.round_half_even a b * b - a) <= b /\
  0 <= Float.round_half_even a b.
Proof.
  intros Hb Ha. unfold Float.round_half_even.
  pose proof (Z.div_mod a b ltac:(lia)) as E.
  pose proof (Z.mod_pos_bound a b Hb) as M.
  pose proof (Z.div_pos a b Ha Hb) as Q.
  set (q := a / b) in *. set (r := a mod b) in *.
  destruct (Z.compare_spec (2 * r) b) as [C|C|C].
  - destruct (Z.even q); split; lia.
  - split; lia.
  - split; lia.
Qed.

(** [ilog2_ratio n d] is at most the binary logarithm of [n], and
    [2 ^ ilog2_ratio n d] is at most [n / d]. *)
Lemma ilog2_ratio_upper (n d : Z) :
  0 < n -> 0 < d -> Float.ilog2_ratio n d <= Z.log2 n.
Proof.
  intros Hn Hd. unfold Float.ilog2_ratio.
  pose proof (Z.log2_nonneg d).
  destruct (0 <=? _); destruct (_ <? _); lia.
Qed.

Lemma ilog2_ratio_lower (n d : Z) :
  0 < n -> 0 < d ->
  let e := Float.ilog2_ratio n d in
  (0 <= e -> d * 2 ^ e <= n) /\ (e < 0 -> d <= n * 2 ^ (- e)).
Proof.
  intros Hn Hd. unfold Float.ilog2_ratio.
  destruct (Z.log2_spec n Hn) as [Ln1 Ln2].
  destruct (Z.log2_spec d Hd) as [Ld1 Ld2].
  pose proof (Z.log2_nonneg n) as Nn. pose proof (Z.log2_nonneg d) as Nd.
  set (ln := Z.log2 n) in *. set (ld := Z.log2 d) in *.
  assert (P : forall k, 0 <= k -> 0 < 2 ^ k)
    by (intros; apply Z.pow_pos_nonneg; lia).
  destruct (Z.leb_spec 0 (ln - ld)) as [E0|E0].
  - destruct (Z.ltb_spec n (d * 2 ^ (ln - ld))) as [B|B].
    + split; intros He.
      * (* d * 2^(e0-1) <= 2^(ld+1) * 2^(e0-1) = 2^ln *)
        assert (X : 2 ^ ln = 2 ^ Z.succ ld * 2 ^ (ln - ld - 1)).
        { rewrite <- Z.pow_add_r by lia. f_equal. lia. }
        pose proof (P (ln - ld - 1) He).
        assert (d * 2 ^ (ln - ld - 1) <= 2 ^ Z.succ ld * 2 ^ (ln - ld - 1))
          by (apply Z.mul_le_mono_nonneg_r; lia).
        lia.
      * assert (ln - ld = 0) by lia.
        replace (- (ln - ld - 1)) with 1 by lia.
        replace ln with ld in * by lia.
        rewrite Z.pow_succ_r in Ld2 by lia. change (2 ^ 1) with 2. lia.
    + split; intros He; [exact B | lia].
  - destruct (Z.ltb_spec (n * 2 ^ (- (ln - ld))) d) as [B|B].
    + split; intros He; [lia|].
      assert (X : 2 ^ Z.succ ld = 2 ^ ln * 2 ^ (- (ln - ld - 1))).
      { rewrite <- Z.pow_add_r by lia. f_equal. lia. }
      pose proof (P (- (ln - ld - 1)) ltac:(lia)).
      assert (2 ^ ln * 2 ^ (- (ln - ld - 1)) <= n * 2 ^ (- (ln - ld - 1)))
        by (apply Z.mul_le_mono_nonneg_r; lia).
      lia.
    + split; intros He; [lia | exact B].
Qed.

(** The ratio scaled to 53 bits is at least [2 ^ 52]. *)
Lemma scaled_ratio_large (n d : Z) :
  0 < n -> 0 < d -> d <= 2 ^ 1022 -> Float.ilog2_ratio n d <= 52 ->
  d * 2 ^ 52 <= n * 2 ^ (52 - Z.max (Float.ilog2_ratio n d) (-1022)).
Proof.
  intros Hn Hd Hsmall Hup.
  destruct (ilog2_ratio_lower n d Hn Hd) as [L1 L2].
  set (e := Float.ilog2_ratio n d) in *.
  assert (P : forall k, 0 <= k -> 0 < 2 ^ k)
    by (intros; apply Z.pow_pos_nonneg; lia).
  destruct (Z.max_spec e (-1022)) as [[C ->]|[C ->]].
  - (* e < -1022 *)
    replace (52 - -1022) with (1022 + 52) by lia.
    rewrite Z.pow_add_r by lia.
    pose proof (P 52 ltac:(lia)). pose proof (P 1022 ltac:(lia)).
    assert (d * 2 ^ 52 <= 2 ^ 1022 * 2 ^ 52)
      by (apply Z.mul_le_mono_nonneg_r; lia).
    assert (1 * (2 ^ 1022 * 2 ^ 52) <= n * (2 ^ 1022 * 2 ^ 52))
      by (apply Z.mul_le_mono_nonneg_r; lia).
    lia.
  - destruct (Z_lt_le_dec e 0) as [Neg|Pos].
    + replace (52 - e) with (- e + 52) by lia.
      rewrite Z.pow_add_r by lia.
      pose proof (P 52 ltac:(lia)).
      assert (d * 2 ^ 52 <= n * 2 ^ (- e) * 2 ^ 52)
        by (apply Z.mul_le_mono_nonneg_r; [lia | now apply L2]).
      lia.
    + replace (2 ^ 52) with (2 ^ e * 2 ^ (52 - e))
        by (rewrite <- Z.pow_add_r by lia; f_equal; lia).
      pose proof (P (52 - e) ltac:(lia)).
      assert (d * 2 ^ e * 2 ^ (52 - e) <= n * 2 ^ (52 - e))
        by (apply Z.mul_le_mono_nonneg_r; [lia | now apply L1]).
      lia.
Qed.

(** A number of tenths, written with one decimal. *)
Definition render_tenths (n : Z) : string :=
  (Float.str_nat (n / 10) ++ "." ++ Float.pad_digits 1 (n mod 10))%string.

(** The sign that the text of a quotient starts with. *)
Definition sign_of (ws : Z) : string := if ws <? 0 then "-" else "".

(** The final step of the argument: two roundings, the first to 53 bits
    and the second to tenths, give a nearest tenth when the denominator
    is small against the precision. *)
Lemma two_roundings (ws tp m d n : Z) :
  0 < tp -> 0 < d -> 10 * tp < d ->
  2 * Z.abs (m * tp - ws * d) <= tp ->
  2 * Z.abs (n * d - 10 * m) <= d ->
  2 * Z.abs (n * tp - 10 * ws) <= tp.
Proof.
  intros Htp Hd Hbig H1 H2.
  assert (E : d * (n * tp - 10 * ws)
              = tp * (n * d - 10 * m) + 10 * (m * tp - ws * d)) by ring.
  set (a := n * tp - 10 * ws) in *.
  set (u := n * d - 10 * m) in *.
  set (w := m * tp - ws * d) in *.
  destruct (Z_le_gt_dec (2 * Z.abs a) tp) as [L|G]; [exact L|exfalso].
  assert (B : 2 * d * Z.abs a <= tp * d + 10 * tp).
  { assert (2 * Z.abs (d * a) <= tp * d + 10 * tp).
    { rewrite E.
      assert (Z.abs (tp * u + 10 * w) <= tp * Z.abs u + 10 * Z.abs w).
      { rewrite <- (Z.abs_eq tp) at 2 by lia.
        rewrite <- Z.abs_mul.
        replace (10 * Z.abs w) with (Z.abs (10 * w))
          by (rewrite Z.abs_mul; reflexivity).
        apply Z.abs_triangle. }
      nia. }
    rewrite Z.abs_mul, (Z.abs_eq d) in H by lia. lia. }
  assert (2 * Z.abs a >= tp + 1) by lia.
  nia.
Qed.

(** [ws / tp] printed with one decimal, for integers of either sign: the
    text is the sign of [ws] and a number of tenths nearest to
    [|ws| / tp]. *)
Lemma truediv_format_nearest (ws tp : Z) :
  0 < tp -> tp <= 2 ^ 50 -> 10 * Z.abs ws <= 2 ^ 51 ->
  exists f n,
    Float.int_truediv ws tp = Some f /\
    Float.format_fixed 1 f = (sign_of ws ++ render_tenths n)%string /\
    0 <= n /\
    2 * Z.abs (n * tp - 10 * Z.abs ws) <= tp.
Proof.
  intros Htp Htp50 Hsmall.
  unfold Float.int_truediv.
  replace (tp =? 0) with false by (symmetry; apply Z.eqb_neq; lia).
  replace (tp <? 0) with false by (symmetry; apply Z.ltb_ge; lia).
  rewrite xorb_false_r, (Z.abs_eq tp) by lia.
  destruct (Z.eq_dec ws 0) as [->|Hnz].
  { exists (S754_zero false), 0. repeat split; try reflexivity; simpl; lia. }
  set (a := Z.abs ws) in *.
  assert (Ha : 0 < a) by (unfold a; lia).
  unfold Float.round_ratio. cbv zeta.
  replace (a =? 0) with false by (symmetry; apply Z.eqb_neq; lia).
  assert (Hlog : Z.log2 a < 48).
  { apply Z.log2_lt_pow2; [exact Ha|].
    change (2 ^ 51) with 2251799813685248 in Hsmall.
    change (2 ^ 48) with 281474976710656. lia. }
  pose proof (ilog2_ratio_upper a tp Ha Htp) as Hup.
  assert (Htp1022 : tp <= 2 ^ 1022).
  { apply (Z.le_trans _ (2 ^ 50)); [exact Htp50|].
    apply Z.pow_le_mono_r; lia. }
  pose proof (scaled_ratio_large a tp Ha Htp Htp1022 ltac:(lia)) as K1.
  set (e := Z.max (Float.ilog2_ratio a tp) (-1022)) in *.
  assert (He : -1022 <= e <= 47) by (unfold e; lia).
  replace (52 - e) with (- (e - 52)) in K1 by lia.
  set (x := e - 52) in *.
  assert (Hx : -1074 <= x <= -5) by (unfold x; lia).
  unfold Float.round_scaled.
  replace (0 <=? x) with false by (symmetry; apply Z.leb_gt; lia).
  set (D := 2 ^ (- x)) in *.
  assert (HD0 : 0 < D) by (apply Z.pow_pos_nonneg; lia).
  change (2 ^ 52) with 4503599627370496 in K1.
  change (2 ^ 51) with 2251799813685248 in Hsmall.
  destruct (round_half_even_nearest (a * D) tp Htp ltac:(nia)) as [Hm Hm0].
  set (m := Float.round_half_even (a * D) tp) in *.
  (* the scaled ratio has 53 bits *)
  assert (Hm52 : 4503599627370496 <= m).
  { destruct (Z_lt_le_dec m 4503599627370496) as [C|C]; [exfalso | exact C].
    assert (m * tp <= 4503599627370495 * tp)
      by (apply Z.mul_le_mono_nonneg_r; lia).
    lia. }
  (* the quantum is small against the denominator *)
  assert (HD20 : 20 * tp <= D).
  { destruct (Z_lt_le_dec D (20 * tp)) as [C|C]; [exfalso | exact C].
    assert (a * D <= a * (20 * tp - 1))
      by (apply Z.mul_le_mono_nonneg_l; lia).
    assert (10 * a * tp <= 2251799813685248 * tp)
      by (apply Z.mul_le_mono_nonneg_r; lia).
    lia. }
  (* the number after normalisation and its quantum *)
  assert (N : exists m' x',
             (if m =? 2 ^ 53 then (2 ^ 52, x + 1) else (m, x)) = (m', x') /\
             0 < m' /\ -1074 <= x' <= -4 /\
             10 * tp < 2 ^ (- x') /\
             2 * Z.abs (m' * tp - a * 2 ^ (- x')) <= tp).
  { destruct (Z.eqb_spec m (2 ^ 53)) as [E|E].
    - exists (2 ^ 52), (x + 1). split; [reflexivity|].
      split; [reflexivity|]. split; [lia|].
      assert (D2 : D = 2 * 2 ^ (- (x + 1))).
      { unfold D. rewrite <- Z.pow_succ_r by lia. f_equal. lia. }
      set (D' := 2 ^ (- (x + 1))) in *.
      change (2 ^ 53) with 9007199254740992 in E.
      change (2 ^ 52) with 4503599627370496.
      assert (X : a * D = 2 * (a * D')) by (rewrite D2; ring).
      rewrite E, X in Hm.
      split; [|lia].
      (* 2^53 tp - tp/2 <= a D and 10 a <= 2^51 *)
      destruct (Z_lt_le_dec (10 * tp) D') as [C|C]; [exact C | exfalso].
      assert (a * D' <= a * (10 * tp))
        by (apply Z.mul_le_mono_nonneg_l; lia).
      assert (10 * a * tp <= 2251799813685248 * tp)
        by (apply Z.mul_le_mono_nonneg_r; lia).
      lia.
    - exists m, x. split; [reflexivity|]. split; [lia|].
      split; [lia|]. fold D. split; [lia | exact Hm]. }
  destruct N as (m' & x' & -> & Hm' & Hx' & HD' & Hr).
  replace (m' =? 0) with false by (symmetry; apply Z.eqb_neq; lia).
  replace (Float.emax - Float.prec <? x') with false
    by (symmetry; apply Z.ltb_ge; unfold Float.emax, Float.prec; lia).
  set (D' := 2 ^ (- x')) in *.
  (* the printing *)
  destruct (round_half_even_nearest (m' * 10) (1 * D') ltac:(lia) ltac:(lia))
    as [Hn Hn0].
  set (n := Float.round_half_even (m' * 10) (1 * D')) in *.
  assert (Hnear : 2 * Z.abs (n * tp - 10 * a) <= tp).
  { apply (two_roundings a tp m' D' n); lia. }
  exists (S754_finite (ws <? 0) (Z.to_pos m') x'), n.
  split; [reflexivity|]. split; [|split; [exact Hn0 | exact Hnear]].
  unfold Float.format_fixed, render_tenths, sign_of.
  rewrite Z2Pos.id by lia. change (10 ^ Z.of_nat 1) with 10.
  unfold Float.round_scaled.
  replace (0 <=? - x') with true by (symmetry; apply Z.leb_le; lia).
  fold D'. fold n. reflexivity.
Qed.

(** ** Numbers that are integers *)

Lemma gt_int (a b : Z) : Num.gt (NInt a) (NInt b) = (a >? b).
Proof.
  unfold Num.gt, Num.compare, Num.value, Num.compare_exact, Qcompare.
  cbn [Qnum Qden inject_Z]. rewrite !Z.mul_1_r.
  unfold Z.gtb. now destruct (a ?= b).
Qed.

Lemma weighted_sum_int (star5 star4 star3 star2 star1 : Z) :
  weighted_sum (NInt star5) (NInt star4) (NInt star3) (NInt star2)
    (NInt star1)
  = Some (NInt (star5 * 5 + star4 * 4 + star3 * 3 + star2 * 2 + star1 * 1)).
Proof. reflexivity. Qed.

Lemma total_percent_int (star5 star4 star3 star2 star1 : Z) :
  total_percent (NInt star5) (NInt star4) (NInt star3) (NInt star2)
    (NInt star1)
  = Some (NInt (star5 + star4 + star3 + star2 + star1)).
Proof. reflexivity. Qed.

(** ** The rating of a record *)

(** The star distribution of a record: the five integers that the code
    reads from it (a missing key reads as 0), [star5] being present. *)
Definition distribution (data : json) (star5 star4 star3 star2 star1 : Z)
    : Prop :=
  has_key "star5" data = true /\
  number_at "star5" data = Some (NInt star5) /\
  number_at "star4" data = Some (NInt star4) /\
  number_at "star3" data = Some (NInt star3) /\
  number_at "star2" data = Some (NInt star2) /\
  number_at "star1" data = Some (NInt star1).

Section Record.
Variable h : Host.
Variables (data : json) (star5 star4 star3 star2 star1 : Z).
Hypothesis Hd : distribution data star5 star4 star3 star2 star1.

Let ws := star5 * 5 + star4 * 4 + star3 * 3 + star2 * 2 + star1 * 1.
Let tp := star5 + star4 + star3 + star2 + star1.

Lemma average_rating_eq :
  average_rating data =
  if tp >? 0 then
    match Float.int_truediv ws tp with
    | Some avg => Some (Some (Float.format_fixed 1 avg))
    | None => None
    end
  else Some None.
Proof.
  destruct Hd as (_ & H5 & H4 & H3 & H2 & H1).
  unfold average_rating. rewrite H5, H4, H3, H2, H1.
  rewrite weighted_sum_int, total_percent_int, gt_int.
  reflexivity.
Qed.

Lemma data_truthy : json_truthy data = true.
Proof.
  destruct Hd as (Hk & _). destruct data as [| | | | | |m]; try discriminate.
  destruct m; [discriminate | reflexivity].
Qed.

(** What the two blocks of [_scrape_seller_page] do with the rating that
    the record yields. *)
Lemma process_twelve_month_rating (r : option string) (s : SellerInfo) :
  average_rating data = Some r ->
  seller_rating (snd (process_twelve_month h (Some data) s))
  = match r with Some t => PStr t | None => seller_rating s end.
Proof.
  intros Hr. destruct Hd as (Hk & _).
  unfold process_twelve_month. rewrite data_truthy, Hk, Hr.
  unfold when, bind, lift, modify, ret.
  destruct data as [| | | | | |m]; try discriminate.
  destruct (has_key "ratingCount" (JObj m)); destruct r; reflexivity.
Qed.

Lemma process_lifetime_rating (r : option string) (s : SellerInfo) :
  average_rating data = Some r ->
  lifetime_rating (snd (process_lifetime h (Some data) s))
  = match r with Some t => PStr t | None => lifetime_rating s end.
Proof.
  intros Hr. destruct Hd as (Hk & _).
  unfold process_lifetime. rewrite data_truthy, Hk, Hr.
  unfold when, bind, lift, modify, ret.
  destruct data as [| | | | | |m]; try discriminate.
  destruct (has_key "ratingCount" (JObj m)); destruct r; reflexivity.
Qed.

End Record.

(** C6 (as amended): for a record that has the key [star5] and whose star
    values are integers, of either sign and each of absolute value at most
    10^12: when the total is zero or negative no rating is computed and
    the rating fields keep their values; when it is positive the rating is
    the text, with one decimal, of a number of tenths [n / 10] nearest to
    the weighted average
    [(5 star5 + 4 star4 + 3 star3 + 2 star2 + star1) / total] (on a tie
    either neighbour may be the one the float arithmetic yields), after a
    minus sign when the weighted sum is negative, and both blocks store
    that text; when no value is negative, [n] is between 10 and 50. *)
Theorem rating_is_weighted_average_to_one_decimal
    (h : Host) (data : json) (star5 star4 star3 star2 star1 : Z)
    (s : SellerInfo) :
  distribution data star5 star4 star3 star2 star1 ->
  Z.abs star5 <= 10 ^ 12 -> Z.abs star4 <= 10 ^ 12 ->
  Z.abs star3 <= 10 ^ 12 -> Z.abs star2 <= 10 ^ 12 ->
  Z.abs star1 <= 10 ^ 12 ->
  let total := star5 + star4 + star3 + star2 + star1 in
  let weighted :=
    star5 * 5 + star4 * 4 + star3 * 3 + star2 * 2 + star1 * 1 in
  (total <= 0 ->
   average_rating data = Some None /\
   seller_rating (snd (process_twelve_month h (Some data) s))
     = seller_rating s /\
   lifetime_rating (snd (process_lifetime h (Some data) s))
     = lifetime_rating s) /\
  (0 < total ->
   exists n,
     0 <= n /\
     2 * Z.abs (n * total - 10 * Z.abs weighted) <= total /\
     (0 <= star5 -> 0 <= star4 -> 0 <= star3 -> 0 <= star2 -> 0 <= star1 ->
      10 <= n <= 50) /\
     average_rating data = Some (Some (sign_of weighted ++ render_tenths n)) /\
     seller_rating (snd (process_twelve_month h (Some data) s))
       = PStr (sign_of weighted ++ render_tenths n) /\
     lifetime_rating (snd (process_lifetime h (Some data) s))
       = PStr (sign_of weighted ++ render_tenths n)).
Proof.
  intros Hd B5 B4 B3 B2 B1 total weighted.
  pose proof (average_rating_eq data _ _ _ _ _ Hd) as Ha.
  fold total weighted in Ha.
  change (10 ^ 12) with 1000000000000 in *.
  split.
  - intros Hz.
    replace (total >? 0) with false in Ha
      by (symmetry; rewrite Z.gtb_ltb; apply Z.ltb_ge; exact Hz).
    split; [exact Ha|].
    split; [apply (process_twelve_month_rating h data _ _ _ _ _ Hd None s Ha)
           | apply (process_lifetime_rating h data _ _ _ _ _ Hd None s Ha)].
  - intros Hpos.
    replace (total >? 0) with true in Ha by (symmetry; apply Z.gtb_lt; exact Hpos).
    destruct (truediv_format_nearest weighted total Hpos)
      as (f & n & Hf & Hfmt & Hn0 & Hnear).
    { change (2 ^ 50) with 1125899906842624. unfold total. lia. }
    { change (2 ^ 51) with 2251799813685248. unfold weighted. lia. }
    rewrite Hf, Hfmt in Ha.
    exists n. split; [exact Hn0|]. split; [exact Hnear|].
    split; [|split; [exact Ha|]].
    2:{ split;
        [apply (process_twelve_month_rating h data _ _ _ _ _ Hd _ s Ha)
        | apply (process_lifetime_rating h data _ _ _ _ _ Hd _ s Ha)]. }
    intros P5 P4 P3 P2 P1.
    assert (Hw : total <= weighted <= 5 * total)
      by (unfold total, weighted; lia).
    rewrite (Z.abs_eq weighted) in Hnear by lia.
    split.
    + destruct (Z_lt_le_dec n 10); [exfalso | lia].
      assert (n * total <= 9 * total) by nia. lia.
    + destruct (Z_lt_le_dec 50 n); [exfalso | lia].
      assert (51 * total <= n * total) by nia. lia.
Qed.

(** The distribution of the example of the specification. *)
Definition example_record : json := Fragments.fragment_of_count (JInt 450).

Lemma example_distribution : distribution example_record 80 10 5 3 2.
Proof. repeat split. Qed.

(** Ties: the average 4.25 is stored as "4.2" and 4.35 as "4.3", while
    4.45 is stored as "4.5". *)
Example tie_ratings :
  option_map (Float.format_fixed 1) (Float.int_truediv 425 100) = Some "4.2" /\
  option_map (Float.format_fixed 1) (Float.int_truediv 435 100) = Some "4.3" /\
  option_map (Float.format_fixed 1) (Float.int_truediv 445 100) = Some "4.5".
Proof. repeat split; vm_compute; reflexivity. Qed.

(** A negative value: with [star5 = -1] and [star1 = 4] the average is
    -1/3, stored as "-0.3"; with [star5 = -10] and [star1 = 49] it is
    -1/39, stored as "-0.0". *)
Example negative_values :
  average_rating (JObj [("star5", JInt (-1)); ("star1", JInt 4)])
    = Some (Some "-0.3") /\
  average_rating (JObj [("star5", JInt (-10)); ("star1", JInt 49)])
    = Some (Some "-0.0").
Proof. split; vm_compute; reflexivity. Qed.

Lemma rating_of_example_distribution :
  distribution example_record 80 10 5 3 2 /\
  exists n,
    0 <= n /\
    2 * Z.abs (n * (80 + 10 + 5 + 3 + 2)
               - 10 * Z.abs (80 * 5 + 10 * 4 + 5 * 3 + 3 * 2 + 2 * 1))
      <= 80 + 10 + 5 + 3 + 2 /\
    (0 <= 80 -> 0 <= 10 -> 0 <= 5 -> 0 <= 3 -> 0 <= 2 -> 10 <= n <= 50) /\
    average_rating example_record
      = Some (Some (sign_of (80 * 5 + 10 * 4 + 5 * 3 + 3 * 2 + 2 * 1)
                    ++ render_tenths n)) /\
    seller_rating
      (snd (process_twelve_month Example.offline (Some example_record)
              SellerInfo_init))
      = PStr (sign_of (80 * 5 + 10 * 4 + 5 * 3 + 3 * 2 + 2 * 1)
              ++ render_tenths n) /\
    lifetime_rating
      (snd (process_lifetime Example.offline (Some example_record)
              SellerInfo_init))
      = PStr (sign_of (80 * 5 + 10 * 4 + 5 * 3 + 3 * 2 + 2 * 1)
              ++ render_tenths n).
Proof.
  split; [exact example_distribution|].
  refine (proj2 (rating_is_weighted_average_to_one_decimal Example.offline
                   example_record 80 10 5 3 2 SellerInfo_init
                   example_distribution _ _ _ _ _) _);
    lia.
Defined.

(** ** Where the claim fails *)

(** The exact weighted average of five star values, and the test that
    [n / 10] is a tenth nearest to a rational: the words of the claim. *)
Definition weighted_average (star5 star4 star3 star2 star1 : Q) : Q :=
  ((star5 * 5 + star4 * 4 + star3 * 3 + star2 * 2 + star1 * 1)
   / (star5 + star4 + star3 + star2 + star1))%Q.

Definition nearest_tenth (q : Q) (n : Z) : bool :=
  Qle_bool (Qabs (q * 10 - inject_Z n)) (1 # 2).

(** The exact value of a float that is finite. *)
Definition exact_value (f : spec_float) : Q :=
  match Num.value (NFloat f) with
  | Some (Num.Finite q) => q
  | _ => 0%Q
  end.

(** A record whose total is 100 but that has no key [star5]. *)
Definition record_without_star5 : json :=
  JObj [("ratingCount", JInt 450); ("star4", JInt 60); ("star3", JInt 40)].

(** The float next above 1, [1 + 2^-52], and the float 3. *)
Definition next_above_one : spec_float :=
  S754_finite false 4503599627370497 (-52).
Definition three : spec_float := S754_finite false 6755399441055744 (-51).

(** The weighted sum of the example is 463, not 458: the average is 4.63
    (not 4.58), and it is stored as "4.6".  A record without the key
    [star5] gets no rating, whatever its total.  A negative total is not
    zero, and no rating is computed.  Above the range of the integers
    that a float holds exactly the quotient is rounded before the text is
    made: for 10^18 + 1 five-star and 3 * 10^18 four-star ratings the
    average is above 4.25 and its nearest tenth is 4.3, and the code
    stores "4.2".  The same holds of values that are floats, which are
    rounded at every step: for the values [1 + 2^-52] and 3 the code
    stores "4.2"; and for a value that is an infinity it stores "nan". *)
Lemma rating_departs_from_the_weighted_average :
  (weighted_sum (NInt 80) (NInt 10) (NInt 5) (NInt 3) (NInt 2)
     = Some (NInt 463) /\
   total_percent (NInt 80) (NInt 10) (NInt 5) (NInt 3) (NInt 2)
     = Some (NInt 100) /\
   option_map (Float.format_fixed 2) (Float.int_truediv 463 100)
     = Some "4.63" /\
   average_rating example_record = Some (Some "4.6") /\
   seller_rating
     (snd (process_twelve_month Example.offline (Some example_record)
             SellerInfo_init)) = PStr "4.6") /\
  (seller_rating
     (snd (process_twelve_month Example.offline (Some record_without_star5)
             SellerInfo_init)) = PStr "Not found" /\
   lifetime_rating
     (snd (process_lifetime Example.offline (Some record_without_star5)
             SellerInfo_init)) = PStr "Not found" /\
   total_percent (NInt 0) (NInt 60) (NInt 40) (NInt 0) (NInt 0)
     = Some (NInt 100)) /\
  (average_rating (JObj [("star5", JInt (-1))]) = Some None /\
   total_percent (NInt (-1)) (NInt 0) (NInt 0) (NInt 0) (NInt 0)
     = Some (NInt (-1))) /\
  (average_rating
     (JObj [("star5", JInt (10 ^ 18 + 1)); ("star4", JInt (3 * 10 ^ 18))])
     = Some (Some "4.2") /\
   nearest_tenth
     (weighted_average (inject_Z (10 ^ 18 + 1)) (inject_Z (3 * 10 ^ 18))
        0 0 0) 42 = false /\
   nearest_tenth
     (weighted_average (inject_Z (10 ^ 18 + 1)) (inject_Z (3 * 10 ^ 18))
        0 0 0) 43 = true) /\
  (average_rating
     (JObj [("star5", JFloat next_above_one); ("star4", JFloat three)])
     = Some (Some "4.2") /\
   nearest_tenth
     (weighted_average (exact_value next_above_one) (exact_value three)
        0 0 0) 42 = false /\
   nearest_tenth
     (weighted_average (exact_value next_above_one) (exact_value three)
        0 0 0) 43 = true) /\
  average_rating (JObj [("star5", JFloat (S754_infinity false))])
    = Some (Some "nan").
Proof. repeat split; vm_compute; reflexivity. Qed.

End Rating.
(* ================================================================= *)
(** * More properties of the seller extractor: what each stage owns *)

Module Stages.
Import Seller.

(** ** Properties that the assignments of a group of stages keep *)

(** [P] survives the assignments made on the product page after the first
    stage (every field but the fulfilment flag and the fields of the
    seller page). *)
Definition kept_on_product_page (P : SellerInfo -> Prop) : Prop :=
  (forall v s, P s -> P (set_seller_name v s)) /\
  (forall v s, P s -> P (set_sold_by v s)) /\
  (forall v s, P s -> P (set_shipped_by v s)) /\
  (forall b s, P s -> P (set_is_amazon b s)) /\
  (forall v s, P s -> P (set_seller_store_url v s)) /\
  (forall v s, P s -> P (set_seller_id v s)) /\
  (forall v s, P s -> P (set_seller_rating v s)) /\
  (forall v s, P s -> P (set_seller_reviews v s)).

(** [P] survives the assignments made from the seller page. *)
Definition kept_on_seller_page (P : SellerInfo -> Prop) : Prop :=
  (forall v s, P s -> P (set_seller_rating v s)) /\
  (forall v s, P s -> P (set_seller_reviews v s)) /\
  (forall v s, P s -> P (set_lifetime_rating v s)) /\
  (forall v s, P s -> P (set_lifetime_reviews v s)) /\
  (forall v s, P s -> P (set_positive_feedback v s)).

(** Closes [P (stage s)] from [P s] and the hypotheses on the setters. *)
Ltac by_setters :=
  split_cases;
  repeat match goal with
         | H : forall v s, _ -> ?P (?set v s) |- ?P (?set _ _) => apply H
         end;
  try assumption.

Section Keep.
Variable h : Host.
Variable P : SellerInfo -> Prop.

Section ProductPage.
Hypothesis HP : kept_on_product_page P.

Lemma badge_keeps (soup : Tag) (s : SellerInfo) :
  P s -> P (check_amazon_badge soup s).
Proof.
  destruct HP as (H1 & H2 & H3 & H4 & H5 & H6 & H7 & H8).
  intros Hs. unfold check_amazon_badge. by_setters.
Qed.

Lemma buybox_keeps (soup : Tag) (s : SellerInfo) :
  P s -> P (extract_seller_from_buybox soup s).
Proof.
  destruct HP as (H1 & H2 & H3 & H4 & H5 & H6 & H7 & H8).
  intros Hs. unfold extract_seller_from_buybox. by_setters.
Qed.

Lemma links_keep (soup : Tag) :
  keeps P (extract_seller_from_links h soup).
Proof.
  destruct HP as (H1 & H2 & H3 & H4 & H5 & H6 & H7 & H8).
  unfold extract_seller_from_links.
  keep_steps; apply keeps_modify; intros ? Hs;
    solve [ unfold profile_link_name; by_setters
          | unfold byline_store_name; by_setters
          | by_setters ].
Qed.

Lemma feedback_keeps (soup : Tag) (s : SellerInfo) :
  P s -> P (extract_seller_feedback soup s).
Proof.
  destruct HP as (H1 & H2 & H3 & H4 & H5 & H6 & H7 & H8).
  intros Hs. unfold extract_seller_feedback. by_setters.
Qed.

Lemma detail_bullet_keeps (s : SellerInfo) (b : Tag) :
  P s -> P (detail_bullet s b).
Proof.
  destruct HP as (H1 & H2 & H3 & H4 & H5 & H6 & H7 & H8).
  intros Hs. unfold detail_bullet. by_setters.
Qed.

Lemma detail_bullets_keep (soup : Tag) (s : SellerInfo) :
  P s -> P (extract_detail_bullets soup s).
Proof.
  unfold extract_detail_bullets. destruct (find soup _) as [d|]; [|auto].
  generalize (find_all d (QName "li")). intros bs. revert s.
  induction bs as [|b bs IH]; intros s Hs; [exact Hs|].
  simpl. apply IH. now apply detail_bullet_keeps.
Qed.

Lemma clean_names_keep (s : SellerInfo) : P s -> P (clean_names s).
Proof.
  destruct HP as (H1 & H2 & _). intros Hs. unfold clean_names.
  apply H2, H1, Hs.
Qed.

End ProductPage.

Section SellerPage.
Hypothesis HP : kept_on_seller_page P.

Lemma overrides_keep (soup : Tag) (s : SellerInfo) :
  P s ->
  P (override_rating_year soup s) /\
  P (override_effective_period soup s) /\
  P (override_review_count soup s) /\
  P (extract_positive_feedback soup s).
Proof.
  destruct HP as (H1 & H2 & H3 & H4 & H5). intros Hs.
  unfold override_rating_year, override_effective_period,
    override_review_count, extract_positive_feedback.
  repeat split; by_setters.
Qed.

Lemma seller_page_body_keeps : keeps P (scrape_seller_page_body h).
Proof.
  pose proof HP as (H1 & H2 & H3 & H4 & H5).
  unfold scrape_seller_page_body, process_twelve_month, process_lifetime.
  keep_steps;
    apply keeps_modify; intros ? Hs;
    first [ now apply H1 | now apply H2 | now apply H3 | now apply H4
          | apply (overrides_keep _ _ Hs) ].
Qed.

Lemma seller_page_keeps (s : SellerInfo) :
  P s -> P (scrape_seller_page_if_any h s).
Proof.
  intros Hs. unfold scrape_seller_page_if_any. destruct (_ && _); [|exact Hs].
  unfold scrape_seller_page.
  apply keeps_try_pass; [apply seller_page_body_keeps | exact Hs].
Qed.

End SellerPage.

(** A property that every assignment of the product page and of the
    seller page keeps, and that holds when the links stage starts, holds
    of the record that the extractor returns, whether or not the links
    stage raises. *)
Lemma details_keep (soup : Tag) (url : string) :
  kept_on_product_page P -> kept_on_seller_page P ->
  P (before_links soup) -> P (extract_seller_details h soup url).
Proof.
  intros HP HS H0. rewrite extract_seller_details_cases.
  assert (H1 : P (after_the_links h soup)) by now apply (links_keep HP).
  destruct (links_raise h soup); [exact H1|].
  unfold after_links.
  now apply (clean_names_keep HP), (seller_page_keeps HS),
    (detail_bullets_keep HP), (feedback_keeps HP).
Qed.

Lemma before_links_keep (soup : Tag) :
  kept_on_product_page P ->
  P (check_fulfilled_by_amazon soup SellerInfo_init) ->
  P (before_links soup).
Proof.
  intros HP H0. unfold before_links.
  now apply (buybox_keeps HP), (badge_keeps HP).
Qed.

End Keep.


(** ** The fields that nothing fills in *)

Definition since_and_description_unset (s : SellerInfo) : Prop :=
  seller_since s = PStr "Not found" /\
  seller_description s = PStr "Not found".

Lemma unset_kept_on_product_page :
  kept_on_product_page since_and_description_unset.
Proof. repeat split; destruct H; assumption. Qed.

Lemma unset_kept_on_seller_page :
  kept_on_seller_page since_and_description_unset.
Proof. repeat split; destruct H; assumption. Qed.

Lemma display_lines (p : Product) :
  stdout_of (display p)
  = ([ nl ++ " Successfully scraped!";
      "Title: " ++ Str.take 50 (title p) ++ "...";
      "Brand: " ++ brand p;
      "Price: " ++ price p;
      "Rating: " ++ rating p;
      "Reviews: " ++ reviews p;
      "Images: " ++ Float.str_nat (Z.of_nat (image_count p)) ++ " found" ]%string
    ++ Display.seller_lines (seller_details p))%list.
Proof.
  unfold stdout_of, display.
  repeat rewrite Display.run_print.
  now rewrite Display.display_seller_details_lines.
Qed.

Lemma details_since_and_description_unset
    (h : Host) (soup : Tag) (url : string) :
  since_and_description_unset (extract_seller_details h soup url).
Proof.
  apply (details_keep h _ soup url unset_kept_on_product_page
           unset_kept_on_seller_page),
    (before_links_keep _ soup unset_kept_on_product_page).
  unfold check_fulfilled_by_amazon. split_cases; split; reflexivity.
Qed.

(** [seller_since] and [seller_description] are never assigned: on every
    document and host they hold the sentinel, and the summary of a scraped
    product has neither a "Seller Since" nor a "Seller Description"
    line. *)
Theorem seller_since_and_description_stay_unset
    (h : Host) (page : Tag) (url : string) :
  seller_since (extract_seller_details h page url) = PStr "Not found" /\
  seller_description (extract_seller_details h page url) = PStr "Not found" /\
  match scrape h url with
  | Some p =>
      shows L_seller_since (stdout_of (display p)) = false /\
      shows L_seller_description (stdout_of (display p)) = false
  | None => True
  end.
Proof.
  pose proof (details_since_and_description_unset h) as U.
  split; [apply U|]. split; [apply U|].
  pose proof (Images.scrape_inversion h url) as H.
  destruct (scrape h url) as [p|]; [|exact I].
  destruct H as (r & _ & _ & _ & _ & Hd).
  destruct (U (soup r) url) as [H1 H2]. rewrite <- Hd in H1, H2.
  rewrite display_lines.
  split; rewrite Display.shows_app; unfold Display.seller_lines;
    rewrite H1, H2; Display.eval_shows; reflexivity.
Qed.

(** [display] raises exactly when [seller_description] is [None], which
    cannot be sliced; it has then printed every other line. *)
Lemma display_result (p : Product) (out : list string) :
  fst (display p out)
  = match seller_description (seller_details p) with
    | PStr _ => Some tt
    | PNone => None
    end.
Proof.
  unfold display, display_seller_details.
  repeat match goal with
         | |- context [bind (print ?s) ?k ?o] =>
             change (bind (print s) k o) with (k tt (o ++ [s])%list);
             cbv beta
         | |- context [bind (when ?b (print ?s)) ?k ?o] =>
             replace (bind (when b (print s)) k o)
               with (k tt (o ++ Display.line_if b s)%list)
               by (destruct b; cbn [Display.line_if];
                   [reflexivity | now rewrite app_nil_r]);
             cbv beta
         end.
  destruct (seller_description (seller_details p)) as [|d]; [reflexivity|].
  cbn [py_eq negb]. destruct (negb _); reflexivity.
Qed.

(** The summary of a scraped product is always printed to the end:
    [display] does not raise on it, and prints the seven product lines,
    the five fixed lines of the seller block and at most seven of the
    guarded ones. *)
Theorem display_of_a_scraped_product_completes (h : Host) (url : string) :
  match scrape h url with
  | Some p =>
      fst (display p []) = Some tt /\
      12 <= List.length (stdout_of (display p)) <= 19
  | None => True
  end.
Proof.
  pose proof (Images.scrape_inversion h url) as H.
  destruct (scrape h url) as [p|]; [|exact I].
  destruct H as (r & _ & _ & _ & _ & Hd).
  destruct (details_since_and_description_unset h (soup r) url)
    as [H1 H2].
  rewrite <- Hd in H1, H2. split.
  - rewrite display_result. now rewrite H2.
  - rewrite display_lines. unfold Display.seller_lines.
    rewrite H1, H2. rewrite !length_app. cbn [List.length].
    change (Display.is_set (PStr "Not found")) with false.
    cbn [Display.line_if List.length].
    repeat match goal with
           | |- context [Display.line_if ?b ?s] =>
               destruct b; cbn [Display.line_if List.length]
           end; lia.
Qed.

(** ** The two flags *)

Lemma flag_kept_on_product_page (b : bool) :
  kept_on_product_page (fun s => is_fulfilled_by_amazon s = b).
Proof. repeat split; intros; assumption. Qed.

Lemma flag_kept_on_seller_page (b : bool) :
  kept_on_seller_page (fun s => is_fulfilled_by_amazon s = b).
Proof. repeat split; intros; assumption. Qed.

Lemma amazon_kept_on_seller_page (b : bool) :
  kept_on_seller_page (fun s => is_amazon s = b).
Proof. repeat split; intros; assumption. Qed.

Lemma links_keep_amazon (h : Host) (soup : Tag) (b : bool) :
  keeps (fun s => is_amazon s = b) (extract_seller_from_links h soup).
Proof.
  unfold extract_seller_from_links.
  keep_steps; apply keeps_modify; intros ? Hs;
    solve [ unfold profile_link_name; split_cases; exact Hs
          | unfold byline_store_name; split_cases; exact Hs
          | exact Hs ].
Qed.

Lemma feedback_keeps_amazon (soup : Tag) (s : SellerInfo) :
  is_amazon (extract_seller_feedback soup s) = is_amazon s.
Proof. unfold extract_seller_feedback. split_cases; reflexivity. Qed.

Lemma detail_bullets_keep_amazon (soup : Tag) (s : SellerInfo) :
  is_amazon (extract_detail_bullets soup s) = is_amazon s.
Proof.
  unfold extract_detail_bullets. destruct (find soup _) as [d|]; [|reflexivity].
  generalize (find_all d (QName "li")). intros bs. revert s.
  induction bs as [|b bs IH]; intros s; [reflexivity|].
  simpl. rewrite IH. unfold detail_bullet. split_cases; reflexivity.
Qed.

Lemma badge_buybox_amazon (soup : Tag) (s s' : SellerInfo) :
  is_amazon s = is_amazon s' ->
  is_amazon (extract_seller_from_buybox soup (check_amazon_badge soup s))
  = is_amazon (extract_seller_from_buybox soup (check_amazon_badge soup s')).
Proof.
  intros H. unfold extract_seller_from_buybox, check_amazon_badge.
  split_cases; try reflexivity; exact H.
Qed.

(** The record as it is before the seller page is looked at, when the
    links stage has not raised. *)
Definition before_seller_page (h : Host) (soup : Tag) : SellerInfo :=
  extract_detail_bullets soup
    (extract_seller_feedback soup (after_the_links h soup)).

Lemma extract_seller_details_stages (h : Host) (soup : Tag) (url : string) :
  extract_seller_details h soup url
  = if links_raise h soup then after_the_links h soup
    else clean_names (scrape_seller_page_if_any h (before_seller_page h soup)).
Proof. apply extract_seller_details_cases. Qed.

Lemma amazon_after_the_links (h : Host) (soup : Tag) :
  is_amazon (after_the_links h soup)
  = is_amazon (extract_seller_from_buybox soup
                 (check_amazon_badge soup SellerInfo_init)).
Proof.
  unfold after_the_links.
  rewrite (links_keep_amazon h soup _ (before_links soup) eq_refl).
  apply badge_buybox_amazon.
  unfold check_fulfilled_by_amazon. split_cases; reflexivity.
Qed.

Lemma amazon_before_seller_page (h : Host) (soup : Tag) :
  is_amazon (before_seller_page h soup)
  = is_amazon (extract_seller_from_buybox soup
                 (check_amazon_badge soup SellerInfo_init)).
Proof.
  unfold before_seller_page.
  rewrite detail_bullets_keep_amazon, feedback_keeps_amazon.
  apply amazon_after_the_links.
Qed.

(** The flags are decided on the product page by the first stages alone:
    [is_fulfilled_by_amazon] is whether the text search found anything,
    and [is_amazon] is what the badge and the buybox stages make of the
    initial record; no later stage, and nothing on the seller page,
    changes either. *)
Theorem flags_are_decided_by_the_first_stages
    (h : Host) (soup : Tag) (url : string) :
  is_fulfilled_by_amazon (extract_seller_details h soup url)
  = match find_all_string soup "fulfilled.*amazon|amazon.*fulfilled" true with
    | [] => false
    | _ :: _ => true
    end /\
  is_amazon (extract_seller_details h soup url)
  = is_amazon (extract_seller_from_buybox soup
                 (check_amazon_badge soup SellerInfo_init)).
Proof.
  split.
  - set (b := match find_all_string soup _ true with [] => false | _ => true end).
    apply (details_keep h _ soup url (flag_kept_on_product_page b)
             (flag_kept_on_seller_page b)),
      (before_links_keep _ soup (flag_kept_on_product_page b)).
    unfold b, check_fulfilled_by_amazon. split_cases; reflexivity.
  - rewrite extract_seller_details_stages.
    destruct (links_raise h soup); [apply amazon_after_the_links|].
    rewrite <- (amazon_before_seller_page h soup).
    change (is_amazon (clean_names ?s)) with (is_amazon s).
    now apply (seller_page_keeps h _ (amazon_kept_on_seller_page _)).
Qed.

(** ** The fields that only the seller page fills in *)

Definition page_fields_unset (s : SellerInfo) : Prop :=
  lifetime_rating s = PStr "Not found" /\
  lifetime_reviews s = PStr "Not found" /\
  positive_feedback s = PStr "Not found".

Lemma page_fields_kept_on_product_page :
  kept_on_product_page page_fields_unset.
Proof. repeat split; destruct H as (? & ? & ?); assumption. Qed.

Lemma page_fields_after_the_links (h : Host) (soup : Tag) :
  page_fields_unset (after_the_links h soup).
Proof.
  apply (links_keep h _ page_fields_kept_on_product_page),
    (before_links_keep _ soup page_fields_kept_on_product_page).
  unfold check_fulfilled_by_amazon. split_cases; repeat split.
Qed.

Lemma page_fields_before_seller_page (h : Host) (soup : Tag) :
  page_fields_unset (before_seller_page h soup).
Proof.
  unfold before_seller_page.
  apply (detail_bullets_keep _ page_fields_kept_on_product_page),
    (feedback_keeps _ page_fields_kept_on_product_page),
    page_fields_after_the_links.
Qed.

Lemma url_kept_on_seller_page (v : pyval) :
  kept_on_seller_page (fun s => seller_store_url s = v).
Proof. repeat split; intros; assumption. Qed.

(** When the returned record is marked as Amazon's, or has no store URL,
    the seller page was not looked at: the lifetime rating, the lifetime
    review count and the positive feedback hold the sentinel. *)
Theorem amazon_or_no_store_url_means_no_seller_page_data
    (h : Host) (soup : Tag) (url : string) :
  is_amazon (extract_seller_details h soup url) = true \/
  seller_store_url (extract_seller_details h soup url) = PStr "Not found" ->
  lifetime_rating (extract_seller_details h soup url) = PStr "Not found" /\
  lifetime_reviews (extract_seller_details h soup url) = PStr "Not found" /\
  positive_feedback (extract_seller_details h soup url) = PStr "Not found".
Proof.
  rewrite extract_seller_details_stages.
  destruct (links_raise h soup);
    [intros _; apply page_fields_after_the_links|].
  set (s := before_seller_page h soup).
  change (is_amazon (clean_names ?x)) with (is_amazon x).
  change (seller_store_url (clean_names ?x)) with (seller_store_url x).
  change (lifetime_rating (clean_names ?x)) with (lifetime_rating x).
  change (lifetime_reviews (clean_names ?x)) with (lifetime_reviews x).
  change (positive_feedback (clean_names ?x)) with (positive_feedback x).
  rewrite (seller_page_keeps h _ (amazon_kept_on_seller_page _) s eq_refl).
  rewrite (seller_page_keeps h _ (url_kept_on_seller_page _) s eq_refl).
  intros H.
  assert (E : scrape_seller_page_if_any h s = s).
  { unfold scrape_seller_page_if_any.
    destruct H as [H|H]; rewrite H; simpl; [now rewrite andb_false_r | reflexivity]. }
  rewrite E. apply page_fields_before_seller_page.
Qed.

Lemma no_seller_page_data_witness :
  lifetime_rating
    (extract_seller_details Example.offline (Example.document [] []) "u")
    = PStr "Not found" /\
  lifetime_reviews
    (extract_seller_details Example.offline (Example.document [] []) "u")
    = PStr "Not found" /\
  positive_feedback
    (extract_seller_details Example.offline (Example.document [] []) "u")
    = PStr "Not found".
Proof.
  apply (amazon_or_no_store_url_means_no_seller_page_data
           Example.offline (Example.document [] []) "u").
  right. reflexivity.
Defined.


(** ** The store URL *)

(** The store URL that the two links give.  The address of the profile
    link comes first; when [urljoin] raises on it the stage ends and the
    URL stays the sentinel.  The address of the byline link is used when
    the first gave nothing; when [urljoin] raises on it the stage ends
    with the URL that the profile link gave. *)
Definition resolved_store_url (h : Host) (soup : Tag) : pyval :=
  let from_profile :=
    match link_href soup (QAttr "a" "id" "sellerProfileTriggerId") with
    | PStr href => urljoin h BASE_URL href
    | PNone => Some "Not found"
    end in
  match from_profile with
  | Some seller_url =>
      match link_href soup (QAttr "a" "id" "bylineInfo") with
      | PStr href =>
          match urljoin h BASE_URL href with
          | Some store_url =>
              if String.eqb seller_url "Not found" then PStr store_url
              else PStr seller_url
          | None => PStr seller_url
          end
      | PNone => PStr seller_url
      end
  | None => PStr "Not found"
  end.

Lemma first_stages_keep_url (soup : Tag) (s : SellerInfo) :
  seller_store_url
    (extract_seller_from_buybox soup
       (check_amazon_badge soup (check_fulfilled_by_amazon soup s)))
  = seller_store_url s.
Proof.
  unfold extract_seller_from_buybox, check_amazon_badge,
    check_fulfilled_by_amazon.
  split_cases; reflexivity.
Qed.

Lemma feedback_keeps_url (soup : Tag) (s : SellerInfo) :
  seller_store_url (extract_seller_feedback soup s) = seller_store_url s.
Proof. unfold extract_seller_feedback. split_cases; reflexivity. Qed.

Lemma detail_bullets_keep_url (soup : Tag) (s : SellerInfo) :
  seller_store_url (extract_detail_bullets soup s) = seller_store_url s.
Proof.
  unfold extract_detail_bullets. destruct (find soup _) as [d|]; [|reflexivity].
  generalize (find_all d (QName "li")). intros bs. revert s.
  induction bs as [|b bs IH]; intros s; [reflexivity|].
  simpl. rewrite IH. unfold detail_bullet. split_cases; reflexivity.
Qed.

Lemma profile_link_name_url (link : Tag) (s : SellerInfo) :
  seller_store_url (profile_link_name link s) = seller_store_url s.
Proof. unfold profile_link_name. split_cases; reflexivity. Qed.

Lemma byline_store_name_url (link : Tag) (s : SellerInfo) :
  seller_store_url (byline_store_name link s) = seller_store_url s.
Proof. unfold byline_store_name. split_cases; reflexivity. Qed.

(** Splits on an innermost test, keeping its equation. *)
Ltac split_innermost :=
  match goal with
  | |- context [match ?x with _ => _ end] =>
      lazymatch x with
      | context [match _ with _ => _ end] => fail
      | _ => destruct x eqn:?
      end
  end.

Lemma links_set_url (h : Host) (soup : Tag) (s : SellerInfo) :
  seller_store_url s = PStr "Not found" ->
  seller_store_url (snd (extract_seller_from_links h soup s))
  = resolved_store_url h soup.
Proof.
  intros H. unfold extract_seller_from_links, resolved_store_url, link_href.
  unfold bind, modify, lift, get, when, ret, raise.
  destruct (find soup (QAttr "a" "id" "sellerProfileTriggerId")) as [l1|];
    [destruct (attr_get "href" (attrs l1)) as [|h1];
     [|destruct (urljoin h BASE_URL h1) as [u1|]]|];
    (destruct (find soup (QAttr "a" "id" "bylineInfo")) as [l2|];
     [destruct (attr_get "href" (attrs l2)) as [|h2];
      [|destruct (urljoin h BASE_URL h2) as [u2|]]|]);
    cbn [fst snd seller_store_url set_seller_store_url set_seller_id];
    rewrite ?byline_store_name_url;
    cbn [seller_store_url set_seller_store_url set_seller_id];
    rewrite ?profile_link_name_url, ?H;
    cbn [py_eq String.eqb];
    try reflexivity;
    try (change (String.eqb "Not found" "Not found") with true; cbv iota;
         cbn [snd seller_store_url set_seller_store_url];
         reflexivity);
    try (destruct (String.eqb u1 "Not found");
         cbn [snd seller_store_url set_seller_store_url set_seller_id];
         rewrite ?byline_store_name_url;
         cbn [seller_store_url set_seller_store_url set_seller_id];
         reflexivity).
Qed.

(** The store URL of the returned record is the one the links stage
    resolves: the profile link's address, else the byline link's, else the
    sentinel; an exception of [urljoin] ends the stage with the URL
    assigned until then; no other stage and nothing on the seller page
    changes it. *)
Theorem store_url_is_resolved_from_the_links
    (h : Host) (soup : Tag) (url : string) :
  seller_store_url (extract_seller_details h soup url)
  = resolved_store_url h soup.
Proof.
  assert (L : seller_store_url (after_the_links h soup)
              = resolved_store_url h soup).
  { apply links_set_url. unfold before_links.
    now rewrite first_stages_keep_url. }
  rewrite extract_seller_details_stages.
  destruct (links_raise h soup); [exact L|].
  change (seller_store_url (clean_names ?x)) with (seller_store_url x).
  rewrite (seller_page_keeps h _ (url_kept_on_seller_page _) _ eq_refl).
  unfold before_seller_page.
  now rewrite detail_bullets_keep_url, feedback_keeps_url.
Qed.

(** A host whose [urljoin] rejects a reference with an ill-formed host
    part, as the library does with ValueError. *)
Definition strict_host : Host :=
  {| urljoin := fun base url =>
       if Str.startswith "//[" url then None else Some (base ++ url);
     urlparse_rejects := fun _ => false;
     unquote := fun s => s;
     json_loads := fun _ => None;
     py_repr := fun _ => "";
     http_get := fun _ => None;
     rates_PKR := None |}.

(** A profile link that resolves and a byline link whose address is
    rejected: the stage raises at the second, and the URL of the first
    stays. *)
Example store_url_when_the_byline_is_rejected :
  seller_store_url
    (extract_seller_details strict_host
       (Example.document
          [(QAttr "a" "id" "sellerProfileTriggerId",
            [Example.leaf "Acme" [("href", "/sp?seller=A1")]]);
           (QAttr "a" "id" "bylineInfo",
            [Example.leaf "Visit the Acme Store" [("href", "//[bad")]])] [])
       "https://www.amazon.com/dp/B000000000")
  = PStr "https://www.amazon.com/sp?seller=A1".
Proof. reflexivity. Qed.

(** ** A seller page that cannot be used *)

Lemma read_fragments_non_object (l : list (nat * json)) (x : nat * json) :
  In x l -> (forall m, snd x <> JObj m) -> read_fragments l = None.
Proof.
  intros Hin Hx. induction l as [|[i d] l IH]; [contradiction|].
  destruct Hin as [<-|Hin].
  - simpl in *. destruct d as [| | | | | |m]; try reflexivity.
    now destruct (Hx m).
  - simpl. rewrite (IH Hin). now split_cases.
Qed.

(** The rating scripts of a seller page, decoded. *)
Definition rating_scripts (h : Host) (r : Response) : list (nat * json) :=
  collect_scripts h 0 (find_all (soup r) (QAttr "script" "type" "a-state")).

(** When the request for the seller page raises, or is answered with a
    status other than 200, or one of the decoded rating scripts is not an
    object, the step leaves the record exactly as it was (the elements of
    the page are not read either). *)
Theorem unusable_seller_page_changes_nothing
    (h : Host) (s : SellerInfo) (u : string) :
  seller_store_url s = PStr u ->
  http_get h u = None \/
  (exists r, http_get h u = Some r /\
     (status_code r <> 200%Z \/
      exists x, In x (rating_scripts h r) /\ forall m, snd x <> JObj m)) ->
  scrape_seller_page h s = s.
Proof.
  intros Hu H. unfold scrape_seller_page, try_pass, scrape_seller_page_body.
  unfold bind at 1. unfold get. unfold bind at 1. rewrite Hu. cbn [lift ret].
  unfold bind at 1.
  destruct H as [H|(r & H & [Hs|(x & Hin & Hx)])]; rewrite H; cbn [lift ret raise snd].
  - reflexivity.
  - destruct (Z.eqb_spec (status_code r) 200) as [E|_]; [contradiction|].
    reflexivity.
  - destruct (status_code r =? 200)%Z; [|reflexivity].
    cbn [when]. unfold bind at 1.
    fold (rating_scripts h r).
    now rewrite (read_fragments_non_object _ x Hin Hx).
Qed.

Lemma unusable_seller_page_witness :
  scrape_seller_page Example.offline
    (set_seller_store_url (PStr "https://www.amazon.com/sp?seller=A1")
       SellerInfo_init)
  = set_seller_store_url (PStr "https://www.amazon.com/sp?seller=A1")
      SellerInfo_init.
Proof.
  apply (unusable_seller_page_changes_nothing Example.offline _
           "https://www.amazon.com/sp?seller=A1");
    [reflexivity | left; reflexivity].
Defined.

(** ** The positive feedback *)

(** The positive feedback is unset or is the text of the page's
    [percentFiveStar] element. *)
Definition feedback_of (page : Tag) (s : SellerInfo) : Prop :=
  positive_feedback s = PStr "Not found" \/
  exists e, find page (QAttr "span" "id" "percentFiveStar") = Some e /\
            positive_feedback s = PStr (text_strip e).

Lemma feedback_of_kept (page : Tag) :
  (forall v s, feedback_of page s -> feedback_of page (set_seller_rating v s)) /\
  (forall v s, feedback_of page s -> feedback_of page (set_seller_reviews v s)) /\
  (forall v s, feedback_of page s -> feedback_of page (set_lifetime_rating v s)) /\
  (forall v s, feedback_of page s -> feedback_of page (set_lifetime_reviews v s)).
Proof. repeat split; intros v s H; exact H. Qed.

Lemma feedback_of_overrides (page : Tag) (s : SellerInfo) :
  feedback_of page s ->
  feedback_of page (override_rating_year page s) /\
  feedback_of page (override_effective_period page s) /\
  feedback_of page (override_review_count page s).
Proof.
  destruct (feedback_of_kept page) as (H1 & H2 & H3 & H4). intros Hs.
  unfold override_rating_year, override_effective_period,
    override_review_count.
  repeat split; by_setters.
Qed.

Lemma feedback_of_step (page : Tag) (s : SellerInfo) :
  feedback_of page s -> feedback_of page (extract_positive_feedback page s).
Proof.
  intros H. unfold extract_positive_feedback.
  destruct (find page (QAttr "span" "id" "percentFiveStar")) as [e|] eqn:E.
  - right. exists e. now split.
  - destruct H as [H|(e & He & _)]; [|congruence].
    rewrite H. cbn [truthy Str.is_empty negb]. left. exact H.
Qed.

Lemma seller_page_feedback (h : Host) (s : SellerInfo) :
  positive_feedback s = PStr "Not found" ->
  positive_feedback (scrape_seller_page h s) = PStr "Not found" \/
  exists u r e,
    seller_store_url s = PStr u /\
    http_get h u = Some r /\ status_code r = 200%Z /\
    find (soup r) (QAttr "span" "id" "percentFiveStar") = Some e /\
    positive_feedback (scrape_seller_page h s) = PStr (text_strip e).
Proof.
  intros Hf. remember (scrape_seller_page h s) as s' eqn:E.
  unfold scrape_seller_page, try_pass, scrape_seller_page_body in E.
  unfold bind at 1 in E. unfold get in E. unfold bind at 1 in E.
  destruct (seller_store_url s) as [|u]; [subst s'; now left|].
  cbn [lift ret] in E. unfold bind at 1 in E.
  destruct (http_get h u) as [r|] eqn:Hr; cbn [lift ret raise snd] in E;
    [|subst s'; now left].
  destruct (Z.eqb_spec (status_code r) 200) as [Hs|_]; [|subst s'; now left].
  cbn [when] in E.
  assert (K : feedback_of (soup r) s').
  { rewrite E.
    match goal with
    | |- feedback_of _ (snd (?m s)) =>
        enough (keeps (feedback_of (soup r)) m) as Hk
          by (apply Hk; now left)
    end.
    destruct (feedback_of_kept (soup r)) as (H1 & H2 & H3 & H4).
    unfold process_twelve_month, process_lifetime.
    keep_steps;
      apply keeps_modify; intros ? Hq;
      first [ now apply H1 | now apply H2 | now apply H3 | now apply H4
            | now apply feedback_of_step
            | apply (feedback_of_overrides _ _ Hq) ]. }
  destruct K as [K|(e & He & K)]; [now left|].
  right. exists u, r, e. repeat split; assumption.
Qed.

(** The positive feedback of the returned record is the sentinel or the
    text of the [percentFiveStar] element of the seller page, fetched with
    status 200 from the store URL: the search of the page text for a
    percentage never contributes, because it is tried only when the field
    is empty, and the field holds the sentinel there. *)
Theorem positive_feedback_is_unset_or_the_five_star_element
    (h : Host) (page : Tag) (url : string) :
  positive_feedback (extract_seller_details h page url) = PStr "Not found" \/
  exists u r e,
    seller_store_url (extract_seller_details h page url) = PStr u /\
    http_get h u = Some r /\ status_code r = 200%Z /\
    find (soup r) (QAttr "span" "id" "percentFiveStar") = Some e /\
    positive_feedback (extract_seller_details h page url)
    = PStr (text_strip e).
Proof.
  rewrite extract_seller_details_stages.
  destruct (links_raise h page);
    [left; apply page_fields_after_the_links|].
  set (s := before_seller_page h page).
  change (positive_feedback (clean_names ?x)) with (positive_feedback x).
  change (seller_store_url (clean_names ?x)) with (seller_store_url x).
  rewrite (seller_page_keeps h _ (url_kept_on_seller_page _) s eq_refl).
  destruct (page_fields_before_seller_page h page) as (_ & _ & Hf).
  fold s in Hf.
  unfold scrape_seller_page_if_any.
  destruct (_ && _); [|now left].
  apply (seller_page_feedback h s Hf).
Qed.

(** ** What the seller page leaves alone *)

(** The fields that the seller page does not assign agree with those of
    [s0]. *)
Definition same_identity (s0 s : SellerInfo) : Prop :=
  seller_name s = seller_name s0 /\
  seller_store_url s = seller_store_url s0 /\
  seller_since s = seller_since s0 /\
  shipped_by s = shipped_by s0 /\
  sold_by s = sold_by s0 /\
  seller_description s = seller_description s0 /\
  seller_id s = seller_id s0 /\
  is_amazon s = is_amazon s0 /\
  is_fulfilled_by_amazon s = is_fulfilled_by_amazon s0.

Lemma same_identity_kept (s0 : SellerInfo) :
  kept_on_seller_page (same_identity s0).
Proof. repeat split; destruct H as (?&?&?&?&?&?&?&?&?); assumption. Qed.

(** Whatever the seller page holds and however the step ends, by return
    or by exception, [_scrape_seller_page] changes none of the name, the
    store URL, the seller-since text, the shipper, the sold-by text, the
    description, the identifier and the two flags: it assigns only the
    two ratings, the two review counts and the positive feedback. *)
Theorem seller_page_changes_only_the_rating_fields
    (h : Host) (s : SellerInfo) :
  seller_name (scrape_seller_page h s) = seller_name s /\
  seller_store_url (scrape_seller_page h s) = seller_store_url s /\
  seller_since (scrape_seller_page h s) = seller_since s /\
  shipped_by (scrape_seller_page h s) = shipped_by s /\
  sold_by (scrape_seller_page h s) = sold_by s /\
  seller_description (scrape_seller_page h s) = seller_description s /\
  seller_id (scrape_seller_page h s) = seller_id s /\
  is_amazon (scrape_seller_page h s) = is_amazon s /\
  is_fulfilled_by_amazon (scrape_seller_page h s) = is_fulfilled_by_amazon s.
Proof.
  change (same_identity s (scrape_seller_page h s)).
  unfold scrape_seller_page. apply keeps_try_pass.
  - apply (seller_page_body_keeps h _ (same_identity_kept s)).
  - repeat split.
Qed.

(** ** The seller name that is found first *)

(** The name after the badge and the buybox stages. *)
Definition name_on_the_buybox (soup : Tag) : pyval :=
  seller_name
    (extract_seller_from_buybox soup
       (check_amazon_badge soup SellerInfo_init)).

Lemma first_stages_name (soup : Tag) :
  seller_name (before_links soup) = name_on_the_buybox soup.
Proof.
  unfold before_links, name_on_the_buybox, extract_seller_from_buybox,
    check_amazon_badge, check_fulfilled_by_amazon.
  split_cases; reflexivity.
Qed.

Lemma links_keep_name (h : Host) (soup : Tag) (s : SellerInfo) :
  py_eq (seller_name s) "Not found" = false ->
  seller_name (snd (extract_seller_from_links h soup s)) = seller_name s.
Proof.
  intros H.
  enough (K : keeps (fun s' => seller_name s' = seller_name s)
                (extract_seller_from_links h soup)) by now apply K.
  unfold extract_seller_from_links.
  keep_steps; apply keeps_modify; intros s' Hs';
    solve [ exact Hs'
          | unfold profile_link_name; rewrite Hs', H; now split_cases
          | unfold byline_store_name; rewrite Hs', H;
            rewrite andb_false_r; now split_cases ].
Qed.

Lemma feedback_keeps_name (soup : Tag) (s : SellerInfo) :
  seller_name (extract_seller_feedback soup s) = seller_name s.
Proof. unfold extract_seller_feedback. split_cases; reflexivity. Qed.

Lemma detail_bullets_keep_name (soup : Tag) (s : SellerInfo) :
  py_eq (seller_name s) "Not found" = false ->
  seller_name (extract_detail_bullets soup s) = seller_name s.
Proof.
  unfold extract_detail_bullets. destruct (find soup _) as [d|]; [|reflexivity].
  generalize (find_all d (QName "li")). intros bs. revert s.
  induction bs as [|b bs IH]; intros s H; [reflexivity|].
  assert (E : seller_name (detail_bullet s b) = seller_name s).
  { unfold detail_bullet.
    repeat (split_innermost;
            cbn [py_eq seller_name set_seller_name set_sold_by] in *;
            try rewrite H in *);
      try reflexivity; try congruence. }
  simpl. rewrite IH; rewrite E; [reflexivity | exact H].
Qed.

Lemma name_kept_on_seller_page (v : pyval) :
  kept_on_seller_page (fun s => seller_name s = v).
Proof. repeat split; intros; assumption. Qed.

(** A page whose buybox reads "Sold by Acme" and whose profile link reads
    "Other". *)
Definition named_twice : Tag :=
  Example.document
    [(QAttr "div" "id" "merchant-info", [Example.leaf "Sold by Acme" []]);
     (QAttr "a" "id" "sellerProfileTriggerId", [Example.leaf "Other" []])]
    [].

(** A seller name that the badge or the buybox gave (anything but the
    sentinel) is the one returned: the profile link, the store byline, the
    detail bullets and the seller page do not replace it.  It is returned
    cleaned when the links stage does not raise, and as the buybox gave it
    when the links stage raises, which ends the extraction before the
    cleaning. *)
Theorem name_from_the_buybox_is_not_replaced
    (h : Host) (soup : Tag) (url : string) :
  py_eq (name_on_the_buybox soup) "Not found" = false ->
  seller_name (extract_seller_details h soup url)
  = if links_raise h soup then name_on_the_buybox soup
    else clean_seller_name (name_on_the_buybox soup).
Proof.
  intros H. rewrite <- first_stages_name in H |- *.
  assert (L : seller_name (after_the_links h soup)
              = seller_name (before_links soup))
    by now apply links_keep_name.
  rewrite extract_seller_details_stages.
  destruct (links_raise h soup); [exact L|].
  change (seller_name (clean_names ?x)) with (clean_seller_name (seller_name x)).
  f_equal.
  rewrite (seller_page_keeps h _ (name_kept_on_seller_page _) _ eq_refl).
  unfold before_seller_page.
  rewrite detail_bullets_keep_name; rewrite feedback_keeps_name;
    rewrite L; try reflexivity; exact H.
Qed.

Lemma name_from_the_buybox_witness :
  seller_name
    (extract_seller_details Example.offline named_twice
       "https://www.amazon.com/dp/B000000000") = PStr "Acme".
Proof.
  apply (name_from_the_buybox_is_not_replaced Example.offline named_twice
           "https://www.amazon.com/dp/B000000000").
  reflexivity.
Defined.

(** A buybox that reads "Sold by by Design Inc" and a profile link whose
    address [urljoin] rejects: the name is returned as the buybox gave it,
    "by Design Inc"; with an address that resolves it is cleaned to
    "Design Inc". *)
Definition by_design (href : string) : Tag :=
  Example.document
    [(QAttr "div" "id" "merchant-info",
      [Example.leaf "Sold by by Design Inc" []]);
     (QAttr "a" "id" "sellerProfileTriggerId",
      [Example.leaf "by Design Inc" [("href", href)]])]
    [].

Example name_when_the_links_stage_raises :
  seller_name
    (extract_seller_details strict_host (by_design "//[bad")
       "https://www.amazon.com/dp/B000000000") = PStr "by Design Inc" /\
  seller_name
    (extract_seller_details strict_host (by_design "/sp?seller=A1")
       "https://www.amazon.com/dp/B000000000") = PStr "Design Inc".
Proof. split; reflexivity. Qed.

End Stages.

(* ================================================================= *)
(** * The texts that the patterns capture *)

Module Patterns.

Import Re.

(** Every character of a text is of a class. *)
Fixpoint all (p : char -> bool) (w : string) : bool :=
  match w with
  | EmptyString => true
  | String c w' => p c && all p w'
  end.

(** A text of ASCII characters.  On such a text the digits that [\d]
    matches are the ten digits 0 to 9, and the letters that a letter
    matches under [re.I] are its two cases. *)
Definition is_ascii (s : string) : bool :=
  all (fun c => (code c <? 128)%N) s.

(** [den r i w rest g g']: at offset [i], before the text [rest], the
    pattern [r] can match the text [w]; group 1 holds [g] before the match
    and [g'] after it. *)
Inductive den : re -> nat -> string -> string
                -> option string -> option string -> Prop :=
| den_Eps i rest g : den Eps i "" rest g g
| den_Chr p c i rest g : p c = true -> den (Chr p) i (String c "") rest g g
| den_Star gr p i w rest g : all p w = true -> den (Star gr p) i w rest g g
| den_Seq a b i w1 w2 rest g g1 g2 :
    den a i w1 (w2 ++ rest) g g1 ->
    den b (i + String.length w1) w2 rest g1 g2 ->
    den (Seq a b) i (w1 ++ w2) rest g g2
| den_Alt_l a b i w rest g g' :
    den a i w rest g g' -> den (Alt a b) i w rest g g'
| den_Alt_r a b i w rest g g' :
    den b i w rest g g' -> den (Alt a b) i w rest g g'
| den_Group a i w rest g g1 :
    den a i w rest g g1 -> den (Group a) i w rest g (Some w)
| den_Bol rest g : den Bol 0 "" rest g g
| den_Eol i rest g :
    rest = "" \/ rest = String Char.LF "" -> den Eol i "" rest g g.

(** A fact that holds of the 128 characters of ASCII holds of every
    character of an ASCII text. *)
Definition ascii_codes : list N := map N.of_nat (seq 0 128).

Lemma ascii_case (P : char -> bool) :
  forallb (fun n => P (Code n)) ascii_codes = true ->
  forall c, (code c <? 128)%N = true -> P c = true.
Proof.
  intros H [n] Hn. simpl in Hn. apply N.ltb_lt in Hn.
  rewrite forallb_forall in H. apply H.
  unfold ascii_codes. rewrite <- (N2Nat.id n). apply in_map, in_seq. lia.
Qed.

(** On ASCII the decimal digits are the ten digits, and folding the case
    is lowering it. *)
Lemma digit_ascii (c : char) :
  (code c <? 128)%N = true -> digit c = Str.isdigit c.
Proof.
  intros H. apply Bool.eqb_prop.
  apply (ascii_case (fun c => Bool.eqb (digit c) (Str.isdigit c)));
    [vm_compute; reflexivity | exact H].
Qed.

Lemma fold_case_ascii (c : char) :
  (code c <? 128)%N = true -> fold_case c = Str.lower_char c.
Proof.
  intros H. apply Char.eqb_true.
  apply (ascii_case (fun c => Char.eqb (fold_case c) (Str.lower_char c)));
    [vm_compute; reflexivity | exact H].
Qed.

(** A digit of ASCII is a decimal digit. *)
Lemma isdigit_digit (c : char) : Str.isdigit c = true -> digit c = true.
Proof.
  intros H. rewrite digit_ascii; [exact H|].
  destruct c as [n]. unfold Str.isdigit in H. simpl in *.
  apply andb_prop in H as [_ H]. apply N.leb_le in H. apply N.ltb_lt. lia.
Qed.

Lemma all_app (p : char -> bool) (a b : string) :
  all p (a ++ b) = all p a && all p b.
Proof.
  induction a as [|c a IH]; [reflexivity|].
  simpl. now rewrite IH, andb_assoc.
Qed.

Lemma is_ascii_app (a b : string) :
  is_ascii (a ++ b) = is_ascii a && is_ascii b.
Proof. apply all_app. Qed.

Lemma all_digit_ascii (w : string) :
  is_ascii w = true -> all digit w = all Str.isdigit w.
Proof.
  induction w as [|c w IH]; [reflexivity|]. cbn [is_ascii all].
  intros H. apply andb_prop in H as [Hc Hw].
  now rewrite (digit_ascii c Hc), (IH Hw).
Qed.

Lemma length_app (a b : string) :
  String.length (a ++ b) = String.length a + String.length b.
Proof. induction a as [|c a IH]; simpl; [reflexivity | now rewrite IH]. Qed.

Lemma take_app (w rest : string) : Str.take (String.length w) (w ++ rest) = w.
Proof. induction w as [|c w IH]; simpl; [now destruct rest | now rewrite IH]. Qed.

(** What the engine reports is a match of the pattern. *)
Lemma star_sound (gr : bool) (p : char -> bool) (s : string) :
  forall i g k res,
    star gr p i s g k = Some res ->
    exists w rest,
      s = w ++ rest /\ all p w = true /\
      k (i + String.length w) rest g = Some res.
Proof.
  assert (Stop : forall i g (k : cont) res (t : string),
             k i t g = Some res ->
             exists w rest, t = w ++ rest /\ all p w = true /\
                            k (i + String.length w) rest g = Some res).
  { intros i g k res t H. exists "", t. simpl. now rewrite Nat.add_0_r. }
  assert (Step : forall i g (k : cont) res c (t : string),
             p c = true ->
             (exists w rest, t = w ++ rest /\ all p w = true /\
                             k (S i + String.length w) rest g = Some res) ->
             exists w rest, String c t = w ++ rest /\ all p w = true /\
                            k (i + String.length w) rest g = Some res).
  { intros i g k res c t Hc (w & rest & -> & Hw & Hk).
    exists (String c w), rest. simpl. rewrite Hc, Hw.
    now rewrite Nat.add_succ_r. }
  induction s as [|c s IH]; intros i g k res H; simpl in H.
  - now apply Stop.
  - destruct (p c) eqn:Hc; [|now apply Stop].
    destruct gr.
    + destruct (star true p (S i) s g k) eqn:E.
      * injection H as ->. apply Step; [exact Hc|]. now apply IH.
      * now apply Stop.
    + destruct (k i (String c s) g) eqn:E.
      * injection H as ->. now apply Stop.
      * apply Step; [exact Hc|]. now apply IH.
Qed.

Lemma run_sound (r : re) :
  forall i s g k res,
    run r i s g k = Some res ->
    exists w rest g',
      s = w ++ rest /\ den r i w rest g g' /\
      k (i + String.length w) rest g' = Some res.
Proof.
  induction r as [|p|gr p|a IHa b IHb|a IHa b IHb|a IHa| |];
    intros i s g k res H; simpl in H.
  - exists "", s, g. simpl. rewrite Nat.add_0_r. repeat split; [constructor | exact H].
  - destruct s as [|c s]; [discriminate|].
    destruct (p c) eqn:Hc; [|discriminate].
    exists (String c ""), s, g. simpl. rewrite Nat.add_1_r.
    repeat split; [now constructor | exact H].
  - destruct (star_sound gr p s i g k res H) as (w & rest & -> & Hw & Hk).
    exists w, rest, g. repeat split; [now constructor | exact Hk].
  - destruct (IHa _ _ _ _ _ H) as (w1 & rest1 & g1 & -> & Ha & H1).
    destruct (IHb _ _ _ _ _ H1) as (w2 & rest & g2 & -> & Hb & H2).
    exists (w1 ++ w2), rest, g2.
    rewrite CleanText.append_assoc, length_app, Nat.add_assoc.
    repeat split; [econstructor; eassumption | exact H2].
  - destruct (run a i s g k) eqn:E.
    + injection H as ->.
      destruct (IHa _ _ _ _ _ E) as (w & rest & g' & -> & Ha & Hk).
      exists w, rest, g'. repeat split; [now apply den_Alt_l | exact Hk].
    + destruct (IHb _ _ _ _ _ H) as (w & rest & g' & -> & Hb & Hk).
      exists w, rest, g'. repeat split; [now apply den_Alt_r | exact Hk].
  - destruct (IHa _ _ _ _ _ H) as (w & rest & g1 & -> & Ha & Hk).
    exists w, rest, (Some w).
    replace (i + String.length w - i) with (String.length w) in Hk by lia.
    rewrite take_app in Hk.
    repeat split; [econstructor; eassumption | exact Hk].
  - destruct (Nat.eqb_spec i 0) as [->|]; [|discriminate].
    exists "", s, g. repeat split; [constructor | exact H].
  - exists "", s, g. simpl. rewrite Nat.add_0_r.
    destruct s as [|c [|c' s]]; try discriminate.
    + repeat split; [constructor; now left | exact H].
    + destruct (Char.eqb_reflect c Char.LF) as [->|]; [|discriminate].
      repeat split; [constructor; now right | exact H].
Qed.

(** A result of [re.search] followed by [group(1)] is the group of a match
    of the pattern somewhere in the text. *)
Lemma search_from_sound (r : re) (s : string) :
  forall i st e g,
    search_from r i s = Some (st, (e, g)) ->
    exists pre w rest,
      s = pre ++ w ++ rest /\ den r (i + String.length pre) w rest None g.
Proof.
  induction s as [|c s IH]; intros i st e g H; simpl in H.
  - destruct (match_at r i "") as [m|] eqn:E; [|discriminate].
    unfold match_at in E.
    destruct (run_sound r _ _ _ _ _ E) as (w & rest & g' & Hs & Hd & Hk).
    injection Hk as <-. injection H as <- <- <-.
    exists "", w, rest. simpl. rewrite Nat.add_0_r. now split.
  - destruct (match_at r i (String c s)) as [m|] eqn:E.
    + unfold match_at in E.
      destruct (run_sound r _ _ _ _ _ E) as (w & rest & g' & Hs & Hd & Hk).
      injection Hk as <-. injection H as <- <- <-.
      exists "", w, rest. simpl. rewrite Nat.add_0_r. now split.
    + destruct (IH _ _ _ _ H) as (pre & w & rest & -> & Hd).
      exists (String c pre), w, rest. simpl.
      rewrite Nat.add_succ_r. now split.
Qed.

Lemma search_group1_sound (r : re) (s x : string) :
  search_group1 r s = Some x ->
  exists pre w rest g,
    s = pre ++ w ++ rest /\ den r (String.length pre) w rest None g /\
    x = match g with Some y => y | None => "" end.
Proof.
  unfold search_group1, search. intros H.
  destruct (search_from r 0 s) as [[st [e g]]|] eqn:E; [|discriminate].
  destruct (search_from_sound r s _ _ _ _ E) as (pre & w & rest & Hs & Hd).
  exists pre, w, rest, g. repeat split; [exact Hs | exact Hd|].
  destruct g; now injection H as <-.
Qed.

(** A repetition always matches when what follows it does. *)
Lemma star_total (gr : bool) (p : char -> bool) (k : cont) :
  (forall i s g, k i s g <> None) ->
  forall s i g, star gr p i s g k <> None.
Proof.
  intros Hk. induction s as [|c s IH]; intros i g; simpl; [apply Hk|].
  destruct (p c); [|apply Hk]. destruct gr.
  - destruct (star true p (S i) s g k) eqn:E; [discriminate|].
    now destruct (IH (S i) g).
  - destruct (k i (String c s) g) eqn:E; [discriminate|].
    now destruct (Hk i (String c s) g).
Qed.

(** A search finds nothing in a text that lacks a character which every
    match of the pattern needs. *)
Definition lacks (p : char -> bool) (s : string) : bool :=
  all (fun c => negb (p c)) s.

Lemma lacks_app (p : char -> bool) (a b : string) :
  lacks p (a ++ b) = lacks p a && lacks p b.
Proof. apply all_app. Qed.


(** ** The product rating *)

(** The text in which [_extract_rating] searches. *)
Definition rating_text (soup : Tag) : string :=
  match find soup (QAttr "span" "class" "a-icon-alt") with
  | Some rating_elem => text_strip rating_elem
  | None => "Not found"
  end.

(** A numeral: digits, of which there is at least one, then possibly a
    period and further digits. *)
Fixpoint numeral_tail (s : string) : bool :=
  match s with
  | EmptyString => true
  | String c s' =>
      if Str.isdigit c then numeral_tail s'
      else Char.eqb c "." && all Str.isdigit s'
  end.

Definition numeral (s : string) : bool :=
  match s with
  | EmptyString => false
  | String c s' => Str.isdigit c && numeral_tail s'
  end.

(** The same with the decimal digits of every script, which [\d]
    matches. *)
Fixpoint decimal_numeral_tail (s : string) : bool :=
  match s with
  | EmptyString => true
  | String c s' =>
      if digit c then decimal_numeral_tail s'
      else Char.eqb c "." && all digit s'
  end.

Definition decimal_numeral (s : string) : bool :=
  match s with
  | EmptyString => false
  | String c s' => digit c && decimal_numeral_tail s'
  end.

Lemma decimal_numeral_tail_ascii (w : string) :
  is_ascii w = true -> decimal_numeral_tail w = numeral_tail w.
Proof.
  induction w as [|c w IH]; [reflexivity|]. cbn [is_ascii all].
  intros H. apply andb_prop in H as [Hc Hw].
  cbn [decimal_numeral_tail numeral_tail].
  now rewrite (digit_ascii c Hc), (IH Hw), (all_digit_ascii w Hw).
Qed.

Lemma decimal_numeral_ascii (w : string) :
  is_ascii w = true -> decimal_numeral w = numeral w.
Proof.
  destruct w as [|c w]; [reflexivity|]. cbn [is_ascii all].
  intros H. apply andb_prop in H as [Hc Hw].
  cbn [decimal_numeral numeral].
  now rewrite (digit_ascii c Hc), (decimal_numeral_tail_ascii w Hw).
Qed.

Lemma numeral_tail_digits (w : string) :
  all digit w = true -> decimal_numeral_tail w = true.
Proof.
  induction w as [|c w IH]; [reflexivity|]. simpl.
  intros H. apply andb_prop in H as [Hc Hw]. rewrite Hc. now apply IH.
Qed.

Lemma numeral_tail_app (w t : string) :
  all digit w = true -> decimal_numeral_tail t = true ->
  decimal_numeral_tail (w ++ t) = true.
Proof.
  induction w as [|c w IH]; [now intros _|]. simpl.
  intros H Ht. apply andb_prop in H as [Hc Hw]. rewrite Hc. now apply IH.
Qed.

Lemma number_re_numeral (i : nat) (w rest : string) (g g' : option string) :
  den number_re i w rest g g' -> g' = Some w /\ decimal_numeral w = true.
Proof.
  unfold number_re, plus, opt. intros H.
  inversion H as [| | | | | |a i0 w0 rest0 g0 g1 Hin| |]; subst; clear H.
  split; [reflexivity|].
  inversion Hin as [| | |a b i0 w1 w2 rest0 g0 g2 g3 H1 H2| | | | |];
    subst; clear Hin.
  inversion H1 as [| | |a b i0 wc ws rest0 g0 g4 g5 Hc Hs| | | | |];
    subst; clear H1.
  inversion Hc; subst; clear Hc. inversion Hs; subst; clear Hs.
  inversion H2 as [| | |a b i0 wo wd rest0 g0 g4 g5 Ho Hd| | | | |];
    subst; clear H2.
  inversion Hd; subst; clear Hd.
  simpl.
  match goal with Hc : digit _ = true |- _ => rewrite Hc end.
  apply numeral_tail_app; [assumption|].
  inversion Ho as [| | | |a b i0 w0 rest0 g0 g4 Hp|a b i0 w0 rest0 g0 g4 He| | |];
    subst; clear Ho.
  - inversion Hp; subst; clear Hp. simpl.
    destruct (digit c0); [now apply numeral_tail_digits|].
    unfold is_char in *.
    match goal with Hq : Char.eqb _ _ = true |- _ =>
      rewrite Char.eqb_sym, Hq end.
    assumption.
  - inversion He; subst; clear He. now apply numeral_tail_digits.
Qed.

Lemma number_re_found (s : string) :
  forall i, lacks digit s = false -> search_from number_re i s <> None.
Proof.
  induction s as [|c s IH]; intros i H; [discriminate|].
  simpl in H. change (search_from number_re i (String c s)) with
    (match match_at number_re i (String c s) with
     | Some m => Some (i, m)
     | None => search_from number_re (S i) s
     end).
  destruct (match_at number_re i (String c s)) as [m|] eqn:E; [discriminate|].
  destruct (digit c) eqn:Hc.
  - exfalso. revert E. unfold match_at, number_re, plus, opt.
    cbn [run]. rewrite Hc. apply star_total. intros i' s' g'.
    match goal with
    | |- match ?x with _ => _ end <> None => destruct x; [discriminate|]
    end.
    apply star_total. discriminate.
  - apply IH. unfold lacks in H. simpl in H. now rewrite Hc in H.
Qed.

Lemma lacks_search (r : re) (p : char -> bool) (s : string) :
  (forall i w rest g g', den r i w rest g g' -> lacks p w = false) ->
  lacks p s = true -> search_group1 r s = None.
Proof.
  intros Hr Hs. destruct (search_group1 r s) as [x|] eqn:E; [|reflexivity].
  destruct (search_group1_sound r s x E) as (pre & w & rest & g & -> & Hd & _).
  rewrite !lacks_app in Hs.
  apply andb_prop in Hs as [_ Hs]. apply andb_prop in Hs as [Hs _].
  now rewrite (Hr _ _ _ _ _ Hd) in Hs.
Qed.

Lemma numeral_has_digit (w : string) :
  decimal_numeral w = true -> lacks digit w = false.
Proof.
  destruct w as [|c w]; [discriminate|].
  unfold lacks. cbn [decimal_numeral all].
  intros H. apply andb_prop in H as [-> _]. reflexivity.
Qed.

Lemma lacks_digit_ascii (t : string) :
  is_ascii t = true -> lacks digit t = lacks Str.isdigit t.
Proof.
  unfold lacks. induction t as [|c t IH]; [reflexivity|]. cbn [is_ascii all].
  intros H. apply andb_prop in H as [Hc Ht].
  now rewrite (digit_ascii c Hc), (IH Ht).
Qed.

(** A page whose rating element reads "4.5 out of 5 stars". *)
Definition rated_page : Tag :=
  Example.document
    [(QAttr "span" "class" "a-icon-alt",
      [Example.leaf "4.5 out of 5 stars" []])] [].

(** The rating is the sentinel exactly when the text of the rating element
    (the sentinel, when the element is missing) holds no digit; otherwise
    it is a numeral that occurs in that text: digits, then possibly a
    period and further digits.  (Stated for an element text of ASCII
    characters, on which the digits of [\d] are the digits 0 to 9 of the
    statement.) *)
Theorem rating_is_not_found_or_a_numeral (soup : Tag) :
  is_ascii (rating_text soup) = true ->
  if lacks Str.isdigit (rating_text soup)
  then extract_rating soup = "Not found"
  else numeral (extract_rating soup) = true /\
       Str.contains (extract_rating soup) (rating_text soup) = true.
Proof.
  unfold extract_rating. fold (rating_text soup).
  generalize (rating_text soup). intros t Ha.
  rewrite <- (lacks_digit_ascii t Ha).
  destruct (lacks digit t) eqn:H.
  - rewrite (lacks_search number_re digit t); [reflexivity | | exact H].
    intros i w rest g g' Hd. apply numeral_has_digit.
    now apply (number_re_numeral i w rest g g').
  - pose proof (number_re_found t 0 H) as Hf.
    destruct (search_group1 number_re t) as [x|] eqn:E.
    + destruct (search_group1_sound _ _ _ E)
        as (pre & w & rest & g & -> & Hd & ->).
      destruct (number_re_numeral _ _ _ _ _ Hd) as [-> Hn].
      rewrite !is_ascii_app in Ha.
      apply andb_prop in Ha as [_ Ha]. apply andb_prop in Ha as [Ha _].
      rewrite <- (decimal_numeral_ascii w Ha).
      split; [exact Hn|]. apply Images.contains_app_l.
    + unfold search_group1, search in E.
      destruct (search_from number_re 0 t) as [[st [e [g|]]]|];
        try discriminate. now destruct Hf.
Qed.

Lemma rating_of_rated_page :
  extract_rating rated_page = "4.5" /\
  numeral (extract_rating rated_page) = true /\
  Str.contains (extract_rating rated_page) (rating_text rated_page) = true.
Proof.
  split; [reflexivity|].
  apply (rating_is_not_found_or_a_numeral rated_page). reflexivity.
Defined.

(** ** The currency symbol and the amount *)

(** A digit or a period. *)
Definition digit_or_period (c : char) : bool :=
  Str.isdigit c || Char.eqb c ".".

Lemma replace_commas (w : string) :
  is_ascii w = true ->
  all amount_char w = true ->
  all digit_or_period (Str.replace "," "" w) = true.
Proof.
  unfold Str.replace. induction w as [|c w IH]; [reflexivity|].
  cbn [is_ascii all]. intros Ha H.
  apply andb_prop in Ha as [Hac Haw]. apply andb_prop in H as [Hc Hw].
  cbn [Str.replace_aux Str.startswith String.length Nat.sub].
  rewrite andb_true_r.
  destruct (Char.eqb_reflect "," c) as [<-|Hn]; [now apply IH|].
  cbn [all]. rewrite (IH Haw Hw), andb_true_r.
  unfold amount_char in Hc. rewrite (digit_ascii c Hac) in Hc.
  unfold digit_or_period.
  destruct (Str.isdigit c); [reflexivity|].
  destruct (Char.eqb c "."); [reflexivity|].
  simpl in Hc. apply Char.eqb_true in Hc. now destruct Hn.
Qed.

Lemma price_re_amount (i : nat) (w rest : string) (g g' : option string) :
  den price_re i w rest g g' ->
  g' = Some w /\ all amount_char w = true /\ lacks amount_char w = false.
Proof.
  unfold price_re, plus. intros H.
  inversion H as [| | | | | |a i0 w0 rest0 g0 g1 Hin| |]; subst; clear H.
  split; [reflexivity|].
  inversion Hin as [| | |a b i0 wc ws rest0 g0 g2 g3 Hc Hs| | | | |];
    subst; clear Hin.
  inversion Hc; subst; clear Hc. inversion Hs; subst; clear Hs.
  unfold lacks. cbn [String.append all].
  match goal with Hc : amount_char _ = true |- _ => rewrite Hc end.
  split; [assumption | reflexivity].
Qed.

Lemma price_re_found (s : string) :
  forall i, lacks amount_char s = false -> search_from price_re i s <> None.
Proof.
  induction s as [|c s IH]; intros i H; [discriminate|].
  change (search_from price_re i (String c s)) with
    (match match_at price_re i (String c s) with
     | Some m => Some (i, m)
     | None => search_from price_re (S i) s
     end).
  destruct (match_at price_re i (String c s)) as [m|] eqn:E; [discriminate|].
  destruct (amount_char c) eqn:Hc.
  - exfalso. revert E. unfold match_at, price_re, plus.
    cbn [run]. rewrite Hc. apply star_total. discriminate.
  - apply IH. unfold lacks in H. cbn [all] in H. now rewrite Hc in H.
Qed.

Lemma currency_re_symbol (i : nat) (w rest : string) (g g' : option string) :
  den currency_re i w rest g g' ->
  lacks amount_char w = false /\
  exists sym, g' = Some sym /\ Str.is_empty sym = false /\
              all symbol_char sym = true.
Proof.
  unfold currency_re, plus. intros H.
  inversion H as [| | |a b i0 w1 w2 rest0 g0 g1 g2 H1 H2| | | | |];
    subst; clear H.
  inversion H1 as [| | | | | |a i0 w0 rest0 g0 g3 Hin| |]; subst; clear H1.
  inversion Hin as [| | |a b i0 wc ws rest0 g0 g4 g5 Hc Hs| | | | |];
    subst; clear Hin.
  inversion Hc; subst; clear Hc. inversion Hs; subst; clear Hs.
  inversion H2 as [| | |a b i0 wsp wam rest0 g0 g4 g5 Hsp Ham| | | | |];
    subst; clear H2.
  inversion Hsp; subst; clear Hsp.
  inversion Ham as [| | |a b i0 wa wb rest0 g0 g4 g5 Ha Hb| | | | |];
    subst; clear Ham.
  inversion Ha; subst; clear Ha. inversion Hb; subst; clear Hb.
  split.
  - rewrite !lacks_app. unfold lacks. cbn [String.append all].
    match goal with Hc : amount_char _ = true |- _ => rewrite Hc end.
    cbn [negb andb]. now rewrite !andb_false_r.
  - eexists. split; [reflexivity|]. split; [reflexivity|].
    cbn [String.append all].
    match goal with Hc : symbol_char _ = true |- _ => rewrite Hc end.
    assumption.
Qed.

Lemma symbol_no_space (w : string) :
  all symbol_char w = true -> CleanText.no_space w = true.
Proof.
  induction w as [|c w IH]; [reflexivity|].
  cbn [all]. intros H. apply andb_prop in H as [Hc Hw].
  simpl. rewrite (IH Hw), andb_true_r.
  unfold symbol_char, space in Hc.
  destruct (Str.isspace c); [|reflexivity].
  now rewrite orb_true_r in Hc.
Qed.

Lemma strip_symbol (w : string) :
  all symbol_char w = true -> Str.strip w = w.
Proof.
  intros H. pose proof (symbol_no_space w H) as Hn. unfold Str.strip.
  assert (Str.lstrip w = w) as ->.
  { destruct w as [|c w]; [reflexivity|]. simpl in Hn |- *.
    apply andb_prop in Hn as [Hc _].
    now destruct (Str.isspace c). }
  now apply CleanText.rstrip_no_space.
Qed.

Lemma symbol_lacks (w : string) :
  all symbol_char w = true ->
  lacks Str.isdigit w = true /\ lacks Str.isspace w = true.
Proof.
  unfold lacks. induction w as [|c w IH]; [now split|].
  cbn [all]. intros H. apply andb_prop in H as [Hc Hw].
  destruct (IH Hw) as [-> ->]. unfold symbol_char, space in Hc.
  destruct (Str.isdigit c) eqn:Hd;
    [rewrite (isdigit_digit c Hd) in Hc; discriminate|].
  destruct (Str.isspace c);
    [rewrite orb_true_r in Hc; discriminate | now split].
Qed.

(** [extract_currency] on a price text of ASCII characters.  The symbol
    is never empty and holds neither a digit nor white space.  When the
    text holds no digit, period or comma, the answer is the default symbol
    with the sentinel; otherwise the amount is made of digits and periods
    only (the commas are gone), so it is not the sentinel. *)
Theorem currency_symbol_and_amount (price_text : string) :
  is_ascii price_text = true ->
  Str.is_empty (fst (extract_currency price_text)) = false /\
  lacks Str.isdigit (fst (extract_currency price_text)) = true /\
  lacks Str.isspace (fst (extract_currency price_text)) = true /\
  if lacks amount_char price_text
  then extract_currency price_text = ("$", "Not found")
  else all digit_or_period (snd (extract_currency price_text)) = true /\
       String.eqb (snd (extract_currency price_text)) "Not found" = false.
Proof.
  intros Hascii. unfold extract_currency. cbn [fst snd].
  assert (Hsym : forall x, search_group1 currency_re price_text = Some x ->
                   Str.strip x = x /\ Str.is_empty x = false /\
                   all symbol_char x = true).
  { intros x E.
    destruct (search_group1_sound _ _ _ E)
      as (pre & w & rest & g & _ & Hd & ->).
    destruct (currency_re_symbol _ _ _ _ _ Hd) as (_ & sym & -> & He & Ha).
    split; [now apply strip_symbol | now split]. }
  split; [|split; [|split]].
  - destruct (search_group1 currency_re price_text) as [x|]; [|reflexivity].
    destruct (Hsym x eq_refl) as (-> & He & _). exact He.
  - destruct (search_group1 currency_re price_text) as [x|]; [|reflexivity].
    destruct (Hsym x eq_refl) as (-> & _ & Ha). now apply symbol_lacks.
  - destruct (search_group1 currency_re price_text) as [x|]; [|reflexivity].
    destruct (Hsym x eq_refl) as (-> & _ & Ha). now apply symbol_lacks.
  - destruct (lacks amount_char price_text) eqn:H.
    + rewrite (lacks_search currency_re amount_char price_text); [| |exact H].
      * rewrite (lacks_search price_re amount_char price_text);
          [reflexivity | | exact H].
        intros i w rest g g' Hd. now apply (price_re_amount i w rest g g').
      * intros i w rest g g' Hd.
        now apply (currency_re_symbol i w rest g g').
    + pose proof (price_re_found price_text 0 H) as Hf.
      destruct (search_group1 price_re price_text) as [x|] eqn:E.
      * destruct (search_group1_sound _ _ _ E)
          as (pre & w & rest & g & Hs & Hd & ->).
        destruct (price_re_amount _ _ _ _ _ Hd) as (-> & Ha & _).
        rewrite Hs, !is_ascii_app in Hascii.
        apply andb_prop in Hascii as [_ Hascii].
        apply andb_prop in Hascii as [Hascii _].
        pose proof (replace_commas w Hascii Ha) as Hr. split; [exact Hr|].
        destruct (String.eqb_spec (Str.replace "," "" w) "Not found") as [Eq|];
          [|reflexivity].
        rewrite Eq in Hr. discriminate.
      * unfold search_group1, search in E.
        destruct (search_from price_re 0 price_text) as [[st [e [g|]]]|];
          try discriminate. now destruct Hf.
Qed.

Lemma currency_of_rupee_price :
  extract_currency "PKR 1,234.50" = ("PKR", "1234.50") /\
  Str.is_empty (fst (extract_currency "PKR 1,234.50")) = false /\
  lacks Str.isdigit (fst (extract_currency "PKR 1,234.50")) = true /\
  lacks Str.isspace (fst (extract_currency "PKR 1,234.50")) = true /\
  all digit_or_period (snd (extract_currency "PKR 1,234.50")) = true /\
  String.eqb (snd (extract_currency "PKR 1,234.50")) "Not found" = false.
Proof.
  split; [reflexivity|].
  apply (currency_symbol_and_amount "PKR 1,234.50"). reflexivity.
Defined.

End Patterns.

(* ================================================================= *)
(** * The text fields of a product and the seller names *)

Module Fields.

Lemma take_length (n : nat) (s : string) : String.length (Str.take n s) <= n.
Proof.
  revert s. induction n as [|n IH]; intros [|c s]; simpl; try lia.
  specialize (IH s). lia.
Qed.

Lemma take_all (n : nat) (s : string) :
  String.length s <= n -> Str.take n s = s.
Proof.
  revert s. induction n as [|n IH]; intros [|c s]; simpl; intros H;
    try reflexivity; try lia.
  rewrite IH; [reflexivity | lia].
Qed.

Lemma take_full (n : nat) (s : string) :
  n <= String.length s -> String.length (Str.take n s) = n.
Proof.
  revert s. induction n as [|n IH]; intros [|c s]; simpl; intros H;
    try reflexivity; try lia.
  rewrite IH; [reflexivity | lia].
Qed.

Lemma clean_text_tidy (s : string) : CleanText.tidy (clean_text (PStr s)) = true.
Proof.
  rewrite CleanText.clean_text_join.
  apply CleanText.tidy_join, CleanText.split_words.
Qed.

(** The text fields that [scrape] stores in the product. *)
Lemma scrape_texts (h : Host) (url : string) :
  match scrape h url with
  | Some p =>
      exists r,
        title p = extract_title (soup r) /\
        brand p = extract_brand (soup r) /\
        reviews p = extract_reviews (soup r) /\
        description p = extract_description (soup r)
  | None => True
  end.
Proof.
  unfold scrape. destruct (http_get h url) as [r|]; [|exact I].
  destruct (negb _); [exact I|].
  destruct (extract_price h (soup r)) as [pr cs].
  exists r. repeat split.
Qed.

(** The title, the brand and the review count of every scraped product
    are tidy texts (the sentinel, or a text whose white space is single
    spaces between words), and its description has at most 500
    characters. *)
Theorem product_texts_are_tidy_and_description_is_cut
    (h : Host) (url : string) :
  match scrape h url with
  | Some p =>
      CleanText.tidy (title p) = true /\
      CleanText.tidy (brand p) = true /\
      CleanText.tidy (reviews p) = true /\
      String.length (description p) <= 500
  | None => True
  end.
Proof.
  pose proof (scrape_texts h url) as H.
  destruct (scrape h url) as [p|]; [|exact I].
  destruct H as (r & -> & -> & -> & ->).
  unfold extract_title, extract_brand, extract_reviews, extract_description.
  repeat split.
  - destruct (find _ _); [apply clean_text_tidy | reflexivity].
  - destruct (find _ _); [apply clean_text_tidy | reflexivity].
  - destruct (find _ _); [apply clean_text_tidy | reflexivity].
  - apply take_length.
Qed.

(** ** The seller names *)

Lemma clean_seller_name_length (s : string) :
  exists t, clean_seller_name (PStr s) = PStr t /\ String.length t <= 103.
Proof.
  unfold clean_seller_name.
  destruct s as [|c s]; [exists ""; simpl; split; [reflexivity | lia]|].
  cbn [Str.is_empty orb].
  destruct (String.eqb_spec (String c s) NOT_FOUND) as [->|_].
  - exists NOT_FOUND. split; [reflexivity | simpl; lia].
  - cbv zeta.
    set (name := Str.strip (Re.sub_empty by_prefix_re _)).
    destruct (Nat.ltb_spec 100 (String.length name)) as [Hl|Hl].
    + eexists. split; [reflexivity|].
      rewrite Patterns.length_app, take_full by lia. simpl. lia.
    + exists name. split; [reflexivity | lia].
Qed.

(** The names of the returned record, [seller_name] and [sold_by], are
    texts on every document and host.  When the links stage does not
    raise they have been cleaned, and have at most 103 characters; when
    it raises, the extraction ends before the cleaning and they are as
    the earlier stages left them. *)
Theorem seller_names_have_at_most_103_characters
    (h : Host) (soup : Tag) (url : string) :
  exists name sold,
    seller_name (extract_seller_details h soup url) = PStr name /\
    sold_by (extract_seller_details h soup url) = PStr sold /\
    (Seller.links_raise h soup = false ->
     String.length name <= 103 /\ String.length sold <= 103).
Proof.
  rewrite Seller.extract_seller_details_cases.
  assert (T1 : Seller.texts_but_id (Seller.after_the_links h soup)).
  { apply Seller.links_texts, Seller.buybox_texts, Seller.badge_texts,
      Seller.fba_texts, Seller.init_texts. }
  destruct (Seller.links_raise h soup).
  - destruct T1 as (Hn & _ & _ & _ & _ & _ & _ & Hs & _).
    destruct (seller_name _) as [|n]; [discriminate|].
    destruct (sold_by _) as [|b]; [discriminate|].
    exists n, b. repeat split; discriminate.
  - unfold Seller.after_links.
    set (s := scrape_seller_page_if_any h _).
    assert (T : Seller.texts_but_id s).
    { now apply Seller.page_step_texts, Seller.detail_bullets_texts,
        Seller.feedback_texts. }
    destruct T as (Hn & _ & _ & _ & _ & _ & _ & Hs & _).
    unfold clean_names. cbn [seller_name sold_by set_seller_name set_sold_by].
    destruct (seller_name s) as [|n]; [discriminate|].
    destruct (sold_by s) as [|b]; [discriminate|].
    destruct (clean_seller_name_length n) as (n' & -> & Hn').
    destruct (clean_seller_name_length b) as (b' & -> & Hb').
    exists n', b'. now repeat split.
Qed.

(** A buybox that names a seller with 150 characters, and a profile link
    whose address [urljoin] rejects: the name is returned with its 150
    characters; with an address that resolves it is cut to 100 characters
    and "..." *)
Fixpoint copies (n : nat) (c : char) : string :=
  match n with
  | O => EmptyString
  | S n' => String c (copies n' c)
  end.

Definition long_name_page (href : string) : Tag :=
  Example.document
    [(QAttr "div" "id" "merchant-info",
      [Example.leaf ("Sold by " ++ copies 150 "a") []]);
     (QAttr "a" "id" "sellerProfileTriggerId",
      [Example.leaf "x" [("href", href)]])]
    [].

Example long_name_when_the_links_stage_raises :
  seller_name
    (extract_seller_details Stages.strict_host (long_name_page "//[bad")
       "https://www.amazon.com/dp/B000000000") = PStr (copies 150 "a") /\
  seller_name
    (extract_seller_details Stages.strict_host (long_name_page "/sp")
       "https://www.amazon.com/dp/B000000000")
    = PStr (copies 100 "a" ++ "...").
Proof. split; vm_compute; reflexivity. Qed.

(** A name that needs no cleaning comes back as it is. *)

Lemma lstrip_length (s : string) :
  String.length (Str.lstrip s) <= String.length s.
Proof.
  induction s as [|c s IH]; simpl; [lia|].
  destruct (Str.isspace c); simpl; lia.
Qed.

Lemma rstrip_length (s : string) :
  String.length (Str.rstrip s) <= String.length s.
Proof.
  induction s as [|c s IH]; simpl; [lia|].
  destruct (_ && _); simpl; lia.
Qed.

Lemma strip_fixed_start (c : char) (s : string) :
  Str.strip (String c s) = String c s -> Str.isspace c = false.
Proof.
  intros H. destruct (Str.isspace c) eqn:Hc; [|reflexivity].
  unfold Str.strip in H. simpl in H. rewrite Hc in H.
  pose proof (rstrip_length (Str.lstrip s)) as H1.
  pose proof (lstrip_length s) as H2.
  rewrite H in H1. simpl in H1. lia.
Qed.

Lemma sub_parens_none (s : string) :
  forall i, Str.contains "(" s = false -> Re.sub_aux parens_re 0 i s = s.
Proof.
  induction s as [|c s IH]; intros i H; [reflexivity|].
  rewrite Seller.contains_char_cons in H. apply orb_false_elim in H as [Hc Hs].
  cbn [Re.sub_aux]. unfold Re.match_at, parens_re.
  cbn [Re.run Re.lit]. unfold Re.is_char at 1. rewrite Hc.
  now rewrite IH.
Qed.

Lemma sub_by_prefix_later (s : string) :
  forall i, Re.sub_aux by_prefix_re 0 (S i) s = s.
Proof.
  induction s as [|c s IH]; intros i; [reflexivity|].
  cbn [Re.sub_aux]. unfold Re.match_at, by_prefix_re at 1.
  cbn [Re.run Nat.eqb]. now rewrite IH.
Qed.

(** Under [re.I] the letters of "by" match the characters whose
    lower-case form they are, and no other. *)
Lemma is_char_i_by (a c : char) :
  a = "b"%char \/ a = "y"%char ->
  Re.is_char_i a c = Char.eqb a (Str.lower_char c).
Proof.
  intros Ha. unfold Re.is_char_i.
  assert (Re.fold_case a = a) as -> by (destruct Ha as [->| ->]; reflexivity).
  unfold Re.fold_case. destruct c as [n]. cbn [code].
  destruct (N.eqb_spec n 304) as [->|_];
    [destruct Ha as [->| ->]; reflexivity|].
  destruct (N.eqb_spec n 305) as [->|_];
    [destruct Ha as [->| ->]; reflexivity|].
  cbn [orb].
  destruct (N.eqb_spec n 383) as [->|_];
    [destruct Ha as [->| ->]; reflexivity|].
  destruct (N.eqb_spec n 8490) as [->|_];
    [destruct Ha as [->| ->]; reflexivity|].
  reflexivity.
Qed.

Lemma sub_by_prefix_none (s : string) :
  Str.strip s = s -> Str.startswith "by" (Str.lower s) = false ->
  Re.sub_empty by_prefix_re s = s.
Proof.
  intros Hs Hb. unfold Re.sub_empty. destruct s as [|c s]; [reflexivity|].
  pose proof (strip_fixed_start c s Hs) as Hc.
  cbn [Re.sub_aux]. unfold Re.match_at, by_prefix_re at 1.
  cbn [Re.run Re.lit Nat.eqb Re.star]. unfold Re.space at 1. rewrite Hc.
  cbn [Str.lower Str.startswith] in Hb.
  rewrite (is_char_i_by "b" c) by now left.
  destruct (Char.eqb "b" (Str.lower_char c)).
  - destruct s as [|c' s]; [now rewrite sub_by_prefix_later|].
    cbn [Str.lower Str.startswith andb] in Hb.
    rewrite (is_char_i_by "y" c') by now right.
    rewrite andb_true_r in Hb. rewrite Hb.
    now rewrite sub_by_prefix_later.
  - now rewrite sub_by_prefix_later.
Qed.

(** [clean_seller_name] returns a name as it is when the name holds no
    opening parenthesis, has no white space at either end, does not begin
    with "by" (in either case of the letters) and has at most 100
    characters.  (Stated for a name of ASCII characters, on which
    [Str.lower] is [str.lower].) *)
Theorem clean_name_is_returned_unchanged (s : string) :
  Patterns.is_ascii s = true ->
  Str.contains "(" s = false ->
  Str.strip s = s ->
  Str.startswith "by" (Str.lower s) = false ->
  String.length s <= 100 ->
  clean_seller_name (PStr s) = PStr s.
Proof.
  intros _ Hp Hs Hb Hl. unfold clean_seller_name.
  destruct (_ || _); [reflexivity|]. cbv zeta.
  assert (E : Str.strip (Re.sub_empty by_prefix_re
                           (Str.strip (Re.sub_empty parens_re s))) = s).
  { unfold Re.sub_empty at 2. rewrite (sub_parens_none s 0 Hp), Hs.
    now rewrite (sub_by_prefix_none s Hs Hb). }
  rewrite !E.
  destruct (Nat.ltb_spec 100 (String.length s)); [lia | reflexivity].
Qed.

Lemma clean_name_witness :
  clean_seller_name (PStr "Acme Trading Co.") = PStr "Acme Trading Co.".
Proof.
  apply (clean_name_is_returned_unchanged "Acme Trading Co.");
    [reflexivity | reflexivity | reflexivity | reflexivity | simpl; lia].
Defined.

(** ** Images behind a placeholder *)

(** An element whose [src] is a text without "http" that is not empty,
    as the inline placeholder of an image that is loaded later. *)
Definition placeholder (img : Tag) : bool :=
  match attr_get "src" (attrs img) with
  | PStr s => negb (Str.is_empty s) && negb (Str.contains "http" s)
  | PNone => false
  end.

Lemma placeholder_src (h : Host) (img : Tag) :
  placeholder img = true ->
  Images.usable (image_src h img) = false.
Proof.
  unfold placeholder, image_src, py_or, Images.usable.
  destruct (attr_get "src" (attrs img)) as [|s]; [discriminate|].
  intros H. apply andb_prop in H as [He Hc].
  apply negb_true_iff in Hc. destruct s as [|c s]; [discriminate|].
  cbn [truthy Str.is_empty negb andb]. exact Hc.
Qed.

Lemma candidates_without_placeholders (h : Host) (imgs : list Tag) :
  Images.candidates h imgs
  = Images.candidates h (filter (fun img => negb (placeholder img)) imgs).
Proof.
  unfold Images.candidates.
  induction imgs as [|img imgs IH]; [reflexivity|].
  cbn [flat_map filter]. destruct (placeholder img) eqn:E; cbn [negb].
  - unfold Images.candidate_of at 1. now rewrite (placeholder_src h img E).
  - cbn [flat_map]. now rewrite IH.
Qed.

(** An element with a placeholder [src] adds no image, whatever its
    [data-src], [data-old-hires] and [data-a-dynamic-image] attributes
    hold: these are read only when [src] is missing or empty.  So the
    image list is the one of the document without such elements. *)
Theorem placeholder_src_hides_the_other_sources (h : Host) (soup : Tag) :
  (forall img images,
      placeholder img = true -> add_image h images img = images) /\
  extract_images h soup
  = Images.first_occurrences
      (Images.candidates h
         (filter (fun img => negb (placeholder img))
                 (Images.all_images soup))).
Proof.
  split.
  - intros img images E. unfold add_image.
    rewrite Images.accepted_usable. now rewrite (placeholder_src h img E).
  - rewrite Images.extract_images_first_occurrences.
    now rewrite <- candidates_without_placeholders.
Qed.

End Fields.

(* ================================================================= *)
(** * The seller identifier of a well-formed address *)

Module SellerId.

Import Patterns.

(** TAB, LF and CR, which [urlsplit] drops, and the mark of a fragment. *)
Definition unsafe_or_hash (c : char) : bool :=
  Char.eqb c Char.TAB || Char.eqb c Char.LF || Char.eqb c Char.CR ||
  Char.eqb c "#".

Lemma remove_unsafe_none (s : string) :
  lacks unsafe_or_hash s = true -> Url.remove_unsafe s = s.
Proof.
  unfold lacks. induction s as [|c s IH]; [reflexivity|].
  cbn [all Url.remove_unsafe]. intros H. apply andb_prop in H as [Hc Hs].
  unfold unsafe_or_hash in Hc. apply negb_true_iff, orb_false_elim in Hc as [Hc _].
  rewrite Hc. now rewrite IH.
Qed.

Lemma before_hash_none (s : string) :
  lacks unsafe_or_hash s = true -> Str.before "#" s = s.
Proof.
  unfold lacks. induction s as [|c s IH]; [reflexivity|].
  cbn [all]. intros H. apply andb_prop in H as [Hc Hs].
  rewrite Images.before_cons. cbn [Str.startswith]. rewrite andb_true_r.
  unfold unsafe_or_hash in Hc. apply negb_true_iff, orb_false_elim in Hc as [_ Hc].
  rewrite Char.eqb_sym, Hc. now rewrite IH.
Qed.

Lemma after_mark (p q : string) :
  Str.contains "?" p = false -> Url.after "?" (p ++ "?" ++ q) = q.
Proof.
  induction p as [|c p IH]; intros H.
  - simpl. now destruct q.
  - rewrite Seller.contains_char_cons in H.
    apply orb_false_elim in H as [Hc Hp].
    cbn [String.append Url.after Str.startswith]. rewrite Hc. cbn [andb].
    now apply IH.
Qed.

(** The query of an address [p?q] without fragment. *)
Lemma query_of_address (p q : string) :
  lacks unsafe_or_hash (p ++ "?" ++ q) = true ->
  Str.contains "?" p = false ->
  Url.query_of (p ++ "?" ++ q) = q.
Proof.
  intros Hu Hp. unfold Url.query_of.
  rewrite (remove_unsafe_none _ Hu), (before_hash_none _ Hu).
  rewrite Images.contains_app_l. now apply after_mark.
Qed.

Lemma split_on_none (c : char) (f : string) :
  Str.contains (String c "") f = false -> Url.split_on c f = [f].
Proof.
  induction f as [|a f IH]; intros H; [reflexivity|].
  rewrite Seller.contains_char_cons in H.
  apply orb_false_elim in H as [Ha Hf].
  cbn [Url.split_on]. rewrite Char.eqb_sym, Ha. now rewrite (IH Hf).
Qed.

Lemma split_on_first (c : char) (f rest : string) :
  Str.contains (String c "") f = false ->
  Url.split_on c (f ++ String c rest) = f :: Url.split_on c rest.
Proof.
  induction f as [|a f IH]; intros H.
  - cbn [String.append Url.split_on]. now rewrite Char.eqb_same.
  - rewrite Seller.contains_char_cons in H.
    apply orb_false_elim in H as [Ha Hf].
    cbn [String.append Url.split_on]. rewrite Char.eqb_sym, Ha. now rewrite (IH Hf).
Qed.

(** Splitting at [&] undoes the joining of fields that hold no [&]. *)
Lemma split_on_join (fields : list string) :
  forall f,
    forallb (fun x => negb (Str.contains "&" x)) (f :: fields) = true ->
    Url.split_on "&" (Str.join "&" (f :: fields)) = f :: fields.
Proof.
  induction fields as [|f' fields IH]; intros f H;
    cbn [forallb] in H; apply andb_prop in H as [Hf H];
    apply negb_true_iff in Hf.
  - now apply split_on_none.
  - rewrite CleanText.join_cons2.
    change ("&" ++ Str.join "&" (f' :: fields))
      with (String "&" (Str.join "&" (f' :: fields))).
    rewrite (split_on_first "&" f _ Hf). now rewrite IH.
Qed.

Lemma first_value_app (k : string) (l1 l2 : list (string * string)) :
  Url.first_value k l1 = PNone ->
  Url.first_value k (l1 ++ l2) = Url.first_value k l2.
Proof.
  induction l1 as [|[n v] l1 IH]; [reflexivity|]. cbn [Url.first_value app].
  destruct (String.eqb n k); [discriminate | exact IH].
Qed.

Lemma parse_seller_field (h : Host) (v : string) :
  Str.is_empty v = false ->
  Url.parse_field h ("seller=" ++ v)
  = [(unquote h "seller", unquote h (Str.replace "+" " " v))].
Proof.
  intros Hv. unfold Url.parse_field.
  change (Str.is_empty ("seller=" ++ v)) with false. cbv iota.
  assert (Str.contains "=" ("seller=" ++ v) = true) as ->
    by apply (Images.contains_app_l "=" "seller" v).
  cbn [negb].
  assert (Str.before "=" ("seller=" ++ v) = "seller") as ->.
  { reflexivity. }
  assert (Url.after "=" ("seller=" ++ v) = v) as ->.
  { simpl. now destruct v. }
  now rewrite Hv.
Qed.

(** The address [p?f1&...&fn]. *)
Definition address (p : string) (fields : list string) : string :=
  p ++ "?" ++ Str.join "&" fields.

(** The fields of an address of which one is [seller=v]. *)
Definition with_seller (fields_before : list string) (v : string)
    (fields_after : list string) : list string :=
  (fields_before ++ ("seller=" ++ v)%string :: fields_after)%list.

(** An address [p?f1&...&seller=v&...] without fragment: when no field
    before it gives a [seller] value, the identifier is the value of the
    [seller] field, with [+] read as a space and the escapes undone. *)
Theorem seller_parameter_is_the_seller_id
    (h : Host) (p v : string) (fields_before fields_after : list string) :
  urlparse_rejects h
    (address p (with_seller fields_before v fields_after)) = false ->
  unquote h "seller" = "seller" ->
  lacks unsafe_or_hash
    (address p (with_seller fields_before v fields_after)) = true ->
  Str.contains "?" p = false ->
  forallb (fun x => negb (Str.contains "&" x))
    (with_seller fields_before v fields_after) = true ->
  Str.is_empty v = false ->
  Url.first_value "seller" (flat_map (Url.parse_field h) fields_before)
  = PNone ->
  get_seller_id_from_url h
    (address p (with_seller fields_before v fields_after))
  = PStr (unquote h (Str.replace "+" " " v)).
Proof.
  intros Hr Hq Hu Hp Hf Hv Hb.
  unfold get_seller_id_from_url. rewrite Hr.
  unfold address in *. rewrite (query_of_address _ _ Hu Hp).
  unfold Url.parse_qs.
  assert (Url.split_on "&"
            (Str.join "&" (with_seller fields_before v fields_after))
          = with_seller fields_before v fields_after) as ->.
  { unfold with_seller in *. destruct fields_before as [|f0 l].
    - now apply split_on_join.
    - now apply (split_on_join
                   (l ++ ("seller=" ++ v)%string :: fields_after)%list f0). }
  unfold with_seller. rewrite flat_map_app, (first_value_app _ _ _ Hb).
  cbn [flat_map]. rewrite (parse_seller_field h v Hv), Hq.
  reflexivity.
Qed.

Lemma seller_parameter_witness :
  get_seller_id_from_url Example.offline
    "https://www.amazon.com/sp?ie=UTF8&seller=A2XYZ&asin=B01"
  = PStr "A2XYZ".
Proof.
  apply (seller_parameter_is_the_seller_id Example.offline
           "https://www.amazon.com/sp" "A2XYZ" ["ie=UTF8"] ["asin=B01"]);
    reflexivity.
Defined.

End SellerId.
